(** * merge_bills.py: text normalisation, rule loading, classification,
      source adapters and the final merge, embedded in Rocq.

    Python values are modelled as the interpreter has them: a [str] is a
    sequence of Unicode code points, an [int] is unbounded ([Z]), a [float] is
    an IEEE binary64 value ([spec_float] at precision 53), [None] and the
    missing value NaN are explicit.  Library calls whose tables are not part of
    the repository ([unicodedata.normalize], [str.lower], [re.search], [float],
    [repr], [datetime.strptime], the sort behind [DataFrame.sort_values]) are
    operations of small interfaces (type classes); every theorem holds for all
    their implementations, and one tabulated instance runs the examples. *)

From Stdlib Require Import String Ascii.
From Stdlib Require Import List ZArith NArith Bool Lia.
From Stdlib Require Import Sorting.Sorted Sorting.Permutation.
From Stdlib Require Import Floats.SpecFloat.
Import ListNotations.
Local Open Scope N_scope.

(* ================================================================== *)
(** * Part I: the embedding *)
(* ================================================================== *)

(** ** Python strings *)

(** A code point. *)
Definition char := N.

(** A Python [str]. *)
Definition str := list char.

(** Reads a UTF-8 literal of this file as code points; [need] continuation
    bytes are still expected for the code point accumulated in [acc]. *)
Fixpoint utf8_decode (s : string) (need : nat) (acc : N) : str :=
  match s with
  | EmptyString => []
  | String a s' =>
      let b := N_of_ascii a in
      match need with
      | O =>
          if b <? 0x80 then b :: utf8_decode s' 0 0
          else if b <? 0xE0 then utf8_decode s' 1 (b - 0xC0)
          else if b <? 0xF0 then utf8_decode s' 2 (b - 0xE0)
          else utf8_decode s' 3 (b - 0xF0)
      | S O => (acc * 64 + (b - 0x80)) :: utf8_decode s' 0 0
      | S n => utf8_decode s' n (acc * 64 + (b - 0x80))
      end
  end.

Definition u (s : string) : str := utf8_decode s 0 0.

Definition str_eqb (a b : str) : bool :=
  if list_eq_dec N.eq_dec a b then true else false.

(** Truthiness of a string: [if s:] / [if not s:]. *)
Definition truthy (s : str) : bool :=
  match s with [] => false | _ :: _ => true end.

(** [s.startswith(p)]. *)
Fixpoint startswith (p s : str) : bool :=
  match p, s with
  | [], _ => true
  | _ :: _, [] => false
  | a :: p', b :: s' => (a =? b) && startswith p' s'
  end.

(** [needle in hay] on strings: substring containment. *)
Fixpoint contains (needle hay : str) : bool :=
  startswith needle hay ||
  match hay with
  | [] => false
  | _ :: hay' => contains needle hay'
  end.

(** [s.replace(old, new)] for a one-character [old]. *)
Definition replace (old : char) (new : str) (s : str) : str :=
  flat_map (fun c => if c =? old then new else [c]) s.

(** [s.split(sep)] for a one-character separator: never an empty list. *)
Fixpoint split (sep : char) (s : str) : list str :=
  match s with
  | [] => [[]]
  | c :: s' =>
      if c =? sep then [] :: split sep s'
      else match split sep s' with
           | [] => [[c]]
           | w :: ws => (c :: w) :: ws
           end
  end.

(** [sep.join(parts)]. *)
Fixpoint join (sep : str) (parts : list str) : str :=
  match parts with
  | [] => []
  | [p] => p
  | p :: ps => p ++ sep ++ join sep ps
  end.

(** [Py_UNICODE_ISSPACE]: the characters [str.strip()] removes and the
    class [\s] of [re] matches in a [str] pattern. *)
Definition isspace (c : char) : bool :=
  ((0x09 <=? c) && (c <=? 0x0D)) || ((0x1C <=? c) && (c <=? 0x20)) ||
  (c =? 0x85) || (c =? 0xA0) || (c =? 0x1680) ||
  ((0x2000 <=? c) && (c <=? 0x200A)) || (c =? 0x2028) || (c =? 0x2029) ||
  (c =? 0x202F) || (c =? 0x205F) || (c =? 0x3000).

Fixpoint lstrip (s : str) : str :=
  match s with
  | [] => []
  | c :: s' => if isspace c then lstrip s' else s
  end.

Definition rstrip (s : str) : str := rev (lstrip (rev s)).

(** [s.strip()]. *)
Definition strip (s : str) : str := rstrip (lstrip s).

(** [re.sub(r"\s+", " ", s)]: every maximal run of whitespace becomes one
    space; [in_run] tells that the scan is inside a run already replaced. *)
Fixpoint sub_spaces_from (in_run : bool) (s : str) : str :=
  match s with
  | [] => []
  | c :: s' =>
      if isspace c then
        if in_run then sub_spaces_from true s'
        else 0x20 :: sub_spaces_from true s'
      else c :: sub_spaces_from false s'
  end.

Definition sub_spaces (s : str) : str := sub_spaces_from false s.

(** ** Exceptions *)

Inductive exn : Type :=
| ValueError
| OverflowError
| TypeError
| KeyError
| ReError.

(** The outcome of a Python expression: a value, or a raised exception. *)
Inductive result (A : Type) : Type :=
| Ok (a : A)
| Raise (e : exn).
Arguments Ok {A} a.
Arguments Raise {A} e.

Definition bind {A B : Type} (m : result A) (k : A -> result B) : result B :=
  match m with
  | Ok a => k a
  | Raise e => Raise e
  end.

(** [try: body  except Exception: handler]. *)
Definition try_except {A : Type} (body : result A) (handler : result A)
  : result A :=
  match body with
  | Ok a => Ok a
  | Raise _ => handler
  end.

Notation "x <- m ;; k" := (bind m (fun x => k))
  (at level 61, m at next level, right associativity).

(** ** The Python library the program calls *)

(** [unicodedata.normalize("NFKC", s)] and [s.lower()]. *)
Class Unicode : Type := {
  nfkc : str -> str;
  lower : str -> str
}.

(** [re.search(pattern, target, re.IGNORECASE)]: [Ok true] for a match
    object, [Ok false] for [None], [Raise] when the call raises (a pattern
    that does not compile raises [re.error]). *)
Class Regex : Type := {
  re_search : str -> str -> result bool
}.

(** A Python [float]. *)
Definition float := spec_float.

(** [float(s)] on a string and [repr(x)] of a float. *)
Class FloatText : Type := {
  py_float : str -> result float;
  float_repr : float -> str
}.

(** A point in time, in nanoseconds since the epoch. *)
Definition datetime := Z.

(** [datetime.strptime(s, fmt)] and [pd.to_datetime(s, errors="coerce")]
    on a string; the latter answers [None] for NaT. *)
Class DateText : Type := {
  strptime : str -> str -> result datetime;
  to_datetime : str -> result (option datetime)
}.

(** The sort behind [DataFrame.sort_values(by)]: it reads the key column
    only and answers the positions of the rows in their new order. *)
Class ArgSort : Type := {
  argsort : list datetime -> list nat
}.

(** ** Cells of a table *)

(** The objects a pandas cell holds. *)
Inductive pyobj : Type :=
| PNone
| PStr (s : str)
| PInt (z : Z)
| PFloat (f : float).

(** [pd.isna(x)] on a scalar. *)
Definition isna (x : pyobj) : bool :=
  match x with
  | PNone => true
  | PFloat S754_nan => true
  | _ => false
  end.

Fixpoint uint_digits (d : Decimal.uint) : str :=
  match d with
  | Decimal.Nil => []
  | Decimal.D0 d => 0x30 :: uint_digits d
  | Decimal.D1 d => 0x31 :: uint_digits d
  | Decimal.D2 d => 0x32 :: uint_digits d
  | Decimal.D3 d => 0x33 :: uint_digits d
  | Decimal.D4 d => 0x34 :: uint_digits d
  | Decimal.D5 d => 0x35 :: uint_digits d
  | Decimal.D6 d => 0x36 :: uint_digits d
  | Decimal.D7 d => 0x37 :: uint_digits d
  | Decimal.D8 d => 0x38 :: uint_digits d
  | Decimal.D9 d => 0x39 :: uint_digits d
  end.

(** [str(z)] of an [int]. *)
Definition int_str (z : Z) : str :=
  match z with
  | Z0 => [0x30]
  | Zpos p => uint_digits (Pos.to_uint p)
  | Zneg p => 0x2D :: uint_digits (Pos.to_uint p)
  end.

(** [str(x)]. *)
Definition py_str `{FloatText} (x : pyobj) : str :=
  match x with
  | PNone => u "None"
  | PStr s => s
  | PInt z => int_str z
  | PFloat f => float_repr f
  end.

(** ** Helpers of merge_bills.py *)

Definition NBSP : char := 0xA0.
Definition ZWSP : char := 0x200B.

(** [_normalize_text(s)]. *)
Definition _normalize_text `{Unicode} (s : option str) : str :=
  match s with
  | None => []
  | Some s =>
      let s := nfkc s in
      let s := replace ZWSP [] (replace NBSP [0x20] s) in
      let s := strip (sub_spaces s) in
      lower s
  end.

(** [re.sub(r"[￥¥]", "", s)]. *)
Definition drop_yen (s : str) : str :=
  filter (fun c => negb ((c =? 0xFFE5) || (c =? 0xA5))) s.

(** [_clean_amount(x)]: [None] stands for Python's [None]. *)
Definition _clean_amount `{FloatText} (x : pyobj) : option float :=
  if isna x then None
  else
    let s := replace 0x2C [] (strip (py_str x)) in
    let s := drop_yen s in
    let s := replace 0x29 [] (replace 0x28 [0x2D] (replace 0x3D [] s)) in
    match py_float s with
    | Ok f => Some f
    | Raise _ => None
    end.

Definition fmts : list str :=
  [ u "%Y-%m-%d %H:%M:%S"; u "%Y-%m-%d %H:%M"; u "%Y-%m-%d";
    u "%Y/%m/%d %H:%M:%S"; u "%Y/%m/%d %H:%M"; u "%Y/%m/%d";
    u "%Y.%m.%d %H:%M:%S"; u "%Y.%m.%d %H:%M"; u "%Y.%m.%d" ].

(** The loop over [fmts]: the first format that parses wins. *)
Fixpoint first_format `{DateText} (s : str) (fs : list str)
  : option datetime :=
  match fs with
  | [] => None
  | f :: fs' =>
      match strptime s f with
      | Ok d => Some d
      | Raise _ => first_format s fs'
      end
  end.

(** [_to_date(s)]: [None] stands for both [None] and NaT, which the merger
    drops alike. *)
Definition _to_date `{FloatText} `{DateText} (x : pyobj) : option datetime :=
  if isna x then None
  else
    let s := strip (py_str x) in
    match first_format s fmts with
    | Some d => Some d
    | None =>
        match to_datetime s with
        | Ok d => d
        | Raise _ => None
        end
    end.

(** ** Tables *)

(** A [DataFrame] as read from a file: its column labels and its rows, one
    cell per column. *)
Record DataFrame : Type := {
  df_columns : list str;
  df_rows : list (list pyobj)
}.

(** A row as [iterrows] yields it: the cells under their labels. *)
Definition series := list (str * pyobj).

Definition iterrows (df : DataFrame) : list series :=
  map (combine (df_columns df)) (df_rows df).

(** [r.get(key, default)]; the adapters also call it with the key [None]
    of a column they did not find.  The labels of a table are taken to be
    distinct, so that a label names one cell. *)
Definition series_get (r : series) (key : option str) (default : pyobj)
  : pyobj :=
  match key with
  | None => default
  | Some k =>
      match find (fun kv => str_eqb (fst kv) k) r with
      | Some kv => snd kv
      | None => default
      end
  end.

(** ** Rule repository *)

Module Rule.
Record t : Type := {
  priority : Z;
  merchant : str;
  keyword : str;
  category : str;
  subcategory : str;
  regex : bool
}.
End Rule.

(** [float(x)] on a cell. *)
Definition float_of `{FloatText} (x : pyobj) : result float :=
  match x with
  | PNone => Raise TypeError
  | PStr s => py_float s
  | PInt z =>
      match binary_normalize 53 1024 z 0 false with
      | S754_infinity _ => Raise OverflowError
      | f => Ok f
      end
  | PFloat f => Ok f
  end.

(** [int(f)] on a float: truncation towards zero. *)
Definition int_of_float (f : float) : result Z :=
  match f with
  | S754_nan => Raise ValueError
  | S754_infinity _ => Raise OverflowError
  | S754_zero _ => Ok 0%Z
  | S754_finite s m e =>
      let a := Z.shiftl (Zpos m) e in
      Ok (if s then Z.opp a else a)
  end.

(** The local [to_int(x, default=0)] of [_load_category_rules]. *)
Definition to_int `{FloatText} (x : pyobj) : Z :=
  match f <- float_of x ;; int_of_float f with
  | Ok z => z
  | Raise _ => 0%Z
  end.

(** The new label of a column:
    [str(c).replace(BOM, "").strip().lower()], BOM being U+FEFF. *)
Definition norm_column `{Unicode} (c : str) : str :=
  lower (strip (replace 0xFEFF [] c)).

Definition rule_columns : list str :=
  [ u "priority"; u "merchant"; u "keyword"; u "category"; u "subcategory";
    u "regex" ].

(** The rows of the rule table after the relabelling, each completed with
    the empty string under every rule column the table lacks.  The new
    labels are taken to be distinct, so that [row.get] names one cell:
    when two labels of the file are relabelled to one name, [row.get]
    answers a Series, and the loader reads every priority as 0 or raises
    on the first row it keeps; the statements that depend on it carry the
    hypothesis [distinct_labels]. *)
Definition rule_rows `{Unicode} (df : DataFrame) : list series :=
  let cols := map norm_column (df_columns df) in
  let missing :=
    filter (fun c => negb (existsb (str_eqb c) cols)) rule_columns in
  map (fun cells => combine cols cells ++ map (fun c => (c, PStr [])) missing)
      (df_rows df).

(** ["" if pd.isna(x) else str(x).strip()]. *)
Definition text_cell `{FloatText} (x : pyobj) : str :=
  if isna x then [] else strip (py_str x).

(** One pass of the loop of [_load_category_rules]: the rule of a row, or
    nothing when its category is empty. *)
Definition rule_of_row `{FloatText} (row : series) : option Rule.t :=
  let pri := to_int (series_get row (Some (u "priority")) (PInt 0)) in
  let cat := text_cell (series_get row (Some (u "category")) (PStr [])) in
  if negb (truthy cat) then None
  else
    let rx := strip (py_str (series_get row (Some (u "regex"))
                                        (PStr (u "0")))) in
    Some {|
      Rule.priority := pri;
      Rule.merchant :=
        text_cell (series_get row (Some (u "merchant")) (PStr []));
      Rule.keyword :=
        text_cell (series_get row (Some (u "keyword")) (PStr []));
      Rule.category := cat;
      Rule.subcategory :=
        text_cell (series_get row (Some (u "subcategory")) (PStr []));
      Rule.regex := existsb (str_eqb rx) [u "1"; u "true"; u "True"]
    |}.

(** The rules appended by the loop, in file order. *)
Fixpoint rules_of_rows `{FloatText} (rows : list series) : list Rule.t :=
  match rows with
  | [] => []
  | row :: rows' =>
      match rule_of_row row with
      | Some r => r :: rules_of_rows rows'
      | None => rules_of_rows rows'
      end
  end.

(** [rules.sort(key=lambda r: r["priority"], reverse=True)]: Python's
    [list.sort] is stable, also under [reverse=True].  [insert_rule r l]
    puts [r], which comes before every rule of [l] in the file, in front
    of the first rule whose priority is not greater. *)
Fixpoint insert_rule (r : Rule.t) (l : list Rule.t) : list Rule.t :=
  match l with
  | [] => [r]
  | x :: l' =>
      if (Rule.priority r <? Rule.priority x)%Z then x :: insert_rule r l'
      else r :: l
  end.

Fixpoint sort_rules (l : list Rule.t) : list Rule.t :=
  match l with
  | [] => []
  | r :: l' => insert_rule r (sort_rules l')
  end.

(** [_load_category_rules()]; [None] is a rule file that is absent or
    that no encoding reads. *)
Definition _load_category_rules `{Unicode} `{FloatText}
  (file : option DataFrame) : list Rule.t :=
  match file with
  | None => []
  | Some df => sort_rules (rules_of_rows (rule_rows df))
  end.

(** ** Classifier *)

(** ["" if x is None else str(x)]. *)
Definition raw_text `{FloatText} (x : pyobj) : str :=
  match x with
  | PNone => []
  | _ => py_str x
  end.

(** [any(v in target for v in [v for v in patt.split("|") if v])]. *)
Definition any_variant (patt target : str) : bool :=
  existsb (fun v => contains v target) (filter truthy (split 0x7C patt)).

(** One condition of a rule, entered with the flag [ok] and leaving its
    new value: a regex search inside [try]/[except], or the aliases. *)
Definition condition `{Regex} (is_regex : bool) (patt target : str)
  (ok : bool) : result bool :=
  if is_regex then
    try_except
      (found <- re_search patt target ;; Ok (if found then ok else false))
      (Ok false)
  else Ok (if any_variant patt target then ok else false).

(** The body of the loop over the rules, up to the test of [ok]. *)
Definition rule_ok `{Unicode} `{Regex} (mtext itext_join fulltext : str)
  (r : Rule.t) : result bool :=
  let ok := true in
  ok <- (if truthy (Rule.merchant r) then
           let patt := _normalize_text (Some (Rule.merchant r)) in
           let target :=
             if negb (truthy (Rule.keyword r)) then fulltext else mtext in
           condition (Rule.regex r) patt target ok
         else Ok ok) ;;
  ok <- (if ok && truthy (Rule.keyword r) then
           let pattk := _normalize_text (Some (Rule.keyword r)) in
           condition (Rule.regex r) pattk itext_join ok
         else Ok ok) ;;
  Ok ok.

Fixpoint classify_loop `{Unicode} `{Regex} (mtext itext_join fulltext : str)
  (rules : list Rule.t) : result (str * str) :=
  match rules with
  | [] => Ok ([], [])
  | r :: rules' =>
      ok <- rule_ok mtext itext_join fulltext r ;;
      if ok then Ok (Rule.category r, Rule.subcategory r)
      else classify_loop mtext itext_join fulltext rules'
  end.

(** The three texts the loop matches against. *)
Record texts : Type := {
  mtext : str;
  itext_join : str;
  fulltext : str
}.

Definition texts_of `{Unicode} `{FloatText} (note merchant item : pyobj)
  : texts :=
  let m_raw := raw_text merchant in
  let i_raw := raw_text item in
  let n_raw := raw_text note in
  let mtext := _normalize_text (Some m_raw) in
  let itext := _normalize_text (Some i_raw) in
  let ntext := _normalize_text (Some n_raw) in
  {| mtext := mtext;
     itext_join := strip (join [0x20] [itext; ntext]);
     fulltext := strip (join [0x20] [mtext; itext; ntext]) |}.

(** [_classify(note, merchant, item, rules)]. *)
Definition _classify `{Unicode} `{Regex} `{FloatText}
  (note merchant item : pyobj) (rules : list Rule.t) : result (str * str) :=
  let t := texts_of note merchant item in
  classify_loop (mtext t) (itext_join t) (fulltext t) rules.

(** ** Source adapters *)

Definition Expense : str := u "支出".
Definition Income : str := u "收入".

Module Txn.
Record t : Type := {
  date : option datetime;
  type : str;
  amount : float;
  merchant : pyobj;
  item : pyobj;
  method : pyobj;
  status : pyobj;
  platform : str;
  note : pyobj
}.
End Txn.

(** [cols = {c.strip(): c for c in df_raw.columns}] and [cols.get(k)]: of
    two columns with one stripped label the later one stays in the dict. *)
Definition cols_get (columns : list str) (k : str) : option str :=
  find (fun c => str_eqb (strip c) k) (rev columns).

(** [next((cols.get(k) for k in aliases if k in cols), None)]. *)
Fixpoint pick (columns : list str) (aliases : list str) : option str :=
  match aliases with
  | [] => None
  | k :: aliases' =>
      match cols_get columns k with
      | Some c => Some c
      | None => pick columns aliases'
      end
  end.

(** [x in [a, b, ...]] on strings. *)
Definition str_in (x : str) (l : list str) : bool := existsb (str_eqb x) l.

(** The direction of an Alipay row from its [io] text. *)
Definition alipay_type (io : str) : str :=
  if str_in io [u "支出"; u "转出"] then Expense
  else if str_in io [u "收入"; u "转入"] then Income
  else Expense.

(** The body of the row loop of [parse_alipay]. *)
Definition alipay_row `{FloatText} `{DateText}
  (c_time c_io c_amount c_merchant c_item c_status c_method c_note
     : option str) (r : series) : option Txn.t :=
  let dt := _to_date (series_get r c_time PNone) in
  match _clean_amount (series_get r c_amount PNone) with
  | None => None
  | Some amt =>
      let io := strip (py_str (series_get r c_io (PStr []))) in
      Some {|
        Txn.date := dt;
        Txn.type := alipay_type io;
        Txn.amount := SFabs amt;
        Txn.merchant := series_get r c_merchant (PStr []);
        Txn.item := series_get r c_item (PStr []);
        Txn.method := series_get r c_method (PStr []);
        Txn.status := series_get r c_status (PStr []);
        Txn.platform := u "Alipay";
        Txn.note := series_get r c_note (PStr [])
      |}
  end.

(** The rows a loop body keeps, in order ([continue] drops a row). *)
Fixpoint collect {A B : Type} (f : A -> option B) (l : list A) : list B :=
  match l with
  | [] => []
  | a :: l' =>
      match f a with
      | Some b => b :: collect f l'
      | None => collect f l'
      end
  end.

(** [parse_alipay(df_raw)]; [None] is the Python [None] of a table that
    is not recognised. *)
Definition parse_alipay `{FloatText} `{DateText} (df_raw : DataFrame)
  : option (list Txn.t) :=
  let cols := df_columns df_raw in
  let c_time := pick cols [u "交易时间"; u "时间"; u "创建时间"; u "支付时间"] in
  let c_io := pick cols [u "收/支"; u "收支"; u "收支类型"] in
  let c_amount :=
    pick cols [u "金额（元）"; u "金额(元)"; u "金额"; u "交易金额"] in
  let c_merchant := pick cols [u "交易对方"; u "对方"; u "商家"; u "商户名称"] in
  let c_item :=
    pick cols [u "商品说明"; u "商品"; u "商品名称"; u "标题"; u "事由"] in
  let c_status := pick cols [u "交易状态"; u "状态"] in
  let c_method := pick cols [u "支付方式"; u "收/付款方式"; u "资金渠道"] in
  let c_note := pick cols [u "备注"; u "用户备注"; u "附言"] in
  match c_time, c_amount with
  | Some _, Some _ =>
      Some (collect
              (alipay_row c_time c_io c_amount c_merchant c_item c_status
                 c_method c_note)
              (iterrows df_raw))
  | _, _ => None
  end.

(** The direction of a WeChat row from its [io] and [typ_guess] texts. *)
Definition wechat_type (io typ_guess : str) : str :=
  if str_eqb io (u "支出") then Expense
  else if str_eqb io (u "收入") then Income
  else if existsb (fun k => contains k typ_guess)
            [u "退款"; u "转入"; u "收入"]
       then Income
       else Expense.

(** The body of the row loop of [parse_wechat]. *)
Definition wechat_row `{FloatText} `{DateText}
  (c_time c_type c_amount c_io c_merchant c_item c_status c_method c_note
     : option str) (r : series) : option Txn.t :=
  let dt := _to_date (series_get r c_time PNone) in
  match _clean_amount (series_get r c_amount PNone) with
  | None => None
  | Some amt =>
      let io := strip (py_str (series_get r c_io (PStr []))) in
      let typ_guess := strip (py_str (series_get r c_type (PStr []))) in
      Some {|
        Txn.date := dt;
        Txn.type := wechat_type io typ_guess;
        Txn.amount := SFabs amt;
        Txn.merchant := series_get r c_merchant (PStr []);
        Txn.item := series_get r c_item (PStr []);
        Txn.method := series_get r c_method (PStr []);
        Txn.status := series_get r c_status (PStr []);
        Txn.platform := u "WeChat";
        Txn.note := series_get r c_note (PStr [])
      |}
  end.

(** [parse_wechat(df_raw)]. *)
Definition parse_wechat `{FloatText} `{DateText} (df_raw : DataFrame)
  : option (list Txn.t) :=
  let cols := df_columns df_raw in
  let c_time := pick cols [u "交易时间"; u "时间"; u "支付时间"] in
  let c_type := pick cols [u "交易类型"; u "类型"] in
  let c_amount :=
    pick cols [u "金额(元)"; u "金额（元）"; u "金额"; u "交易金额(元)"] in
  let c_io := pick cols [u "收/支"; u "收支"] in
  let c_merchant := pick cols [u "交易对方"; u "商户名称"; u "收/付款方"] in
  let c_item := pick cols [u "商品"; u "商品说明"; u "商品名称"] in
  let c_status := pick cols [u "当前状态"; u "交易状态"; u "状态"] in
  let c_method := pick cols [u "支付方式"; u "收/付款方式"; u "资金渠道"] in
  let c_note := pick cols [u "备注"; u "用户备注"; u "附言"] in
  match c_time, c_amount with
  | Some _, Some _ =>
      Some (collect
              (wechat_row c_time c_type c_amount c_io c_merchant c_item
                 c_status c_method c_note)
              (iterrows df_raw))
  | _, _ => None
  end.

(** ** Merger *)

(** A row of the ledger: the adapter's row and the two columns [main]
    adds. *)
Record LedgerRow : Type := {
  txn : Txn.t;
  category : str;
  subcategory : str
}.

(** [df0.dropna(how="all")]. *)
Definition dropna_all (df : DataFrame) : DataFrame :=
  {| df_columns := df_columns df;
     df_rows := filter (fun cells => negb (forallb isna cells)) (df_rows df) |}.

(** The adapters in their order: [parse_alipay], then [parse_wechat]. *)
Definition adapt `{FloatText} `{DateText} (df0 : DataFrame)
  : option (list Txn.t) :=
  match parse_alipay df0 with
  | Some df => Some df
  | None => parse_wechat df0
  end.

(** The loop over the files: [dfs].  A file is [None] when [_try_read]
    raises; it is skipped like a table no adapter recognises. *)
Definition parsed_files `{FloatText} `{DateText}
  (files : list (option DataFrame)) : list (list Txn.t) :=
  collect (fun file =>
             match file with
             | None => None
             | Some df0 => adapt (dropna_all df0)
             end) files.

(** [pd.to_datetime(merged["date"], errors="coerce")]: a date outside the
    range of [datetime64[ns]] becomes NaT, as does a missing one. *)
Definition to_datetime64 (t : Txn.t) : Txn.t :=
  {| Txn.date :=
       match Txn.date t with
       | Some d =>
           if ((- 2 ^ 63 <? d) && (d <? 2 ^ 63))%Z then Some d else None
       | None => None
       end;
     Txn.type := Txn.type t;
     Txn.amount := Txn.amount t;
     Txn.merchant := Txn.merchant t;
     Txn.item := Txn.item t;
     Txn.method := Txn.method t;
     Txn.status := Txn.status t;
     Txn.platform := Txn.platform t;
     Txn.note := Txn.note t |}.

(** [merged.dropna(subset=["date", "amount"])]. *)
Definition dropna (rows : list Txn.t) : list Txn.t :=
  filter (fun t =>
            match Txn.date t with
            | None => false
            | Some _ => negb (isna (PFloat (Txn.amount t)))
            end) rows.

Definition date_key (t : Txn.t) : datetime :=
  match Txn.date t with
  | Some d => d
  | None => 0%Z
  end.

(** [rows.take(indexer)]. *)
Definition take {A : Type} (rows : list A) (indexer : list nat) : list A :=
  flat_map (fun i => match nth_error rows i with
                     | Some r => [r]
                     | None => []
                     end) indexer.

(** [merged.sort_values("date")]: the default [kind] is "quicksort". *)
Definition sort_values `{ArgSort} (rows : list Txn.t) : list Txn.t :=
  take rows (argsort (map date_key rows)).

(** Lines 338 to 340 of [main]: concatenation, validation, sort.  The
    cells of a row are kept as the adapter read them.  pandas gives each
    column of a frame one dtype, so that in a column of numbers the cells
    are re-typed (an int becomes a float when another cell of the column
    is missing); the date, the type, the amount and the platform of a row
    are not touched.  The statements about the rows of the ledger hold up
    to that re-typing ([same_row]). *)
Definition merge `{FloatText} `{DateText} `{ArgSort}
  (files : list (option DataFrame)) : list Txn.t :=
  sort_values (dropna (map to_datetime64 (concat (parsed_files files)))).

(** The loop that fills [cats] and [subs]. *)
Fixpoint classify_rows `{Unicode} `{Regex} `{FloatText}
  (rules : list Rule.t) (rows : list Txn.t) : result (list LedgerRow) :=
  match rows with
  | [] => Ok []
  | t :: rows' =>
      c <- _classify (Txn.note t) (Txn.merchant t) (Txn.item t) rules ;;
      rest <- classify_rows rules rows' ;;
      Ok ({| txn := t; category := fst c; subcategory := snd c |} :: rest)
  end.

(** [main()], from the files of the input directory and the rule file to
    the rows written to merged.csv; [Ok None] is a run that returns before
    it writes (no file, or no file recognised).  When no adapter emitted a
    row, every table of [dfs] is [pd.DataFrame([])], which has no column,
    and [merged["date"]] raises. *)
Definition main `{Unicode} `{Regex} `{FloatText} `{DateText} `{ArgSort}
  (files : list (option DataFrame)) (rule_file : option DataFrame)
  : result (option (list LedgerRow)) :=
  match files with
  | [] => Ok None
  | _ :: _ =>
      let dfs := parsed_files files in
      match dfs with
      | [] => Ok None
      | _ :: _ =>
          match concat dfs with
          | [] => Raise KeyError
          | _ :: _ =>
              let merged := merge files in
              let rules := _load_category_rules rule_file in
              match rules with
              | [] =>
                  Ok (Some (map (fun t => {| txn := t; category := [];
                                             subcategory := [] |}) merged))
              | _ :: _ =>
                  rows <- classify_rows rules merged ;;
                  Ok (Some rows)
              end
          end
      end
  end.

(** ** Reading a file: [_try_read] *)

(** [pd.read_excel(path, skiprows=k)] and
    [pd.read_csv(path, encoding=enc, skiprows=k)]; the encoding [None] is
    the call that names none, and [k = 0] the call that skips nothing. *)
Class Reader : Type := {
  read_excel : str -> nat -> result DataFrame;
  read_csv : str -> option str -> nat -> result DataFrame
}.

(** What [_try_read] raises: the [RuntimeError] it wraps a failed Excel
    read in, or the exception of its last [pd.read_csv]. *)
Inductive read_error : Type :=
| RuntimeError (cause : exn)
| Uncaught (e : exn).

(** [s.endswith(suffix)]. *)
Definition endswith (suffix s : str) : bool :=
  startswith (rev suffix) (rev s).

(** ["交易" in str(c) or "时间" in str(c)]: a label that looks like the
    header of a statement. *)
Definition headerish (c : str) : bool :=
  contains (u "交易") c || contains (u "时间") c.

(** [df.shape[1] > 0]. *)
Definition has_columns (df : DataFrame) : bool :=
  match df_columns df with [] => false | _ :: _ => true end.

Definition skiprows : list nat := [1; 2; 3; 4; 5; 10]%nat.

(** The loop over [skiprows]: the first table read that has a header-like
    label; a read that raises is passed over. *)
Fixpoint first_with_header (read : nat -> result DataFrame) (ks : list nat)
  : option DataFrame :=
  match ks with
  | [] => None
  | k :: ks' =>
      match read k with
      | Ok df2 =>
          if has_columns df2 && existsb headerish (df_columns df2)
          then Some df2
          else first_with_header read ks'
      | Raise _ => first_with_header read ks'
      end
  end.

Definition encodings : list str :=
  [u "utf-8-sig"; u "utf-8"; u "gbk"; u "gb18030"; u "cp936"; u "latin1"].

(** The loop over the encodings of the CSV branch, and the last
    [pd.read_csv(path)] behind it. *)
Fixpoint read_csv_any `{Reader} (path : str) (encs : list str)
  : DataFrame + read_error :=
  match encs with
  | [] =>
      match read_csv path None 0 with
      | Ok df => inl df
      | Raise e => inr (Uncaught e)
      end
  | enc :: encs' =>
      match read_csv path (Some enc) 0 with
      | Ok df =>
          if has_columns df && negb (existsb headerish (df_columns df)) then
            match first_with_header (read_csv path (Some enc)) skiprows with
            | Some df2 => inl df2
            | None => inl df
            end
          else inl df
      | Raise _ => read_csv_any path encs'
      end
  end.

(** [_try_read(path)]. *)
Definition _try_read `{Unicode} `{Reader} (path : str)
  : DataFrame + read_error :=
  let lower := lower path in
  if endswith (u ".xls") lower || endswith (u ".xlsx") lower then
    match read_excel path 0 with
    | Raise e => inr (RuntimeError e)
    | Ok df =>
        if has_columns df
           && negb (existsb (fun k => contains k (hd [] (df_columns df)))
                            [u "交易"; u "时间"])
        then
          match first_with_header (read_excel path) skiprows with
          | Some df2 => inl df2
          | None => inl df
          end
        else inl df
    end
  else read_csv_any path encodings.

(** ** The text [_clean_amount] parses *)

(** The replacements of [_clean_amount] after [strip], character by
    character. *)
Definition cleaned (s : str) : str :=
  replace 0x29 [] (replace 0x28 [0x2D] (replace 0x3D []
    (drop_yen (replace 0x2C [] s)))).

(** ** generate_report.py *)

(** The float 3.0. *)
Definition three : float := S754_finite false 6755399441055744 (-51).

(** The text [ReportPDF.table] writes in a body cell of width [w] for the
    cell text [text]: [max_chars = max(1, int(w / 3.0))], and a longer text
    is cut to [text[:max_chars - 1] + "…"]. *)
Definition table_cell_text (w : float) (text : str) : result str :=
  n <- int_of_float (SFdiv 53 1024 w three) ;;
  let max_chars := Z.max 1 n in
  Ok (if (max_chars <? Z.of_nat (length text))%Z
      then firstn (Z.to_nat (max_chars - 1)) text ++ [0x2026]
      else text).

(** The two masks of the report on the [type] column:
    [str.contains("支出", na=False)] and [str.contains("收入", na=False)]. *)
Definition is_expense (type : str) : bool := contains (u "支出") type.
Definition is_income (type : str) : bool := contains (u "收入") type.

(** ** Vocabulary for the adapters' schemas *)

(** The table has a column whose stripped label is one of [aliases]. *)
Definition has_alias (columns aliases : list str) : Prop :=
  exists c, In c columns /\ In (strip c) aliases.

Definition alipay_time_aliases : list str :=
  [u "交易时间"; u "时间"; u "创建时间"; u "支付时间"].
Definition alipay_amount_aliases : list str :=
  [u "金额（元）"; u "金额(元)"; u "金额"; u "交易金额"].
Definition wechat_time_aliases : list str :=
  [u "交易时间"; u "时间"; u "支付时间"].
Definition wechat_amount_aliases : list str :=
  [u "金额(元)"; u "金额（元）"; u "金额"; u "交易金额(元)"].

(* ================================================================== *)
(** * Part II: one implementation of the library interfaces

    The theorems of Part IV quantify over the interfaces.  The instances
    here run the program on concrete tables: each one computes the library
    function on the inputs its comment names and is used on those only. *)
(* ================================================================== *)

(** ** Unicode: ASCII, the full-width forms, the CJK ideographs, and the
    letter e with an acute accent

    NFKC and lower-casing on texts made of ASCII, U+00A0, U+00A5, U+200B,
    U+3000, the CJK unified ideographs, the full-width forms U+FF01 to
    U+FF5E and U+FFE5, the letters U+00C9 and U+00E9, and the combining
    acute accent U+0301 after e, E or U+200B.  These are the code points
    of the examples; the instance leaves every other one as it is. *)

(** Full compatibility decomposition of one code point. *)
Definition decompose_char (c : char) : str :=
  if (c =? 0xA0) || (c =? 0x3000) then [0x20]
  else if (0xFF01 <=? c) && (c <=? 0xFF5E) then [c - 0xFEE0]
  else if c =? 0xFFE5 then [0xA5]
  else if c =? 0xC9 then [0x45; 0x301]
  else if c =? 0xE9 then [0x65; 0x301]
  else [c].

(** Canonical composition: a combining acute accent joins the letter e
    that stands just before it. *)
Fixpoint compose (s : str) : str :=
  match s with
  | a :: ((b :: s') as rest) =>
      if (b =? 0x301) && (a =? 0x45) then 0xC9 :: compose s'
      else if (b =? 0x301) && (a =? 0x65) then 0xE9 :: compose s'
      else a :: compose rest
  | _ => s
  end.

Definition lower_char (c : char) : char :=
  if (0x41 <=? c) && (c <=? 0x5A) then c + 0x20
  else if (0xFF21 <=? c) && (c <=? 0xFF3A) then c + 0x20
  else if c =? 0xC9 then 0xE9
  else c.

#[export] Instance table_unicode : Unicode := {|
  nfkc := fun s => compose (flat_map decompose_char s);
  lower := map lower_char
|}.

(** ** Regular expressions: alternatives of literal text

    A pattern without any of the characters [. ^ $ * + ? { } [ ] \ ( )] is a
    list of literal alternatives separated by [|]; [re.search] finds it when
    one alternative occurs in the target, letter case apart.  A pattern with
    an unclosed group, such as the one-character pattern of an opening
    parenthesis, does not compile; the instance answers the same for every
    pattern that has one of the characters above. *)

Definition is_meta (c : char) : bool :=
  existsb (N.eqb c)
    [0x2E; 0x5E; 0x24; 0x2A; 0x2B; 0x3F; 0x7B; 0x7D; 0x5B; 0x5D; 0x5C;
     0x28; 0x29].

#[export] Instance literal_regex : Regex := {|
  re_search := fun patt target =>
    if existsb is_meta patt then Raise ReError
    else Ok (existsb (fun alt => contains (map lower_char alt)
                                          (map lower_char target))
                     (split 0x7C patt))
|}.

(** ** Floats: decimal literals, correctly rounded

    [float(s)] on the texts CPython reads as a number: white space around,
    a sign, [inf], [infinity] or [nan] in any letter case, or a decimal
    literal with an optional exponent and single underscores between
    digits.  ASCII and full-width digits are read; the digits of other
    scripts, which CPython reads too, are not. *)

Definition is_digit (c : char) : bool := (0x30 <=? c) && (c <=? 0x39).

(** [_PyUnicode_TransformDecimalAndSpaceToASCII]: outside ASCII, white
    space becomes a space, a full-width digit its ASCII digit, any other
    character a question mark. *)
Definition to_ascii (c : char) : char :=
  if c <? 0x7F then c
  else if isspace c then 0x20
  else if (0xFF10 <=? c) && (c <=? 0xFF19) then c - 0xFEE0
  else 0x3F.

(** [Py_ISSPACE]: the white space [float] skips at both ends. *)
Definition ascii_space (c : char) : bool :=
  ((0x09 <=? c) && (c <=? 0x0D)) || (c =? 0x20).

Fixpoint skip_spaces (s : str) : str :=
  match s with
  | [] => []
  | c :: s' => if ascii_space c then skip_spaces s' else s
  end.

Definition trim (s : str) : str := rev (skip_spaces (rev (skip_spaces s))).

(** Removes the underscores, each of which stands between two digits;
    [prev] is the character just read. *)
Fixpoint drop_underscores (prev : char) (s : str) : option str :=
  match s with
  | [] => if prev =? 0x5F then None else Some []
  | c :: s' =>
      if c =? 0x5F then
        if is_digit prev then drop_underscores c s' else None
      else if (prev =? 0x5F) && negb (is_digit c) then None
      else option_map (cons c) (drop_underscores c s')
  end.

(** Reads a run of digits onto the value [acc]; answers the value, the
    number of digits read and the rest. *)
Fixpoint read_digits (s : str) (acc : Z) (n : nat) : Z * nat * str :=
  match s with
  | c :: s' =>
      if is_digit c then read_digits s' (acc * 10 + Z.of_N (c - 0x30))%Z (S n)
      else (acc, n, s)
  | [] => (acc, n, s)
  end.

Definition read_sign (s : str) : bool * str :=
  match s with
  | c :: s' =>
      if c =? 0x2D then (true, s')
      else if c =? 0x2B then (false, s')
      else (false, s)
  | [] => (false, s)
  end.

(** The binary64 value nearest to [m * 10 ^ e10], ties to even. *)
Definition round_decimal (sign : bool) (m : Z) (e10 : Z) : float :=
  match m with
  | Zpos p =>
      if (0 <=? e10)%Z then
        binary_round 53 1024 sign (Pos.mul p (Z.to_pos (10 ^ e10))) 0
      else
        let '(q, e, l) :=
          SFdiv_core_binary 53 1024 m 0 (10 ^ (- e10))%Z 0 in
        binary_round_aux 53 1024 sign q e l
  | _ => S754_zero sign
  end.

(** The exponent part after the mantissa, and the end of the text. *)
Definition read_exponent (s : str) : option Z :=
  match s with
  | [] => Some 0%Z
  | c :: s' =>
      if (c =? 0x65) || (c =? 0x45) then
        let '(neg, s'') := read_sign s' in
        match read_digits s'' 0 0 with
        | (_, O, _) => None
        | (e, S _, []) => Some (if neg then Z.opp e else e)
        | (_, S _, _ :: _) => None
        end
      else None
  end.

Definition parse_float (s : str) : result float :=
  match drop_underscores 0 (trim (map to_ascii s)) with
  | None => Raise ValueError
  | Some s =>
      let '(neg, s) := read_sign s in
      let word := map lower_char s in
      if str_eqb word (u "inf") || str_eqb word (u "infinity")
      then Ok (S754_infinity neg)
      else if str_eqb word (u "nan") then Ok S754_nan
      else
        let '(ip, n1, s) := read_digits s 0 0 in
        let '(m, n2, s) :=
          match s with
          | c :: s' => if c =? 0x2E then read_digits s' ip 0 else (ip, O, s)
          | [] => (ip, O, s)
          end in
        match (n1 + n2)%nat, read_exponent s with
        | S _, Some e => Ok (round_decimal neg m (e - Z.of_nat n2))
        | _, _ => Raise ValueError
        end
  end.

Fixpoint lstrip_zeros (s : str) : str :=
  match s with
  | c :: s' => if c =? 0x30 then lstrip_zeros s' else s
  | [] => []
  end.

(** The digits of the integer [m * 5 ^ k] with a point before the last
    [k] of them: the decimal expansion of [m / 2 ^ k]. *)
Definition decimal_expansion (m : positive) (k : nat) : str :=
  let digits := uint_digits (N.to_uint (Npos m * 5 ^ N.of_nat k)) in
  let pad := repeat 0x30 (S k - length digits) ++ digits in
  let ip := firstn (length pad - k) pad in
  let fp := rev (lstrip_zeros (rev (skipn (length pad - k) pad))) in
  ip ++ [0x2E] ++ match fp with [] => [0x30] | _ :: _ => fp end.

(** A text for [repr(x)]: all the digits of the value, never an exponent.
    CPython stops at the shortest digit string that reads back as the same
    float and switches to exponent notation for large and small values; the
    two texts differ then (0.1, 1e+22), and both read back as [x].  What
    the statements need of [repr] is in [FloatTextLaws]. *)
Definition print_float (x : float) : str :=
  match x with
  | S754_nan => u "nan"
  | S754_infinity s => if s then u "-inf" else u "inf"
  | S754_zero s => if s then u "-0.0" else u "0.0"
  | S754_finite s m e =>
      (if s then [0x2D] else []) ++
      match e with
      | Zneg k => decimal_expansion m (Pos.to_nat k)
      | _ => uint_digits (N.to_uint (Npos m * 2 ^ Z.to_N e)) ++ u ".0"
      end
  end.

#[export] Instance decimal_float : FloatText := {|
  py_float := parse_float;
  float_repr := print_float
|}.

(** ** Dates: the directives of [fmts]

    [datetime.strptime] for formats made of [%Y %m %d %H %M %S], white
    space and literal characters, on ASCII digits; the alternatives of a
    field are tried in the order of CPython's pattern for it, and a later
    one only when the rest of the format fails after an earlier one.
    [pd.to_datetime], the free-form parser [_to_date] falls back on, is
    not tabulated: the instance answers NaT. *)

Inductive directive : Type :=
| DYear | DMonth | DDay | DHour | DMinute | DSecond
| DSpaces
| DLiteral (c : char).

(** The directives of a format; [after_percent] tells that the character
    just read is a percent sign. *)
Fixpoint tokens_from (after_percent : bool) (fmt : str) : list directive :=
  match fmt with
  | [] => if after_percent then [DLiteral 0x25] else []
  | c :: fmt' =>
      if after_percent then
        (if c =? 0x59 then DYear else if c =? 0x6D then DMonth
         else if c =? 0x64 then DDay else if c =? 0x48 then DHour
         else if c =? 0x4D then DMinute else if c =? 0x53 then DSecond
         else DLiteral c) :: tokens_from false fmt'
      else if c =? 0x25 then tokens_from true fmt'
      else if isspace c then
        match tokens_from false fmt' with
        | DSpaces :: ts => DSpaces :: ts
        | ts => DSpaces :: ts
        end
      else DLiteral c :: tokens_from false fmt'
  end.

Definition tokens (fmt : str) : list directive := tokens_from false fmt.

Record fields : Type := {
  f_year : Z; f_month : Z; f_day : Z; f_hour : Z; f_minute : Z; f_second : Z
}.

Definition set_field (d : directive) (v : Z) (f : fields) : fields :=
  match d with
  | DYear => {| f_year := v; f_month := f_month f; f_day := f_day f;
                f_hour := f_hour f; f_minute := f_minute f;
                f_second := f_second f |}
  | DMonth => {| f_year := f_year f; f_month := v; f_day := f_day f;
                 f_hour := f_hour f; f_minute := f_minute f;
                 f_second := f_second f |}
  | DDay => {| f_year := f_year f; f_month := f_month f; f_day := v;
               f_hour := f_hour f; f_minute := f_minute f;
               f_second := f_second f |}
  | DHour => {| f_year := f_year f; f_month := f_month f; f_day := f_day f;
                f_hour := v; f_minute := f_minute f;
                f_second := f_second f |}
  | DMinute => {| f_year := f_year f; f_month := f_month f;
                  f_day := f_day f; f_hour := f_hour f; f_minute := v;
                  f_second := f_second f |}
  | DSecond => {| f_year := f_year f; f_month := f_month f;
                  f_day := f_day f; f_hour := f_hour f;
                  f_minute := f_minute f; f_second := v |}
  | _ => f
  end.

Definition digit_value (c : char) : Z := Z.of_N (c - 0x30).

(** The texts a field may take at the head of [s], in the order CPython
    tries them: each with its value and what follows it. *)
Definition candidates (d : directive) (s : str) : list (Z * str) :=
  let two :=
    match s with
    | a :: b :: s' =>
        if is_digit a && is_digit b
        then [(digit_value a * 10 + digit_value b, s')%Z] else []
    | _ => []
    end in
  let one :=
    match s with
    | a :: s' => if is_digit a then [(digit_value a, s')] else []
    | [] => []
    end in
  let positive := filter (fun vs => (0 <? fst vs)%Z) in
  let upto n := filter (fun vs => (fst vs <=? n)%Z) in
  match d with
  | DYear =>
      match s with
      | a :: b :: c :: e :: s' =>
          if is_digit a && is_digit b && is_digit c && is_digit e
          then [(((digit_value a * 10 + digit_value b) * 10 + digit_value c)
                 * 10 + digit_value e, s')%Z]
          else []
      | _ => []
      end
  | DMonth => upto 12%Z (positive two) ++ positive one
  | DDay =>
      upto 31%Z (positive two) ++ positive one ++
      match s with
      | a :: s' => if a =? 0x20 then positive
                     match s' with
                     | b :: s'' =>
                         if is_digit b then [(digit_value b, s'')] else []
                     | [] => []
                     end
                   else []
      | [] => []
      end
  | DHour => upto 23%Z two ++ one
  | DMinute => upto 59%Z two ++ one
  | DSecond => upto 61%Z two ++ one
  | _ => []
  end.

(** The first alternative in [alts] after which [rest] succeeds. *)
Fixpoint first_success {A B : Type} (rest : A -> option B) (alts : list A)
  : option B :=
  match alts with
  | [] => None
  | a :: alts' =>
      match rest a with
      | Some b => Some b
      | None => first_success rest alts'
      end
  end.

(** Matches the format at the head of the text; answers the fields read
    and the text left over. *)
Fixpoint match_format (ts : list directive) (s : str) (f : fields)
  : option (fields * str) :=
  match ts with
  | [] => Some (f, s)
  | DSpaces :: ts' =>
      match s with
      | c :: _ => if isspace c then match_format ts' (lstrip s) f else None
      | [] => None
      end
  | DLiteral c :: ts' =>
      match s with
      | a :: s' =>
          if lower_char a =? lower_char c then match_format ts' s' f
          else None
      | [] => None
      end
  | d :: ts' =>
      first_success (fun vs => match_format ts' (snd vs) (set_field d (fst vs) f))
                    (candidates d s)
  end.

Definition is_leap (y : Z) : bool :=
  ((y mod 4 =? 0) && negb (y mod 100 =? 0) || (y mod 400 =? 0))%Z.

Definition days_in_month (y m : Z) : Z :=
  (if m =? 2 then (if is_leap y then 29 else 28)
   else if (m =? 4) || (m =? 6) || (m =? 9) || (m =? 11) then 30
   else 31)%Z.

(** Days from 1970-01-01 to the given day of the proleptic Gregorian
    calendar. *)
Definition days_from_civil (y m d : Z) : Z :=
  (let y := if m <=? 2 then y - 1 else y in
   let era := y / 400 in
   let yoe := y - era * 400 in
   let doy := (153 * (if 2 <? m then m - 3 else m + 9) + 2) / 5 + d - 1 in
   let doe := yoe * 365 + yoe / 4 - yoe / 100 + doy in
   era * 146097 + doe - 719468)%Z.

Definition parse_date (s fmt : str) : result datetime :=
  match match_format (tokens fmt) s
          {| f_year := 1900; f_month := 1; f_day := 1; f_hour := 0;
             f_minute := 0; f_second := 0 |} with
  | Some (f, []) =>
      if ((1 <=? f_year f) && (f_day f <=? days_in_month (f_year f) (f_month f))
          && (f_second f <=? 59))%Z
      then Ok ((((days_from_civil (f_year f) (f_month f) (f_day f) * 24
                  + f_hour f) * 60 + f_minute f) * 60 + f_second f)
               * 1000000000)%Z
      else Raise ValueError
  | _ => Raise ValueError
  end.

#[export] Instance digit_dates : DateText := {|
  strptime := parse_date;
  to_datetime := fun _ => Ok None
|}.

(** ** Sorting: two insertion sorts of the positions

    [insert_index skip ks i l] puts position [i], which is before every
    position of [l], behind the positions whose key [skip]s it. *)

Fixpoint insert_index (skip : Z -> Z -> bool) (ks : list datetime) (i : nat)
  (l : list nat) : list nat :=
  match l with
  | [] => [i]
  | j :: l' =>
      if skip (nth j ks 0%Z) (nth i ks 0%Z)
      then j :: insert_index skip ks i l'
      else i :: l
  end.

Definition insertion_argsort (skip : Z -> Z -> bool) (ks : list datetime)
  : list nat :=
  fold_right (insert_index skip ks) [] (seq 0 (length ks)).

(** Rows with one date stay in their order: a stable sort, which is what
    an insertion sort of the keys in place does. *)
#[export] Instance stable_argsort : ArgSort := {|
  argsort := insertion_argsort Z.ltb
|}.

(** ** numpy's argsort of kind "quicksort"

    [sort_values] hands the key column to numpy's [argsort]; for
    [kind="quicksort"] on dates that is the introsort of npysort:
    median-of-three quicksort on ranges of more than 17 positions,
    insertion sort on the others.  The model stops ([None]) where numpy
    would reach its depth limit and switch to heapsort. *)

(** [a[i] = x]. *)
Fixpoint store {A : Type} (i : nat) (x : A) (a : list A) : list A :=
  match a, i with
  | [], _ => []
  | _ :: a', O => x :: a'
  | y :: a', S i' => y :: store i' x a'
  end.

Section Introsort.
Variable v : list datetime.

(** [v[tosort[p]]]. *)
Definition key_at (tosort : list nat) (p : nat) : Z :=
  nth (nth p tosort O) v 0%Z.

(** [INTP_SWAP(tosort[i], tosort[j])]. *)
Definition swap_at (tosort : list nat) (i j : nat) : list nat :=
  store i (nth j tosort O) (store j (nth i tosort O) tosort).

Definition swap_if_less (tosort : list nat) (i j : nat) : list nat :=
  if (key_at tosort i <? key_at tosort j)%Z then swap_at tosort i j
  else tosort.

(** [do ++pi; while (v[*pi] < vp)]. *)
Fixpoint scan_up (fuel : nat) (vp : Z) (tosort : list nat) (pi : nat) : nat :=
  match fuel with
  | O => S pi
  | S fuel' =>
      if (key_at tosort (S pi) <? vp)%Z then scan_up fuel' vp tosort (S pi)
      else S pi
  end.

(** [do --pj; while (vp < v[*pj])]. *)
Fixpoint scan_down (fuel : nat) (vp : Z) (tosort : list nat) (pj : nat)
  : nat :=
  match fuel with
  | O => pred pj
  | S fuel' =>
      if (vp <? key_at tosort (pred pj))%Z
      then scan_down fuel' vp tosort (pred pj)
      else pred pj
  end.

(** The [for (;;)] loop of the partition. *)
Fixpoint cross (fuel : nat) (vp : Z) (tosort : list nat) (pi pj : nat)
  : list nat * nat :=
  match fuel with
  | O => (tosort, pi)
  | S fuel' =>
      let pi := scan_up fuel' vp tosort pi in
      let pj := scan_down fuel' vp tosort pj in
      if (pj <=? pi)%nat then (tosort, pi)
      else cross fuel' vp (swap_at tosort pi pj) pi pj
  end.

(** One partition of the range from [pl] to [pr]: the new index array and
    the position of the pivot. *)
Definition partition_range (tosort : list nat) (pl pr : nat)
  : list nat * nat :=
  let pm := (pl + Nat.div2 (pr - pl))%nat in
  let tosort := swap_if_less tosort pm pl in
  let tosort := swap_if_less tosort pr pm in
  let tosort := swap_if_less tosort pm pl in
  let vp := key_at tosort pm in
  let tosort := swap_at tosort pm (pr - 1) in
  let '(tosort, pi) := cross (S (pr - pl)) vp tosort pl (pr - 1) in
  (swap_at tosort pi (pr - 1), pi).

(** The inner [while] of the insertion sort: the index [vi] sinks from
    position [pj] past the greater keys down to [pl]. *)
Fixpoint sink (pl vi : nat) (tosort : list nat) (pj : nat) : list nat :=
  match pj with
  | O => store O vi tosort
  | S pk =>
      if (pl <? pj)%nat && (nth vi v 0 <? key_at tosort pk)%Z
      then sink pl vi (store pj (nth pk tosort O) tosort) pk
      else store pj vi tosort
  end.

(** The insertion sort of the positions [pi] to [pi + count - 1], those
    from [pl] to [pi - 1] being sorted. *)
Fixpoint insertion_sort (pl : nat) (tosort : list nat) (pi count : nat)
  : list nat :=
  match count with
  | O => tosort
  | S count' =>
      insertion_sort pl (sink pl (nth pi tosort O) tosort pi) (S pi) count'
  end.

(** The range from [pl] to [pr], with [depth] partitions left before the
    heapsort. *)
Fixpoint introsort (fuel : nat) (depth : Z) (tosort : list nat)
  (pl pr : nat) : option (list nat) :=
  match fuel with
  | O => None
  | S fuel' =>
      if (16 <? pr - pl)%nat then
        if (depth <? 0)%Z then None
        else
          let '(tosort, pi) := partition_range tosort pl pr in
          match introsort fuel' (depth - 1) tosort pl (pi - 1) with
          | Some tosort => introsort fuel' (depth - 1) tosort (S pi) pr
          | None => None
          end
      else Some (insertion_sort pl tosort (S pl) (pr - pl))
  end.

End Introsort.

(** [v.argsort(kind="quicksort")]. *)
Definition numpy_argsort (v : list datetime) : option (list nat) :=
  let num := length v in
  introsort v (S num) (2 * Z.log2 (Z.of_nat num)) (seq 0 num) 0 (num - 1).

(** [sort_values] as [main] calls it, with numpy's quicksort.  The model
    of the introsort has no heapsort: where numpy would switch to it the
    instance leaves the positions as they are; no table below comes near
    that depth. *)
Definition quicksort_argsort : ArgSort := {|
  argsort := fun ks =>
    match numpy_argsort ks with
    | Some indexer => indexer
    | None => seq 0 (length ks)
    end
|}.

(* ================================================================== *)
(** * Part II (continued): tables for the examples *)
(* ================================================================== *)

(** An Alipay export of one row with the given date, amount and payee. *)
Definition alipay_file (date amount payee : string) : DataFrame :=
  {| df_columns := [u "交易时间"; u "金额"; u "交易对方"];
     df_rows := [[PStr (u date); PStr (u amount); PStr (u payee)]] |}.

(** An Alipay export of eighteen purchases made at one time, the payees
    being the letters A to R in this order. *)
Definition alipay_same_time : DataFrame :=
  {| df_columns := [u "交易时间"; u "金额"; u "交易对方"];
     df_rows := map (fun i => [PStr (u "2024-01-05 12:00"); PStr (u "8");
                               PStr [0x41 + N.of_nat i]])
                    (seq 0 18) |}.

(** An Alipay export of two rows with an indicator column. *)
Definition alipay_two_directions : DataFrame :=
  {| df_columns := [u "交易时间"; u "收/支"; u "金额"; u "交易对方"];
     df_rows := [[PStr (u "2024-01-05"); PStr (u "转入"); PStr (u "100");
                  PStr (u "甲")];
                 [PStr (u "2024-01-06"); PStr (u "支出"); PStr (u "8");
                  PStr (u "乙")]] |}.

(** A WeChat export of three rows: an income, an expense whose type text
    names a refund, and a row without indicator whose type text names a
    refund. *)
Definition wechat_three_directions : DataFrame :=
  {| df_columns := [u "交易时间"; u "收/支"; u "交易类型"; u "交易金额(元)"];
     df_rows := [[PStr (u "2024-01-05"); PStr (u "收入"); PStr (u "转账");
                  PStr (u "5.00")];
                 [PStr (u "2024-01-06"); PStr (u "支出");
                  PStr (u "微信红包-退款"); PStr (u "6.00")];
                 [PStr (u "2024-01-07"); PStr (u "/");
                  PStr (u "微信红包-退款"); PStr (u "7.00")]] |}.

(** An Alipay export with an indicator column. *)
Definition alipay_directions : DataFrame :=
  {| df_columns := [u "交易时间"; u "收/支"; u "金额"];
     df_rows := [[PStr (u "2024-01-05"); PStr (u "转入"); PFloat
                    (S754_finite false 5629499534213120 (-49))]] |}.

(** A WeChat export without an indicator column; its type text is the
    given one. *)
Definition wechat_file (typ : str) : DataFrame :=
  {| df_columns := [u "交易时间"; u "交易类型"; u "交易金额(元)"];
     df_rows := [[PStr (u "2024-01-05"); PStr typ; PStr (u "5.00")]] |}.

(** A rule table: a header in mixed case, a priority that is no number, a
    blank category. *)
Definition rule_table : DataFrame :=
  {| df_columns := [u "Priority"; u " Merchant"; u "category"];
     df_rows := [[PInt 5; PStr (u "kfc"); PStr (u "餐饮")];
                 [PStr (u "high"); PStr (u "滴滴"); PStr (u "交通")];
                 [PInt 10; PStr (u "空"); PStr (u "  ")];
                 [PFloat (S754_finite false 5629499534213120 (-49));
                  PStr (u "星巴克"); PStr (u "咖啡")];
                 [PInt 5; PStr (u "麦当劳"); PStr (u "快餐")]] |}.

(** ** A reader for the examples *)

(** The first table of an export that opens with lines of preamble. *)
Definition preamble_table : DataFrame :=
  {| df_columns := [u "支付宝（中国）网络技术有限公司"];
     df_rows := [[PStr (u "账号:[user@example.com]")]] |}.

(** A reader that knows two files, both GBK texts on which the UTF-8
    codecs fail: input/alipay.csv, whose header is on its fifth line, so
    that a read starting inside the preamble fails, and input/wechat.csv,
    whose header is on its first line.  Every other read fails too. *)
Definition export_reader : Reader := {|
  read_excel := fun _ _ => Raise ValueError;
  read_csv := fun path enc k =>
    match enc with
    | Some e =>
        if str_eqb e (u "gbk") then
          if str_eqb path (u "input/alipay.csv") then
            match k with
            | 0%nat => Ok preamble_table
            | 4%nat => Ok (alipay_file "2024-01-05" "12.50" "甲")
            | _ => Raise ValueError
            end
          else if str_eqb path (u "input/wechat.csv") then
            match k with
            | 0%nat => Ok (wechat_file (u "商户消费"))
            | _ => Raise ValueError
            end
          else Raise ValueError
        else Raise ValueError
    | None => Raise ValueError
    end
|}.

(* ================================================================== *)
(** * Part III: the words of the specification, and what the library
      calls promise *)
(* ================================================================== *)

(** ** Classifier (section 4.4) *)

(** Steps 2 and 3: a regex pattern is searched in the target; a literal
    pattern is split on [|] and one of its aliases, the empty ones apart,
    occurs in the target. *)
Definition pattern_found `{Regex} (is_regex : bool) (patt target : str)
  : bool :=
  if is_regex then
    match re_search patt target with
    | Ok found => found
    | Raise _ => false
    end
  else existsb (fun alias => truthy alias && contains alias target)
               (split 0x7C patt).

(** Step 2: the merchant pattern against [merchant] alone when the rule
    has a keyword pattern, against [fullText] otherwise. *)
Definition merchant_condition `{Unicode} `{Regex} (t : texts) (r : Rule.t)
  : bool :=
  pattern_found (Rule.regex r) (_normalize_text (Some (Rule.merchant r)))
    (if truthy (Rule.keyword r) then mtext t else fulltext t).

(** Step 3: the keyword pattern against [itemJoin]. *)
Definition keyword_condition `{Unicode} `{Regex} (t : texts) (r : Rule.t)
  : bool :=
  pattern_found (Rule.regex r) (_normalize_text (Some (Rule.keyword r)))
    (itext_join t).

(** Step 4: every condition the rule declares succeeds. *)
Definition rule_matches `{Unicode} `{Regex} (t : texts) (r : Rule.t)
  : bool :=
  (if truthy (Rule.merchant r) then merchant_condition t r else true) &&
  (if truthy (Rule.keyword r) then keyword_condition t r else true).

(** Step 5: the categories of the first rule that matches. *)
Definition first_match `{Unicode} `{Regex} (t : texts) (rules : list Rule.t)
  : str * str :=
  match find (rule_matches t) rules with
  | Some r => (Rule.category r, Rule.subcategory r)
  | None => ([], [])
  end.

(** A pattern [re.search] rejects whatever the target. *)
Definition malformed `{Regex} (patt : str) : Prop :=
  forall target, exists e, re_search patt target = Raise e.

(** The rule with its two patterns replaced by their normal forms. *)
Definition normalized_rule `{Unicode} (r : Rule.t) : Rule.t :=
  {| Rule.priority := Rule.priority r;
     Rule.merchant := _normalize_text (Some (Rule.merchant r));
     Rule.keyword := _normalize_text (Some (Rule.keyword r));
     Rule.category := Rule.category r;
     Rule.subcategory := Rule.subcategory r;
     Rule.regex := Rule.regex r |}.

(** A pattern the normalizer neither empties nor changes twice. *)
Definition settled `{Unicode} (patt : str) : Prop :=
  (patt = [] <-> _normalize_text (Some patt) = []) /\
  _normalize_text (Some (_normalize_text (Some patt)))
  = _normalize_text (Some patt).

(** ** Rule repository (section 4.3) *)

(** Priorities never increase along the list. *)
Definition by_priority (rules : list Rule.t) : Prop :=
  StronglySorted (fun a b => (Rule.priority b <= Rule.priority a)%Z) rules.

Definition has_priority (p : Z) (r : Rule.t) : bool :=
  (Rule.priority r =? p)%Z.

(** Rules of one priority stand in [output] in the order of [input]. *)
Definition ties_in_order (input output : list Rule.t) : Prop :=
  forall p, filter (has_priority p) output = filter (has_priority p) input.

(** ** Source adapters (section 4.2) *)

Definition inflow_keywords : list str := [u "退款"; u "转入"; u "收入"].

(** Direction inference as section 4.2 words it: the indicator when it is
    recognised, else the keywords in the normalized type text, else
    Expense. *)
Definition spec_direction `{Unicode} (io typ : str) : str :=
  if str_eqb io Expense then Expense
  else if str_eqb io Income then Income
  else if existsb (fun k => contains k (_normalize_text (Some typ)))
            inflow_keywords
       then Income
       else Expense.

(** The direction texts an adapter reads in a row:
    [str(r.get(c, "")).strip()] under the column it picked. *)
Definition cell_text `{FloatText} (c : option str) (r : series) : str :=
  strip (py_str (series_get r c (PStr []))).

Definition alipay_io `{FloatText} (df : DataFrame) : series -> str :=
  cell_text (pick (df_columns df) [u "收/支"; u "收支"; u "收支类型"]).

Definition wechat_io `{FloatText} (df : DataFrame) : series -> str :=
  cell_text (pick (df_columns df) [u "收/支"; u "收支"]).

Definition wechat_typ `{FloatText} (df : DataFrame) : series -> str :=
  cell_text (pick (df_columns df) [u "交易类型"; u "类型"]).

(** The two columns [main] adds to a row. *)
Definition labelled `{Unicode} `{Regex} `{FloatText} (rules : list Rule.t)
  (t : Txn.t) : LedgerRow :=
  let c := match rules with
           | [] => ([], [])
           | _ :: _ =>
               first_match
                 (texts_of (Txn.note t) (Txn.merchant t) (Txn.item t)) rules
           end in
  {| txn := t; category := fst c; subcategory := snd c |}.

(** A float that is not below zero. *)
Definition non_negative (x : float) : Prop :=
  SFleb (S754_zero false) x = true.

(** ** Merger (section 4.5) *)

(** For every pair of rows, the earlier date comes first. *)
Definition ascending (rows : list Txn.t) : Prop :=
  StronglySorted (fun a b => (date_key a <= date_key b)%Z) rows.

Definition on_date (d : datetime) (t : Txn.t) : bool :=
  (date_key t =? d)%Z.

(** Rows of one date stand in [output] in the order of [input]. *)
Definition same_date_in_order (input output : list Txn.t) : Prop :=
  forall d, filter (on_date d) output = filter (on_date d) input.

(** The rows [main] sorts: the adapters' rows, concatenated and
    validated. *)
Definition validated `{FloatText} `{DateText}
  (files : list (option DataFrame)) : list Txn.t :=
  dropna (map to_datetime64 (concat (parsed_files files))).

(** What pandas leaves alone in a row when it builds and concatenates the
    frames: the date, the type, the amount and the platform. *)
Definition entry (t : Txn.t) : option datetime * str * float * str :=
  (Txn.date t, Txn.type t, Txn.amount t, Txn.platform t).

(** What pandas may make of another cell when it gives the column one
    dtype: the cell itself, or, in a column of numbers, the float of an
    int and NaN for [None]. *)
Definition retyped (c c' : pyobj) : Prop :=
  c' = c \/
  match c with
  | PInt z => c' = PFloat (binary_normalize 53 1024 z 0 false)
  | PNone => c' = PFloat S754_nan
  | _ => False
  end.

(** [t'] is the row [t] as a frame may hold it. *)
Definition same_row (t t' : Txn.t) : Prop :=
  entry t' = entry t /\
  retyped (Txn.merchant t) (Txn.merchant t') /\
  retyped (Txn.item t) (Txn.item t') /\
  retyped (Txn.method t) (Txn.method t') /\
  retyped (Txn.status t) (Txn.status t') /\
  retyped (Txn.note t) (Txn.note t').

(** The labels of the rule table are distinct after the relabelling of
    [_load_category_rules]; no rule file is such a table. *)
Definition distinct_labels `{Unicode} (rule_file : option DataFrame) : Prop :=
  match rule_file with
  | None => True
  | Some df => NoDup (map norm_column (df_columns df))
  end.

(** The cleaned amount of a row, under the amount label each adapter
    picks. *)
Definition alipay_amount `{FloatText} (df : DataFrame) (r : series)
  : option float :=
  _clean_amount
    (series_get r (pick (df_columns df)
                        [u "金额（元）"; u "金额(元)"; u "金额"; u "交易金额"])
                PNone).

Definition wechat_amount `{FloatText} (df : DataFrame) (r : series)
  : option float :=
  _clean_amount
    (series_get r (pick (df_columns df)
                        [u "金额(元)"; u "金额（元）"; u "金额";
                         u "交易金额(元)"])
                PNone).

(** The rows that have an amount, in the order of the table. *)
Definition priced_rows (amount : series -> option float)
  (rows : list series) : list series :=
  filter (fun r => match amount r with Some _ => true | None => false end)
         rows.

(** ** What the library calls promise *)

(** A character [repr] of a float may write: a digit, a point, a sign, the
    exponent mark, or a letter of inf and nan. *)
Definition repr_char (c : char) : bool :=
  ((0x30 <=? c) && (c <=? 0x39)) || existsb (N.eqb c) (u ".-+einfa").

(** The text of a float is made of such characters and is no bare integer:
    it has a point or an exponent mark, or spells inf or nan. *)
Class FloatTextLaws (F : FloatText) : Prop := {
  repr_chars : forall f c, In c (float_repr f) -> repr_char c = true;
  repr_marked : forall f, In 0x2E (float_repr f) \/ In 0x65 (float_repr f)
                          \/ In 0x6E (float_repr f)
}.

(** The white-space steps of [_normalize_text]. *)
Definition tidy (s : str) : str :=
  strip (sub_spaces (replace ZWSP [] (replace NBSP [0x20] s))).

(** Lower-casing: nothing to do on the empty text or on a text already in
    lower case, and no white space or zero-width space comes or goes. *)
Class UnicodeLaws (U : Unicode) : Prop := {
  nfkc_nil : nfkc [] = [];
  lower_nil : lower [] = [];
  lower_lower : forall s, lower (lower s) = lower s;
  lower_tidy : forall s, tidy s = s -> tidy (lower s) = lower s
}.

(** Sorting by a key, whatever the [kind]: the answer lists every
    position once, and the keys taken in that order ascend.  The default
    [kind="quicksort"] promises no more; only "mergesort" and "stable"
    keep rows with equal keys in their order. *)
Class ArgSortLaws (A : ArgSort) : Prop := {
  argsort_perm : forall ks, Permutation (argsort ks) (seq 0 (length ks));
  argsort_sorted : forall ks, StronglySorted Z.le (take ks (argsort ks))
}.

(* ================================================================== *)
(** * Part IV: lemmas and theorems *)
(* ================================================================== *)

(** ** Strings *)

Lemma str_eqb_eq (a b : str) : str_eqb a b = true <-> a = b.
Proof.
  unfold str_eqb. destruct (list_eq_dec N.eq_dec a b); split; congruence.
Qed.

Lemma truthy_false (s : str) : truthy s = false <-> s = [].
Proof. destruct s; simpl; split; congruence. Qed.

Lemma truthy_true (s : str) : truthy s = true <-> s <> [].
Proof. destruct s; simpl; split; congruence. Qed.

Lemma lstrip_app (a b : str) :
  lstrip (a ++ b) = if forallb isspace a then lstrip b else lstrip a ++ b.
Proof.
  induction a as [|c a IH]; simpl; [reflexivity|].
  destruct (isspace c); simpl; [exact IH | reflexivity].
Qed.

Lemma lstrip_spaces (s : str) : forallb isspace s = true -> lstrip s = [].
Proof.
  induction s as [|c s IH]; simpl; [reflexivity|].
  destruct (isspace c); simpl; [exact IH | discriminate].
Qed.

Lemma lstrip_lstrip (s : str) : lstrip (lstrip s) = lstrip s.
Proof.
  induction s as [|c s IH]; simpl; [reflexivity|].
  destruct (isspace c) eqn:E; [exact IH | simpl; now rewrite E].
Qed.

Lemma forallb_rev {A : Type} (f : A -> bool) (l : list A) :
  forallb f (rev l) = forallb f l.
Proof.
  induction l as [|a l IH]; simpl; [reflexivity|].
  rewrite forallb_app, IH. simpl. rewrite andb_true_r. apply andb_comm.
Qed.

Lemma rstrip_nil : rstrip [] = [].
Proof. reflexivity. Qed.

(** [rstrip] read from the left. *)
Lemma rstrip_cons (c : char) (s : str) :
  rstrip (c :: s) = if forallb isspace (c :: s) then [] else c :: rstrip s.
Proof.
  unfold rstrip. simpl rev. rewrite lstrip_app, forallb_rev.
  cbn [forallb]. destruct (forallb isspace s) eqn:Es.
  - rewrite <- forallb_rev in Es. rewrite (lstrip_spaces _ Es).
    simpl. destruct (isspace c); reflexivity.
  - rewrite rev_app_distr, andb_false_r. reflexivity.
Qed.

Lemma rstrip_spaces (s : str) : forallb isspace s = true -> rstrip s = [].
Proof.
  intros H. unfold rstrip. rewrite lstrip_spaces; [reflexivity|].
  now rewrite forallb_rev.
Qed.

Lemma rstrip_rstrip (s : str) : rstrip (rstrip s) = rstrip s.
Proof. unfold rstrip. now rewrite rev_involutive, lstrip_lstrip. Qed.

Lemma lstrip_rstrip (s : str) : lstrip (rstrip s) = rstrip (lstrip s).
Proof.
  induction s as [|c s IH]; [reflexivity|].
  rewrite rstrip_cons. simpl.
  destruct (isspace c) eqn:Ec; simpl.
  - destruct (forallb isspace s) eqn:Es.
    + now rewrite (lstrip_spaces _ Es).
    + simpl. now rewrite Ec.
  - rewrite rstrip_cons. simpl. now rewrite Ec.
Qed.

Lemma strip_strip (s : str) : strip (strip s) = strip s.
Proof.
  unfold strip.
  now rewrite lstrip_rstrip, lstrip_lstrip, rstrip_rstrip.
Qed.

Lemma strip_nil : strip [] = [].
Proof. reflexivity. Qed.

Lemma in_lstrip (c : char) (s : str) : In c (lstrip s) -> In c s.
Proof.
  induction s as [|a s IH]; simpl; [tauto|].
  destruct (isspace a); simpl; tauto.
Qed.

Lemma in_strip (c : char) (s : str) : In c (strip s) -> In c s.
Proof.
  unfold strip, rstrip. intros H.
  apply in_lstrip. apply in_rev. apply in_lstrip. now apply in_rev in H.
Qed.

Lemma in_sub_spaces (c : char) (in_run : bool) (s : str) :
  In c (sub_spaces_from in_run s) -> c = 0x20 \/ In c s.
Proof.
  revert in_run. induction s as [|a s IH]; intros in_run; simpl; [tauto|].
  destruct (isspace a); [destruct in_run|]; simpl; intros H.
  - apply IH in H. tauto.
  - destruct H as [H|H]; [now left | apply IH in H; tauto].
  - destruct H as [H|H]; [now right; left | apply IH in H; tauto].
Qed.

Lemma in_replace (c old : char) (new s : str) :
  In c (replace old new s) -> In c new \/ (In c s /\ c <> old).
Proof.
  unfold replace. rewrite in_flat_map. intros (a & Ha & Hc).
  destruct (N.eqb_spec a old) as [->|Hne]; [now left|].
  destruct Hc as [<-|[]]. now right.
Qed.

Lemma replace_absent (old : char) (new s : str) :
  ~ In old s -> replace old new s = s.
Proof.
  unfold replace. induction s as [|a s IH]; simpl; [reflexivity|].
  intros H. destruct (N.eqb_spec a old) as [->|Hne]; [tauto|].
  simpl. f_equal. apply IH. tauto.
Qed.

(** ** White space after [re.sub(r"\s+", " ", s)] *)

(** [spaced b s]: every white-space character of [s] is a space with no
    white space before it; under [b], [s] does not start with one. *)
Inductive spaced : bool -> str -> Prop :=
| spaced_nil b : spaced b []
| spaced_char b c s : isspace c = false -> spaced false s -> spaced b (c :: s)
| spaced_space s : spaced true s -> spaced false (0x20 :: s).

Lemma spaced_weaken (b : bool) (s : str) : spaced b s -> spaced false s.
Proof. intros H. destruct H; constructor; assumption. Qed.

Lemma sub_spaces_spaced (b : bool) (s : str) : spaced b (sub_spaces_from b s).
Proof.
  revert b. induction s as [|c s IH]; intros b; simpl; [constructor|].
  destruct (isspace c) eqn:Ec.
  - destruct b; [apply IH | constructor; apply IH].
  - now constructor.
Qed.

Lemma spaced_fixed (b : bool) (s : str) :
  spaced b s -> sub_spaces_from b s = s.
Proof.
  induction 1 as [b|b c s Hc _ IH|s _ IH]; simpl.
  - reflexivity.
  - rewrite Hc. now rewrite IH.
  - now rewrite IH.
Qed.

Lemma spaced_lstrip (b : bool) (s : str) : spaced b s -> spaced false (lstrip s).
Proof.
  induction 1 as [b|b c s Hc Hs _|s Hs IH]; simpl.
  - constructor.
  - rewrite Hc. now constructor.
  - exact IH.
Qed.

Lemma spaced_rstrip (b : bool) (s : str) : spaced b s -> spaced b (rstrip s).
Proof.
  induction 1 as [b|b c s Hc Hs IH|s Hs IH].
  - constructor.
  - rewrite rstrip_cons. simpl. rewrite Hc. simpl. now constructor.
  - rewrite rstrip_cons.
    match goal with |- context [if ?b then _ else _] => destruct b end;
      now constructor.
Qed.

Lemma spaced_no_nbsp (b : bool) (s : str) : spaced b s -> ~ In NBSP s.
Proof.
  induction 1 as [b|b c s Hc Hs IH|s Hs IH]; simpl.
  - tauto.
  - intros [->|H]; [discriminate | tauto].
  - intros [H|H]; [discriminate | tauto].
Qed.

Lemma tidy_spaced (s : str) : spaced false (tidy s).
Proof.
  unfold tidy, strip. apply spaced_rstrip.
  apply (spaced_lstrip false). apply sub_spaces_spaced.
Qed.

Lemma tidy_no_zwsp (s : str) : ~ In ZWSP (tidy s).
Proof.
  unfold tidy. intros H. apply in_strip in H.
  apply in_sub_spaces in H. destruct H as [H|H]; [discriminate|].
  apply in_replace in H. destruct H as [[]|[_ H]]. now apply H.
Qed.

(** The white-space steps change nothing when run a second time. *)
Lemma tidy_tidy (s : str) : tidy (tidy s) = tidy s.
Proof.
  unfold tidy at 1.
  rewrite (replace_absent NBSP), (replace_absent ZWSP).
  - unfold sub_spaces. rewrite (spaced_fixed _ _ (tidy_spaced s)).
    unfold tidy. apply strip_strip.
  - apply tidy_no_zwsp.
  - apply (spaced_no_nbsp _ _ (tidy_spaced s)).
Qed.

(** ** Text normalizer *)

Lemma normalize_unfold `{Unicode} (s : str) :
  _normalize_text (Some s) = lower (tidy (nfkc s)).
Proof. reflexivity. Qed.

(** The lower-casing of [table_unicode] leaves white space and the
    zero-width space alone. *)

Lemma isspace_iff (c : char) :
  isspace c = true <->
  (0x09 <= c <= 0x0D) \/ (0x1C <= c <= 0x20) \/ c = 0x85 \/ c = 0xA0 \/
  c = 0x1680 \/ (0x2000 <= c <= 0x200A) \/ c = 0x2028 \/ c = 0x2029 \/
  c = 0x202F \/ c = 0x205F \/ c = 0x3000.
Proof.
  unfold isspace.
  rewrite !orb_true_iff, !andb_true_iff, !N.leb_le, !N.eqb_eq. tauto.
Qed.

Ltac split_lower_char c :=
  unfold lower_char;
  destruct (N.leb_spec 0x41 c); destruct (N.leb_spec c 0x5A);
  destruct (N.leb_spec 0xFF21 c); destruct (N.leb_spec c 0xFF3A);
  destruct (N.eqb_spec c 0xC9); cbn [andb].

Lemma isspace_lower_char (c : char) : isspace (lower_char c) = isspace c.
Proof.
  apply eq_iff_eq_true. rewrite !isspace_iff.
  split_lower_char c; lia.
Qed.

Lemma lower_char_twice (c : char) : lower_char (lower_char c) = lower_char c.
Proof.
  split_lower_char c; try lia;
    unfold lower_char;
    repeat match goal with
           | |- context [N.leb ?a ?b] => destruct (N.leb_spec a b)
           | |- context [N.eqb ?a ?b] => destruct (N.eqb_spec a b)
           end; cbn [andb]; lia.
Qed.

Lemma lower_char_eqb (c k : char) :
  lower_char k = k -> (forall a, lower_char a = k -> a = k) ->
  (lower_char c =? k) = (c =? k).
Proof.
  intros Hk Hinv.
  destruct (N.eqb_spec c k) as [->|Hne].
  - rewrite Hk. apply N.eqb_refl.
  - apply N.eqb_neq. intros E. apply Hne. now apply Hinv.
Qed.

Lemma lower_char_zwsp (c : char) : (lower_char c =? ZWSP) = (c =? ZWSP).
Proof.
  apply lower_char_eqb; [reflexivity|].
  intros a. unfold ZWSP. split_lower_char a; lia.
Qed.

Lemma lower_char_nbsp (c : char) : (lower_char c =? NBSP) = (c =? NBSP).
Proof.
  apply lower_char_eqb; [reflexivity|].
  intros a. unfold NBSP. split_lower_char a; lia.
Qed.

Section MapCommutes.
Variable f : char -> char.
Hypothesis f_space : forall c, isspace (f c) = isspace c.

Lemma lstrip_map (s : str) : lstrip (map f s) = map f (lstrip s).
Proof.
  induction s as [|c s IH]; simpl; [reflexivity|].
  rewrite f_space. destruct (isspace c); [exact IH | reflexivity].
Qed.

Lemma strip_map (s : str) : strip (map f s) = map f (strip s).
Proof.
  unfold strip, rstrip.
  now rewrite lstrip_map, <- map_rev, lstrip_map, map_rev.
Qed.

Lemma sub_spaces_map (b : bool) (s : str) :
  f 0x20 = 0x20 ->
  sub_spaces_from b (map f s) = map f (sub_spaces_from b s).
Proof.
  intros H20. revert b.
  induction s as [|c s IH]; intros b; simpl; [reflexivity|].
  rewrite f_space.
  destruct (isspace c); [destruct b|]; simpl; now rewrite ?IH, ?H20.
Qed.

Lemma replace_map (old : char) (new s : str) :
  (forall c, (f c =? old) = (c =? old)) ->
  replace old (map f new) (map f s) = map f (replace old new s).
Proof.
  intros Hold. unfold replace.
  induction s as [|c s IH]; simpl; [reflexivity|].
  rewrite Hold, map_app, IH. now destruct (c =? old).
Qed.
End MapCommutes.

Lemma tidy_lower_char (s : str) :
  tidy (map lower_char s) = map lower_char (tidy s).
Proof.
  unfold tidy, sub_spaces.
  rewrite <- (strip_map _ isspace_lower_char).
  rewrite <- (sub_spaces_map _ isspace_lower_char) by reflexivity.
  rewrite <- (replace_map lower_char ZWSP []) by apply lower_char_zwsp.
  rewrite <- (replace_map lower_char NBSP [0x20]) by apply lower_char_nbsp.
  reflexivity.
Qed.

#[export] Instance table_unicode_laws : UnicodeLaws table_unicode.
Proof.
  split.
  - reflexivity.
  - reflexivity.
  - intros s. simpl. rewrite map_map. apply map_ext. apply lower_char_twice.
  - intros s Hs. simpl. rewrite tidy_lower_char. now rewrite Hs.
Qed.

(** C5, as amended: normalizing twice gives what normalizing once gives
    for every text whose normal form NFKC leaves unchanged (NFKC runs
    first, so the later steps can leave a text it would still change);
    the function is total, and absent or empty input gives the empty
    text. *)
Theorem normalize_idempotent_on_nfkc_stable (U : Unicode) (L : UnicodeLaws U) :
  (forall x : str,
      nfkc (_normalize_text (Some x)) = _normalize_text (Some x) ->
      _normalize_text (Some (_normalize_text (Some x)))
      = _normalize_text (Some x)) /\
  _normalize_text None = [] /\
  _normalize_text (Some []) = [].
Proof.
  split; [|split].
  - intros x Hx. rewrite (normalize_unfold (_normalize_text (Some x))), Hx.
    rewrite normalize_unfold.
    rewrite (lower_tidy (tidy (nfkc x)) (tidy_tidy _)).
    apply lower_lower.
  - reflexivity.
  - rewrite normalize_unfold, nfkc_nil. apply lower_nil.
Qed.

(** The full-width spelling of KFC Coffee, with an ideographic space, is
    such a text. *)
Lemma normalize_idempotent_witness :
  _normalize_text (Some (_normalize_text (Some (u "ＫＦＣ　Ｃｏｆｆｅｅ"))))
  = _normalize_text (Some (u "ＫＦＣ　Ｃｏｆｆｅｅ")).
Proof.
  apply (proj1 (normalize_idempotent_on_nfkc_stable
                  table_unicode table_unicode_laws)).
  vm_compute. reflexivity.
Defined.

(** C5 as stated fails: U+200B between the letter e and a combining acute
    accent keeps NFKC from composing them; the normalizer then removes
    U+200B, and a second pass composes U+00E9. *)
Lemma normalize_not_idempotent :
  _normalize_text (Some [0x65; 0x200B; 0x301]) = [0x65; 0x301] /\
  _normalize_text (Some (_normalize_text (Some [0x65; 0x200B; 0x301])))
  = [0xE9].
Proof. split; vm_compute; reflexivity. Qed.

(** ** Classifier *)

Lemma existsb_filter {A : Type} (p q : A -> bool) (l : list A) :
  existsb q (filter p l) = existsb (fun a => p a && q a) l.
Proof.
  induction l as [|a l IH]; simpl; [reflexivity|].
  destruct (p a); simpl; now rewrite IH.
Qed.

Lemma find_skip {A : Type} (f : A -> bool) (pre post : list A) (a : A) :
  f a = false -> find f (pre ++ a :: post) = find f (pre ++ post).
Proof.
  intros Ha. induction pre as [|b pre IH]; simpl.
  - now rewrite Ha.
  - now rewrite IH.
Qed.

Lemma find_first {A : Type} (f : A -> bool) (l : list A) (x : A) :
  find f l = Some x ->
  exists pre post,
    l = pre ++ x :: post /\ f x = true /\ Forall (fun y => f y = false) pre.
Proof.
  induction l as [|a l IH]; simpl; [discriminate|].
  destruct (f a) eqn:Ea.
  - intros [= <-]. exists [], l. repeat split; [exact Ea | constructor].
  - intros H. destruct (IH H) as (pre & post & -> & Hx & Hpre).
    exists (a :: pre), post. repeat split; [exact Hx | now constructor].
Qed.

Lemma find_none_iff {A : Type} (f : A -> bool) (l : list A) :
  find f l = None <-> Forall (fun y => f y = false) l.
Proof.
  induction l as [|a l IH]; simpl.
  - split; [constructor | reflexivity].
  - destruct (f a) eqn:Ea; split.
    + discriminate.
    + intros H. inversion H; congruence.
    + intros H. constructor; [exact Ea | now apply IH].
    + intros H. inversion H. now apply IH.
Qed.

Lemma find_after {A : Type} (f : A -> bool) (pre l : list A) :
  (forall y, In y pre -> f y = false) -> find f (pre ++ l) = find f l.
Proof.
  induction pre as [|a pre IH]; intros H; [reflexivity|].
  simpl. rewrite (H a (or_introl eq_refl)). apply IH.
  intros y Hy. apply H. now right.
Qed.

Section Classifier.
Context {U : Unicode} {R : Regex}.

(** A condition leaves [ok] set exactly when it was set and the pattern
    is found; an exception of the search clears it. *)
Lemma condition_found (is_regex : bool) (patt target : str) (ok : bool) :
  condition is_regex patt target ok
  = Ok (ok && pattern_found is_regex patt target).
Proof.
  unfold condition, pattern_found, any_variant.
  destruct is_regex.
  - destruct (re_search patt target) as [[|]|e]; simpl;
      now rewrite ?andb_true_r, ?andb_false_r.
  - rewrite existsb_filter.
    match goal with |- context [if ?b then _ else _] => destruct b end;
      now rewrite ?andb_true_r, ?andb_false_r.
Qed.

(** The loop body computes the rule's match. *)
Lemma rule_ok_matches (t : texts) (r : Rule.t) :
  rule_ok (mtext t) (itext_join t) (fulltext t) r = Ok (rule_matches t r).
Proof.
  unfold rule_ok, rule_matches, merchant_condition, keyword_condition.
  destruct (truthy (Rule.merchant r)); destruct (truthy (Rule.keyword r));
    cbn [negb andb bind]; rewrite ?condition_found; cbn [andb bind];
    repeat (match goal with
            | |- context [pattern_found ?a ?b ?c] =>
                destruct (pattern_found a b c)
            end;
            cbn [andb bind]; rewrite ?condition_found; cbn [andb bind]);
    reflexivity.
Qed.

Lemma classify_loop_first_match (t : texts) (rules : list Rule.t) :
  classify_loop (mtext t) (itext_join t) (fulltext t) rules
  = Ok (first_match t rules).
Proof.
  unfold first_match.
  induction rules as [|r rules IH]; simpl; [reflexivity|].
  rewrite rule_ok_matches. cbn [bind].
  destruct (rule_matches t r); [reflexivity | exact IH].
Qed.

Lemma malformed_not_found (patt target : str) :
  malformed patt -> pattern_found true patt target = false.
Proof.
  intros H. unfold pattern_found.
  destruct (H target) as [e ->]. reflexivity.
Qed.

Lemma classify_cons `{FloatText} (note merchant item : pyobj) (r : Rule.t)
  (rules : list Rule.t) :
  _classify note merchant item (r :: rules)
  = if rule_matches (texts_of note merchant item) r
    then Ok (Rule.category r, Rule.subcategory r)
    else _classify note merchant item rules.
Proof.
  unfold _classify. rewrite !classify_loop_first_match.
  unfold first_match. simpl.
  now destruct (rule_matches (texts_of note merchant item) r).
Qed.

End Classifier.

(** C1: the texts [_classify] searches are the normalized merchant, the
    normalized item and note joined by a space, and the three joined by
    spaces.  It answers the categories of the first rule of the list all
    of whose declared conditions hold on them: the rules before it that do
    not match and the rules after it, matching or not, change nothing.  It
    answers two empty texts when no rule matches, and it always
    answers. *)
Theorem classify_first_match_wins (U : Unicode) (R : Regex) (F : FloatText)
  (note merchant item : pyobj) (rules : list Rule.t) :
  let mtext := _normalize_text (Some (raw_text merchant)) in
  let itext := _normalize_text (Some (raw_text item)) in
  let ntext := _normalize_text (Some (raw_text note)) in
  let t := {| mtext := mtext;
              itext_join := strip (join [0x20] [itext; ntext]);
              fulltext := strip (join [0x20] [mtext; itext; ntext]) |} in
  _classify note merchant item rules = Ok (first_match t rules) /\
  (forall pre r post,
      rules = pre ++ r :: post ->
      (forall r', In r' pre -> rule_matches t r' = false) ->
      rule_matches t r = true ->
      _classify note merchant item rules
      = Ok (Rule.category r, Rule.subcategory r)) /\
  ((forall r, In r rules -> rule_matches t r = false) ->
   _classify note merchant item rules = Ok ([], [])).
Proof.
  intros mtext itext ntext t.
  assert (Hc : _classify note merchant item rules = Ok (first_match t rules))
    by exact (classify_loop_first_match (texts_of note merchant item) rules).
  split; [exact Hc|]. rewrite Hc. unfold first_match. split.
  - intros pre r post -> Hpre Hr.
    rewrite (find_after _ pre _ Hpre). simpl. now rewrite Hr.
  - intros Hnone.
    now rewrite (proj2 (find_none_iff _ rules)
                   (proj2 (Forall_forall _ rules) Hnone)).
Qed.

(** Two rules for one payee: the rule of priority 10 stands first and
    decides; a rule that does not match is passed over, whatever its
    place; a payee no rule names gets two empty texts. *)
Lemma classify_first_match_witness :
  let r1 := {| Rule.priority := 10; Rule.merchant := u "kfc|肯德基";
               Rule.keyword := []; Rule.category := u "A";
               Rule.subcategory := u "a"; Rule.regex := false |} in
  let r2 := {| Rule.priority := 5; Rule.merchant := u "kfc";
               Rule.keyword := []; Rule.category := u "B";
               Rule.subcategory := []; Rule.regex := false |} in
  _classify PNone (PStr (u "ＫＦＣ 朝阳门店")) PNone [r1; r2]
  = Ok (u "A", u "a") /\
  _classify PNone (PStr (u "肯德基")) (PStr (u "套餐")) [r2; r1]
  = Ok (u "A", u "a") /\
  _classify (PStr (u "kfc")) (PStr (u "某未知商户")) PNone [r2; r1]
  = Ok (u "B", []) /\
  _classify PNone (PStr (u "某未知商户")) PNone [r1; r2] = Ok ([], []).
Proof.
  intros r1 r2. split; [|split; [|split]].
  - apply (proj1 (proj2 (classify_first_match_wins table_unicode
                           literal_regex decimal_float PNone
                           (PStr (u "ＫＦＣ 朝阳门店")) PNone [r1; r2]))
             [] r1 [r2] eq_refl).
    + intros r' [].
    + vm_compute. reflexivity.
  - apply (proj1 (proj2 (classify_first_match_wins table_unicode
                           literal_regex decimal_float PNone
                           (PStr (u "肯德基")) (PStr (u "套餐")) [r2; r1]))
             [r2] r1 [] eq_refl).
    + intros r' [<-|[]]. vm_compute. reflexivity.
    + vm_compute. reflexivity.
  - apply (proj1 (proj2 (classify_first_match_wins table_unicode
                           literal_regex decimal_float (PStr (u "kfc"))
                           (PStr (u "某未知商户")) PNone [r2; r1]))
             [] r2 [r1] eq_refl).
    + intros r' [].
    + vm_compute. reflexivity.
  - apply (proj2 (proj2 (classify_first_match_wins table_unicode
                           literal_regex decimal_float PNone
                           (PStr (u "某未知商户")) PNone [r1; r2]))).
    intros r [<-|[<-|[]]]; vm_compute; reflexivity.
Defined.

(** C3: with a keyword pattern the merchant pattern is searched in the
    normalized merchant alone, without one in merchant, item and note
    joined; the keyword pattern is searched in item and note joined,
    which the merchant is no part of. *)
Theorem classify_match_targets (U : Unicode) (R : Regex) (F : FloatText)
  (note merchant item : pyobj) (r : Rule.t) (rules : list Rule.t) :
  let m := _normalize_text (Some (raw_text merchant)) in
  let i := _normalize_text (Some (raw_text item)) in
  let n := _normalize_text (Some (raw_text note)) in
  let item_join := strip (join [0x20] [i; n]) in
  let full_text := strip (join [0x20] [m; i; n]) in
  let found := pattern_found (Rule.regex r) in
  let patt_m := _normalize_text (Some (Rule.merchant r)) in
  let patt_k := _normalize_text (Some (Rule.keyword r)) in
  let run hit :=
    _classify note merchant item (r :: rules)
    = if hit : bool then Ok (Rule.category r, Rule.subcategory r)
      else _classify note merchant item rules in
  (Rule.merchant r <> [] -> Rule.keyword r <> [] ->
   run (found patt_m m && found patt_k item_join)) /\
  (Rule.merchant r <> [] -> Rule.keyword r = [] ->
   run (found patt_m full_text)) /\
  (Rule.merchant r = [] -> Rule.keyword r <> [] ->
   run (found patt_k item_join)).
Proof.
  intros m i n item_join full_text found patt_m patt_k run.
  assert (step : run (rule_matches (texts_of note merchant item) r)).
  { apply classify_cons. }
  unfold rule_matches, merchant_condition, keyword_condition in step.
  repeat split; intros Hm Hk;
    first [apply (proj2 (truthy_true _)) in Hm
          | apply (proj2 (truthy_false _)) in Hm];
    first [apply (proj2 (truthy_true _)) in Hk
          | apply (proj2 (truthy_false _)) in Hk];
    rewrite Hm, Hk in step; cbn [andb] in step;
    rewrite ?andb_true_r in step; exact step.
Qed.

(** A rule for KFC with a keyword, one without, and a keyword rule. *)
Lemma classify_match_targets_witness :
  let kfc k := {| Rule.priority := 10; Rule.merchant := u "kfc|肯德基";
                  Rule.keyword := k; Rule.category := u "餐饮";
                  Rule.subcategory := []; Rule.regex := false |} in
  let taxi := {| Rule.priority := 5; Rule.merchant := [];
                 Rule.keyword := u "打车|出行"; Rule.category := u "交通";
                 Rule.subcategory := []; Rule.regex := false |} in
  _classify PNone (PStr (u "滴滴")) (PStr (u "KFC 套餐")) [kfc (u "套餐")]
  = Ok ([], []) /\
  _classify PNone (PStr (u "滴滴")) (PStr (u "KFC 套餐")) [kfc []]
  = Ok (u "餐饮", []) /\
  _classify PNone (PStr (u "打车")) (PStr (u "KFC 套餐")) [taxi]
  = Ok ([], []).
Proof.
  intros kfc taxi.
  pose proof (classify_match_targets table_unicode literal_regex
                decimal_float PNone (PStr (u "滴滴")) (PStr (u "KFC 套餐"))
                (kfc (u "套餐")) []) as (H1 & _ & _).
  pose proof (classify_match_targets table_unicode literal_regex
                decimal_float PNone (PStr (u "滴滴")) (PStr (u "KFC 套餐"))
                (kfc []) []) as (_ & H2 & _).
  pose proof (classify_match_targets table_unicode literal_regex
                decimal_float PNone (PStr (u "打车")) (PStr (u "KFC 套餐"))
                taxi []) as (_ & _ & H3).
  split; [|split].
  - rewrite H1; [reflexivity | discriminate | discriminate].
  - rewrite H2; [reflexivity | discriminate | reflexivity].
  - rewrite H3; [reflexivity | reflexivity | discriminate].
Defined.

(** C4: [_classify] answers for every input, and a regex rule one of whose
    declared patterns does not compile never matches: the list with the
    rule classifies as the list without it. *)
Theorem classify_skips_malformed_regex (U : Unicode) (R : Regex)
  (F : FloatText) (note merchant item : pyobj) :
  (forall rules, exists c, _classify note merchant item rules = Ok c) /\
  (forall pre r post,
      Rule.regex r = true ->
      (Rule.merchant r <> [] /\
       malformed (_normalize_text (Some (Rule.merchant r)))) \/
      (Rule.keyword r <> [] /\
       malformed (_normalize_text (Some (Rule.keyword r)))) ->
      _classify note merchant item (pre ++ r :: post)
      = _classify note merchant item (pre ++ post)).
Proof.
  split.
  - intros rules. eexists. unfold _classify.
    apply classify_loop_first_match.
  - intros pre r post Hrx Hbad. unfold _classify.
    rewrite !classify_loop_first_match. unfold first_match.
    rewrite find_skip; [reflexivity|].
    unfold rule_matches, merchant_condition, keyword_condition.
    rewrite Hrx.
    destruct Hbad as [[Hp Hbad]|[Hp Hbad]];
      apply truthy_true in Hp; rewrite Hp;
      rewrite (malformed_not_found _ _ Hbad);
      [reflexivity | apply andb_false_r].
Qed.

(** The pattern of one opening parenthesis does not compile. *)
Lemma classify_skips_malformed_regex_witness :
  let broken := {| Rule.priority := 10; Rule.merchant := u "(";
                   Rule.keyword := []; Rule.category := u "坏";
                   Rule.subcategory := []; Rule.regex := true |} in
  let kfc := {| Rule.priority := 5; Rule.merchant := u "kfc";
                Rule.keyword := []; Rule.category := u "餐饮";
                Rule.subcategory := []; Rule.regex := true |} in
  _classify PNone (PStr (u "KFC (朝阳)")) PNone [broken; kfc]
  = _classify PNone (PStr (u "KFC (朝阳)")) PNone [kfc].
Proof.
  intros broken kfc.
  apply (proj2 (classify_skips_malformed_regex table_unicode literal_regex
                  decimal_float PNone (PStr (u "KFC (朝阳)")) PNone)
               [] broken [kfc]).
  - reflexivity.
  - left. split; [discriminate|].
    intros target. exists ReError. reflexivity.
Defined.

Section NormalizedPatterns.
Context {U : Unicode} {R : Regex}.

Lemma settled_truthy (patt : str) :
  settled patt -> truthy (_normalize_text (Some patt)) = truthy patt.
Proof.
  intros [Hnil _]. destruct (truthy patt) eqn:E.
  - apply truthy_true. apply truthy_true in E. tauto.
  - apply truthy_false. apply truthy_false in E. tauto.
Qed.

Lemma rule_matches_normalized (t : texts) (r : Rule.t) :
  settled (Rule.merchant r) -> settled (Rule.keyword r) ->
  rule_matches t (normalized_rule r) = rule_matches t r.
Proof.
  intros Hm Hk.
  unfold rule_matches, merchant_condition, keyword_condition, normalized_rule.
  cbn [Rule.merchant Rule.keyword Rule.regex].
  rewrite (settled_truthy _ Hm), (settled_truthy _ Hk).
  destruct Hm as [_ ->]. destruct Hk as [_ ->]. reflexivity.
Qed.

Lemma first_match_normalized (t : texts) (rules : list Rule.t) :
  Forall (fun r => settled (Rule.merchant r) /\ settled (Rule.keyword r))
         rules ->
  first_match t (map normalized_rule rules) = first_match t rules.
Proof.
  unfold first_match.
  induction 1 as [|r rules [Hm Hk] _ IH]; simpl; [reflexivity|].
  rewrite (rule_matches_normalized t r Hm Hk).
  destruct (rule_matches t r); [reflexivity | exact IH].
Qed.

Lemma empty_aliases_not_found (patt target : str) :
  Forall (eq []) (split 0x7C patt) -> pattern_found false patt target = false.
Proof.
  unfold pattern_found. induction 1 as [|alias l <- _ IH]; simpl; auto.
Qed.

End NormalizedPatterns.

(** C10, as amended: for rules whose patterns the normalizer neither
    empties nor changes a second time, classifying with the patterns
    replaced by their normal forms gives the same result; and a literal
    rule that declares a pattern all of whose aliases are empty matches
    no transaction. *)
Theorem classify_normalizes_patterns (U : Unicode) (R : Regex)
  (F : FloatText) (note merchant item : pyobj) :
  (forall rules,
      Forall (fun r => settled (Rule.merchant r) /\ settled (Rule.keyword r))
             rules ->
      _classify note merchant item (map normalized_rule rules)
      = _classify note merchant item rules) /\
  (forall r rules,
      Rule.regex r = false ->
      (Rule.merchant r <> [] /\
       Forall (eq []) (split 0x7C (_normalize_text (Some (Rule.merchant r)))))
      \/
      (Rule.keyword r <> [] /\
       Forall (eq []) (split 0x7C (_normalize_text (Some (Rule.keyword r)))))
      ->
      _classify note merchant item (r :: rules)
      = _classify note merchant item rules).
Proof.
  split.
  - intros rules Hrules. unfold _classify.
    rewrite !classify_loop_first_match. f_equal.
    now apply first_match_normalized.
  - intros r rules Hrx Hempty. rewrite classify_cons.
    unfold rule_matches, merchant_condition, keyword_condition.
    rewrite Hrx.
    destruct Hempty as [[Hp He]|[Hp He]];
      apply truthy_true in Hp; rewrite Hp;
      rewrite (empty_aliases_not_found _ _ He);
      rewrite ?andb_false_r; reflexivity.
Qed.

(** A rule in upper case and full width, and a rule of two bars. *)
Lemma classify_normalizes_patterns_witness :
  let kfc := {| Rule.priority := 10; Rule.merchant := u "ＫＦＣ|肯德基";
                Rule.keyword := []; Rule.category := u "餐饮";
                Rule.subcategory := []; Rule.regex := false |} in
  let bars := {| Rule.priority := 20; Rule.merchant := u "||";
                 Rule.keyword := []; Rule.category := u "空";
                 Rule.subcategory := []; Rule.regex := false |} in
  _classify PNone (PStr (u "kfc 朝阳门店")) PNone (map normalized_rule [kfc])
  = _classify PNone (PStr (u "kfc 朝阳门店")) PNone [kfc] /\
  _classify PNone (PStr (u "kfc 朝阳门店")) PNone [bars; kfc]
  = _classify PNone (PStr (u "kfc 朝阳门店")) PNone [kfc].
Proof.
  intros kfc bars.
  destruct (classify_normalizes_patterns table_unicode literal_regex
              decimal_float PNone (PStr (u "kfc 朝阳门店")) PNone)
    as [H1 H2].
  split.
  - apply H1. repeat constructor; try discriminate; vm_compute; congruence.
  - apply H2; [reflexivity|].
    left. split; [discriminate|]. vm_compute. repeat constructor.
Defined.

(** C10 as stated fails: the classifier tests the pattern as written for
    emptiness and only then normalizes it.  A merchant pattern that is one
    zero-width space is declared and has no alias, so the rule never
    matches; its normal form is the empty pattern, which declares no
    condition, so the rule matches everything. *)
Lemma classify_pattern_emptied_by_normalizer :
  let r := {| Rule.priority := 10; Rule.merchant := [ZWSP];
              Rule.keyword := []; Rule.category := u "餐饮";
              Rule.subcategory := []; Rule.regex := false |} in
  _classify PNone (PStr (u "KFC")) PNone [r] = Ok ([], []) /\
  _classify PNone (PStr (u "KFC")) PNone [normalized_rule r]
  = Ok (u "餐饮", []).
Proof. split; vm_compute; reflexivity. Qed.

(** Scenarios 1 and 2 of the specification. *)
Example scenario_kfc :
  _classify PNone (PStr (u "KFC 朝阳门店")) PNone
    [{| Rule.priority := 10; Rule.merchant := u "kfc|肯德基";
        Rule.keyword := []; Rule.category := u "餐饮";
        Rule.subcategory := []; Rule.regex := false |}]
  = Ok (u "餐饮", []).
Proof. vm_compute. reflexivity. Qed.

Example scenario_taxi :
  _classify PNone (PStr (u "某未知商户")) (PStr (u "滴滴打车"))
    [{| Rule.priority := 5; Rule.merchant := [];
        Rule.keyword := u "打车|出行"; Rule.category := u "交通";
        Rule.subcategory := []; Rule.regex := false |}]
  = Ok (u "交通", []).
Proof. vm_compute. reflexivity. Qed.

(** ** Rule repository *)

Lemma insert_rule_perm (r : Rule.t) (l : list Rule.t) :
  Permutation (insert_rule r l) (r :: l).
Proof.
  induction l as [|x l IH]; simpl; [reflexivity|].
  destruct (Rule.priority r <? Rule.priority x)%Z; [|reflexivity].
  rewrite IH. apply perm_swap.
Qed.

Lemma sort_rules_perm (l : list Rule.t) : Permutation (sort_rules l) l.
Proof.
  induction l as [|r l IH]; simpl; [reflexivity|].
  rewrite insert_rule_perm. now constructor.
Qed.

Lemma insert_rule_sorted (r : Rule.t) (l : list Rule.t) :
  by_priority l -> by_priority (insert_rule r l).
Proof.
  unfold by_priority.
  induction 1 as [|x l Hl IH Hx]; simpl.
  - repeat constructor.
  - destruct (Z.ltb_spec (Rule.priority r) (Rule.priority x)) as [Hlt|Hge].
    + constructor; [exact IH|].
      rewrite (insert_rule_perm r l). constructor; [lia | exact Hx].
    + constructor; [now constructor|].
      constructor; [exact Hge|].
      eapply Forall_impl; [|exact Hx]. cbv beta. intros a Ha. lia.
Qed.

Lemma sort_rules_sorted (l : list Rule.t) : by_priority (sort_rules l).
Proof.
  induction l as [|r l IH]; simpl.
  - constructor.
  - now apply insert_rule_sorted.
Qed.

(** An inserted rule goes behind rules of greater priority only. *)
Lemma insert_rule_filter (p : Z) (r : Rule.t) (l : list Rule.t) :
  filter (has_priority p) (insert_rule r l)
  = filter (has_priority p) (r :: l).
Proof.
  induction l as [|x l IH]; [reflexivity|].
  cbn [insert_rule].
  destruct (Z.ltb_spec (Rule.priority r) (Rule.priority x)) as [Hlt|Hge];
    [|reflexivity].
  cbn [filter] in *. rewrite IH. unfold has_priority.
  destruct (Z.eqb_spec (Rule.priority r) p);
    destruct (Z.eqb_spec (Rule.priority x) p); try reflexivity; lia.
Qed.

Lemma sort_rules_stable (l : list Rule.t) : ties_in_order l (sort_rules l).
Proof.
  intros p. induction l as [|r l IH]; [reflexivity|].
  cbn [sort_rules]. rewrite insert_rule_filter.
  cbn [filter]. now rewrite IH.
Qed.

Lemma in_rules_of_rows `{FloatText} (r : Rule.t) (rows : list series) :
  In r (rules_of_rows rows) <->
  exists row, In row rows /\ rule_of_row row = Some r.
Proof.
  induction rows as [|row rows IH]; simpl.
  - split; [tauto | intros (? & [] & _)].
  - destruct (rule_of_row row) as [r'|] eqn:E; simpl; rewrite IH; split.
    + intros [<-|(row' & Hin & Hr)]; eauto.
    + intros (row' & [<-|Hin] & Hr); [left; congruence | eauto].
    + intros (row' & Hin & Hr); eauto.
    + intros (row' & [<-|Hin] & Hr); [congruence | eauto].
Qed.

(** What one row gives: nothing when its category cell is missing or
    blank, else a rule with that category and the priority [to_int]
    reads. *)
Lemma rule_of_row_category `{FloatText} (row : series) :
  let cat := text_cell (series_get row (Some (u "category")) (PStr [])) in
  (cat = [] -> rule_of_row row = None) /\
  (forall r, rule_of_row row = Some r ->
             Rule.category r = cat /\ cat <> [] /\
             Rule.priority r
             = to_int (series_get row (Some (u "priority")) (PInt 0))).
Proof.
  intros cat. unfold rule_of_row. fold cat.
  destruct cat as [|c cat']; simpl.
  - split; [reflexivity | discriminate].
  - split; [discriminate|].
    intros r [= <-]. simpl. repeat split. discriminate.
Qed.


(** The table [rule_table] loads as four rules: the blank category is
    dropped, the priorities 5 and 10.0 are kept, the priority that is no
    number counts as 0, and the two rules of priority 5 keep the order of
    their rows. *)
Example load_rule_table :
  map (fun r => (Rule.priority r, Rule.merchant r, Rule.category r))
      (_load_category_rules (Some rule_table))
  = [(10%Z, u "星巴克", u "咖啡"); (5%Z, u "kfc", u "餐饮");
     (5%Z, u "麦当劳", u "快餐"); (0%Z, u "滴滴", u "交通")].
Proof. vm_compute. reflexivity. Qed.


(** ** Source adapters *)

Lemma in_collect {A B : Type} (f : A -> option B) (l : list A) (b : B) :
  In b (collect f l) <-> exists a, In a l /\ f a = Some b.
Proof.
  induction l as [|a l IH]; simpl.
  - split; [tauto | intros (? & [] & _)].
  - destruct (f a) as [b'|] eqn:E; simpl; rewrite IH; split.
    + intros [<-|(a' & Hin & Ha)]; eauto.
    + intros (a' & [<-|Hin] & Ha); [left; congruence | eauto].
    + intros (a' & Hin & Ha); eauto.
    + intros (a' & [<-|Hin] & Ha); [congruence | eauto].
Qed.

Lemma abs_not_negative (x : float) :
  SFabs x = S754_nan \/ non_negative (SFabs x).
Proof. destruct x; simpl; [right|right|left|right]; reflexivity. Qed.

Section Adapters.
Context {F : FloatText} {D : DateText}.

(** A row [parse_alipay] emits comes from a row of the table, with the
    absolute value of its cleaned amount and the direction of its [io]. *)
Lemma parse_alipay_row (df : DataFrame) (out : list Txn.t) (t : Txn.t) :
  parse_alipay df = Some out -> In t out ->
  exists r amt,
    In r (iterrows df) /\
    Txn.amount t = SFabs amt /\
    Txn.type t = alipay_type (alipay_io df r).
Proof.
  unfold parse_alipay.
  destruct (pick (df_columns df) _) as [c_time|]; [|discriminate].
  match goal with
  | |- context [match ?c with Some _ => _ | None => None end] =>
      destruct c as [c_amount|]; [|discriminate]
  end.
  intros [= <-] Hin. apply in_collect in Hin.
  destruct Hin as (r & Hr & Ht). unfold alipay_row in Ht.
  destruct (_clean_amount _) as [amt|]; [|discriminate].
  injection Ht as <-. exists r, amt. repeat split; assumption.
Qed.

Lemma parse_wechat_row (df : DataFrame) (out : list Txn.t) (t : Txn.t) :
  parse_wechat df = Some out -> In t out ->
  exists r amt,
    In r (iterrows df) /\
    Txn.amount t = SFabs amt /\
    Txn.type t = wechat_type (wechat_io df r) (wechat_typ df r).
Proof.
  unfold parse_wechat.
  destruct (pick (df_columns df) _) as [c_time|]; [|discriminate].
  match goal with
  | |- context [match ?c with Some _ => _ | None => None end] =>
      destruct c as [c_amount|]; [|discriminate]
  end.
  intros [= <-] Hin. apply in_collect in Hin.
  destruct Hin as (r & Hr & Ht). unfold wechat_row in Ht.
  destruct (_clean_amount _) as [amt|]; [|discriminate].
  injection Ht as <-. exists r, amt. repeat split; assumption.
Qed.

(** The rows a loop keeps stand, one for one and in order, against the
    rows of the table that [g] answers for. *)
Lemma collect_Forall2 {A B C : Type} (f : A -> option B) (g : A -> option C)
  (P : A -> B -> Prop) (l : list A) :
  (forall a, match f a, g a with
             | Some b, Some _ => P a b
             | None, None => True
             | _, _ => False
             end) ->
  Forall2 P (filter (fun a => match g a with
                              | Some _ => true
                              | None => false
                              end) l)
          (collect f l).
Proof.
  intros H. induction l as [|a l IH]; simpl; [constructor|].
  specialize (H a). destruct (f a), (g a); try contradiction;
    [constructor; assumption | assumption].
Qed.

(** Row for row: [parse_alipay] emits one row for each row of the table
    that has an amount, with the absolute value of that amount and the
    direction of that row's [io]. *)
Lemma parse_alipay_rows (df : DataFrame) (out : list Txn.t) :
  parse_alipay df = Some out ->
  Forall2 (fun r t =>
             exists amt, alipay_amount df r = Some amt /\
                         Txn.amount t = SFabs amt /\
                         Txn.type t = alipay_type (alipay_io df r))
          (priced_rows (alipay_amount df) (iterrows df)) out.
Proof.
  unfold parse_alipay.
  destruct (pick (df_columns df) _) as [c_time|]; [|discriminate].
  destruct (pick (df_columns df)
                 [u "金额（元）"; u "金额(元)"; u "金额"; u "交易金额"])
    as [c_amount|] eqn:Ea; [|discriminate].
  intros [= <-]. apply collect_Forall2. intros r.
  unfold alipay_row, alipay_amount. rewrite Ea.
  destruct (_clean_amount _) as [amt|]; [|exact I].
  exists amt. repeat split.
Qed.

Lemma parse_wechat_rows (df : DataFrame) (out : list Txn.t) :
  parse_wechat df = Some out ->
  Forall2 (fun r t =>
             exists amt, wechat_amount df r = Some amt /\
                         Txn.amount t = SFabs amt /\
                         Txn.type t
                         = wechat_type (wechat_io df r) (wechat_typ df r))
          (priced_rows (wechat_amount df) (iterrows df)) out.
Proof.
  unfold parse_wechat.
  destruct (pick (df_columns df) _) as [c_time|]; [|discriminate].
  destruct (pick (df_columns df)
                 [u "金额(元)"; u "金额（元）"; u "金额"; u "交易金额(元)"])
    as [c_amount|] eqn:Ea; [|discriminate].
  intros [= <-]. apply collect_Forall2. intros r.
  unfold wechat_row, wechat_amount. rewrite Ea.
  destruct (_clean_amount _) as [amt|]; [|exact I].
  exists amt. repeat split.
Qed.

Lemma adapt_amount (df : DataFrame) (out : list Txn.t) (t : Txn.t) :
  adapt df = Some out -> In t out ->
  Txn.amount t = S754_nan \/ non_negative (Txn.amount t).
Proof.
  unfold adapt. intros Hout Hin.
  destruct (parse_alipay df) as [out'|] eqn:Ea.
  - injection Hout as ->.
    destruct (parse_alipay_row _ _ _ Ea Hin) as (r & amt & _ & -> & _).
    apply abs_not_negative.
  - destruct (parse_wechat_row _ _ _ Hout Hin) as (r & amt & _ & -> & _).
    apply abs_not_negative.
Qed.

End Adapters.

(** ** Merger *)

Lemma in_take {A : Type} (rows : list A) (indexer : list nat) (x : A) :
  In x (take rows indexer) -> In x rows.
Proof.
  unfold take. rewrite in_flat_map. intros (i & _ & Hx).
  destruct (nth_error rows i) as [r|] eqn:E; [|contradiction].
  destruct Hx as [<-|[]]. eapply nth_error_In, E.
Qed.

Lemma take_map {A B : Type} (f : A -> B) (rows : list A)
  (indexer : list nat) :
  take (map f rows) indexer = map f (take rows indexer).
Proof.
  unfold take. induction indexer as [|i l IH]; simpl; [reflexivity|].
  rewrite map_app, IH, nth_error_map.
  now destruct (nth_error rows i).
Qed.

Lemma take_seq_app {A : Type} (pre rows : list A) :
  take (pre ++ rows) (seq (length pre) (length rows)) = rows.
Proof.
  revert pre. induction rows as [|r rows IH]; intros pre; [reflexivity|].
  cbn [length seq]. unfold take. cbn [flat_map].
  rewrite nth_error_app2, Nat.sub_diag by lia. simpl. f_equal.
  specialize (IH (pre ++ [r])).
  rewrite <- app_assoc, length_app, Nat.add_1_r in IH. exact IH.
Qed.

Lemma take_seq {A : Type} (rows : list A) :
  take rows (seq 0 (length rows)) = rows.
Proof. apply (take_seq_app []). Qed.

Lemma take_perm {A : Type} (rows : list A) (l l' : list nat) :
  Permutation l l' -> Permutation (take rows l) (take rows l').
Proof. apply Permutation_flat_map. Qed.

Lemma take_indices (ks : list Z) (l : list nat) :
  Forall (fun i => (i < length ks)%nat) l ->
  take ks l = map (fun i => nth i ks 0%Z) l.
Proof.
  unfold take. induction 1 as [|i l Hi _ IH]; simpl; [reflexivity|].
  rewrite IH, (nth_error_nth' ks 0%Z Hi). reflexivity.
Qed.

Lemma StronglySorted_map {A B : Type} (f : A -> B) (R : B -> B -> Prop)
  (l : list A) :
  StronglySorted R (map f l) <->
  StronglySorted (fun a b => R (f a) (f b)) l.
Proof.
  induction l as [|a l IH]; simpl.
  - split; constructor.
  - split; intros H; inversion_clear H as [|? ? Hs Hf]; constructor.
    + now apply IH.
    + now rewrite Forall_map in Hf.
    + now apply IH.
    + now rewrite Forall_map.
Qed.

Lemma filter_perm {A : Type} (f : A -> bool) (l l' : list A) :
  Permutation l l' -> Permutation (filter f l) (filter f l').
Proof.
  induction 1 as [|a l l' _ IH|a b l|l1 l2 l3 _ IH1 _ IH2]; simpl.
  - constructor.
  - destruct (f a); [now constructor | exact IH].
  - destruct (f a), (f b); try reflexivity. apply perm_swap.
  - now transitivity (filter f l2).
Qed.

Lemma collect_perm {A B : Type} (f : A -> option B) (l l' : list A) :
  Permutation l l' -> Permutation (collect f l) (collect f l').
Proof.
  induction 1 as [|a l l' _ IH|a b l|l1 l2 l3 _ IH1 _ IH2]; simpl.
  - constructor.
  - destruct (f a); [now constructor | exact IH].
  - destruct (f a), (f b); try reflexivity. apply perm_swap.
  - now transitivity (collect f l2).
Qed.

Lemma concat_perm {A : Type} (l l' : list (list A)) :
  Permutation l l' -> Permutation (concat l) (concat l').
Proof.
  induction 1 as [|a l l' _ IH|a b l|l1 l2 l3 _ IH1 _ IH2]; simpl.
  - constructor.
  - now apply Permutation_app_head.
  - rewrite !app_assoc. apply Permutation_app_tail, Permutation_app_comm.
  - now transitivity (concat l2).
Qed.

(** Two lists in ascending order of a key that hold the same elements,
    no two of them with one key, are one list. *)
Lemma sorted_perm_unique {A : Type} (key : A -> Z) (l l' : list A) :
  StronglySorted (fun a b => (key a <= key b)%Z) l ->
  StronglySorted (fun a b => (key a <= key b)%Z) l' ->
  Permutation l l' -> NoDup (map key l) -> l = l'.
Proof.
  intros Hl. revert l'.
  induction Hl as [|a l Hl IH Ha]; intros l' Hl' Hp Hnd.
  - now apply Permutation_nil in Hp.
  - destruct l' as [|b l'].
    + symmetry in Hp. now apply Permutation_nil in Hp.
    + inversion_clear Hl' as [|? ? Hl'' Hb].
      inversion_clear Hnd as [|? ? Hna Hnd'].
      assert (a = b) as <-.
      { assert (Hina : In a (b :: l'))
          by (eapply Permutation_in; [exact Hp | now left]).
        assert (Hinb : In b (a :: l))
          by (eapply Permutation_in; [symmetry; exact Hp | now left]).
        destruct Hina as [->|Hina]; [reflexivity|].
        destruct Hinb as [->|Hinb]; [reflexivity|].
        rewrite Forall_forall in Ha, Hb.
        specialize (Ha _ Hinb). specialize (Hb _ Hina).
        exfalso. apply Hna. replace (key a) with (key b) by lia.
        now apply in_map. }
      f_equal. apply IH; [assumption | | assumption].
      now apply Permutation_cons_inv in Hp.
Qed.

Section Merger.
Context {U : Unicode} {R : Regex} {F : FloatText} {D : DateText}.

Lemma validated_perm (files files' : list (option DataFrame)) :
  Permutation files files' ->
  Permutation (validated files) (validated files').
Proof.
  intros Hp. unfold validated, dropna, parsed_files.
  apply filter_perm, Permutation_map, concat_perm, collect_perm, Hp.
Qed.

Lemma parsed_files_nil (files files' : list (option DataFrame)) :
  Permutation files files' ->
  parsed_files files = [] -> parsed_files files' = [].
Proof.
  intros Hp E.
  assert (H : Permutation (parsed_files files) (parsed_files files'))
    by (unfold parsed_files; now apply collect_perm).
  rewrite E in H. now apply Permutation_nil in H.
Qed.

Lemma classify_rows_labelled (r : Rule.t) (rules : list Rule.t)
  (rows : list Txn.t) :
  classify_rows (r :: rules) rows = Ok (map (labelled (r :: rules)) rows).
Proof.
  induction rows as [|t rows IH]; [reflexivity|].
  cbn [classify_rows map]. unfold _classify.
  rewrite classify_loop_first_match, IH. reflexivity.
Qed.

Lemma txn_labelled (rules : list Rule.t) (rows : list Txn.t) :
  map txn (map (labelled rules) rows) = rows.
Proof. rewrite map_map. simpl. apply map_id. Qed.

Context {A : ArgSort}.

(** What [main] does: it writes [merge] with the two category columns,
    unless it returns early or finds no row at all. *)
Lemma main_runs (files : list (option DataFrame))
  (rule_file : option DataFrame) :
  main files rule_file =
  match files, parsed_files files with
  | _ :: _, _ :: _ =>
      match concat (parsed_files files) with
      | [] => Raise KeyError
      | _ :: _ =>
          Ok (Some (map (labelled (_load_category_rules rule_file))
                        (merge files)))
      end
  | _, _ => Ok None
  end.
Proof.
  unfold main. destruct files as [|f files]; [reflexivity|].
  destruct (parsed_files (f :: files)) as [|df dfs]; [reflexivity|].
  cbv zeta. destruct (concat (df :: dfs)); [reflexivity|].
  destruct (_load_category_rules rule_file) as [|r rules]; [reflexivity|].
  now rewrite classify_rows_labelled.
Qed.

(** What [main] wrote, when it wrote. *)
Lemma main_written (files : list (option DataFrame))
  (rule_file : option DataFrame) (ledger : list LedgerRow) :
  main files rule_file = Ok (Some ledger) ->
  ledger = map (labelled (_load_category_rules rule_file)) (merge files).
Proof.
  rewrite main_runs. destruct files as [|f files]; [discriminate|].
  destruct (parsed_files (f :: files)) as [|df dfs]; [discriminate|].
  destruct (concat (df :: dfs)); [discriminate|].
  now intros [= <-].
Qed.

(** [main] writes as soon as one adapter emitted one row. *)
Lemma main_writes (files : list (option DataFrame))
  (rule_file : option DataFrame) :
  concat (parsed_files files) <> [] ->
  main files rule_file
  = Ok (Some (map (labelled (_load_category_rules rule_file))
                  (merge files))).
Proof.
  intros Hrows. rewrite main_runs.
  destruct files as [|f files]; [now elim Hrows|].
  destruct (parsed_files (f :: files)) as [|df dfs]; [now elim Hrows|].
  destruct (concat (df :: dfs)); [now elim Hrows | reflexivity].
Qed.

Lemma merge_validated (files : list (option DataFrame)) :
  merge files = sort_values (validated files).
Proof. reflexivity. Qed.

Context {L : ArgSortLaws A}.

Lemma sort_values_perm (rows : list Txn.t) :
  Permutation (sort_values rows) rows.
Proof.
  unfold sort_values.
  rewrite (take_perm rows _ _ (argsort_perm (map date_key rows))).
  rewrite length_map, take_seq. reflexivity.
Qed.

Lemma sort_values_ascending (rows : list Txn.t) :
  ascending (sort_values rows).
Proof.
  unfold ascending, sort_values.
  apply (StronglySorted_map date_key Z.le).
  rewrite <- take_map. apply argsort_sorted.
Qed.

End Merger.

(** ** The two insertion sorts keep the promise of a sort *)

Section InsertionArgsort.
Variable skip : Z -> Z -> bool.
Hypothesis skip_true : forall a b, skip a b = true -> (a <= b)%Z.
Hypothesis skip_false : forall a b, skip a b = false -> (b <= a)%Z.
Variable ks : list datetime.

Let key (i : nat) : Z := nth i ks 0%Z.

Lemma insert_index_perm (i : nat) (l : list nat) :
  Permutation (insert_index skip ks i l) (i :: l).
Proof.
  induction l as [|j l IH]; simpl; [reflexivity|].
  destruct (skip _ _); [|reflexivity].
  rewrite IH. apply perm_swap.
Qed.

Lemma insert_index_sorted (i : nat) (l : list nat) :
  StronglySorted (fun a b => (key a <= key b)%Z) l ->
  StronglySorted (fun a b => (key a <= key b)%Z) (insert_index skip ks i l).
Proof.
  induction 1 as [|j l Hl IH Hj]; simpl.
  - repeat constructor.
  - destruct (skip (nth j ks 0%Z) (nth i ks 0%Z)) eqn:E.
    + apply skip_true in E. constructor; [exact IH|].
      rewrite (insert_index_perm i l). constructor; [exact E | exact Hj].
    + apply skip_false in E. constructor; [now constructor|].
      constructor; [exact E|].
      eapply Forall_impl; [|exact Hj].
      intros a Ha. cbv beta in Ha. unfold key in *. lia.
Qed.

Lemma insertion_argsort_perm :
  Permutation (insertion_argsort skip ks) (seq 0 (length ks)).
Proof.
  unfold insertion_argsort.
  induction (seq 0 (length ks)) as [|i l IH]; simpl; [reflexivity|].
  rewrite insert_index_perm. now constructor.
Qed.

Lemma insertion_argsort_sorted :
  StronglySorted Z.le (take ks (insertion_argsort skip ks)).
Proof.
  rewrite take_indices.
  - apply (StronglySorted_map key Z.le).
    unfold insertion_argsort.
    induction (seq 0 (length ks)) as [|i l IH]; simpl.
    + constructor.
    + now apply insert_index_sorted.
  - rewrite Forall_forall. intros i Hi.
    apply (Permutation_in _ insertion_argsort_perm) in Hi.
    apply in_seq in Hi. cbv beta. simpl in Hi. apply Hi.
Qed.

End InsertionArgsort.

#[export] Instance stable_argsort_laws : ArgSortLaws stable_argsort.
Proof.
  split; intros ks; simpl.
  - apply insertion_argsort_perm.
  - apply insertion_argsort_sorted; intros a b H.
    + apply Z.ltb_lt in H. lia.
    + apply Z.ltb_ge in H. lia.
Qed.

(** ** Amounts, directions and the order of the ledger *)

Lemma in_to_datetime64 (rows : list Txn.t) (t : Txn.t) :
  In t (dropna (map to_datetime64 rows)) ->
  exists t0, In t0 rows /\ Txn.amount t = Txn.amount t0 /\
             Txn.amount t <> S754_nan.
Proof.
  unfold dropna. rewrite filter_In, in_map_iff.
  intros [(t0 & <- & Hin) Hkeep]. exists t0. repeat split; [exact Hin|].
  simpl in *. destruct (match Txn.date t0 with Some _ => _ | None => _ end);
    [|discriminate].
  intros E. rewrite E in Hkeep. discriminate.
Qed.

Lemma in_parsed_files `{FloatText} `{DateText}
  (files : list (option DataFrame)) (t : Txn.t) :
  In t (concat (parsed_files files)) ->
  exists df out, adapt df = Some out /\ In t out.
Proof.
  rewrite in_concat. intros (out & Hout & Hin).
  unfold parsed_files in Hout. apply in_collect in Hout.
  destruct Hout as ([df0|] & _ & Hdf); [|discriminate]. eauto.
Qed.

(** C6, as amended: row for row, the amount an adapter stores is the
    absolute value of the number [float] reads in the cleaned amount text
    of that row.  It is NaN exactly when that number is NaN (the cleaned
    text spells a not-a-number, as in (nan)), and at least zero otherwise;
    the merger drops the NaN rows, so every amount of the ledger is at
    least zero.  From the text (¥1,234.50) the Alipay adapter stores
    1234.5, [float] reading -1234.50 as that number negated. *)
Theorem adapter_amounts_not_negative (F : FloatText) (D : DateText) :
  (forall df out,
      parse_alipay df = Some out ->
      Forall2 (fun r t =>
                 option_map SFabs (alipay_amount df r) = Some (Txn.amount t))
              (priced_rows (alipay_amount df) (iterrows df)) out) /\
  (forall df out,
      parse_wechat df = Some out ->
      Forall2 (fun r t =>
                 option_map SFabs (wechat_amount df r) = Some (Txn.amount t))
              (priced_rows (wechat_amount df) (iterrows df)) out) /\
  (forall amt : float,
      (SFabs amt = S754_nan <-> amt = S754_nan) /\
      (amt <> S754_nan -> non_negative (SFabs amt))) /\
  (forall df out t,
      parse_alipay df = Some out \/ parse_wechat df = Some out ->
      In t out ->
      Txn.amount t = S754_nan \/ non_negative (Txn.amount t)) /\
  (forall (U : Unicode) (R : Regex) (A : ArgSort) files rule_file ledger row,
      main files rule_file = Ok (Some ledger) -> In row ledger ->
      non_negative (Txn.amount (txn row))) /\
  (py_float (u "-1234.50") = Ok (S754_finite true 5429388417957888 (-42)) ->
   forall date payee,
   exists t,
     parse_alipay (alipay_file date "(¥1,234.50)" payee) = Some [t] /\
     Txn.amount t = S754_finite false 5429388417957888 (-42)).
Proof.
  split; [|split; [|split; [|split; [|split]]]].
  - intros df out Hout.
    eapply Forall2_impl; [|exact (parse_alipay_rows df out Hout)].
    intros r t (amt & -> & -> & _). reflexivity.
  - intros df out Hout.
    eapply Forall2_impl; [|exact (parse_wechat_rows df out Hout)].
    intros r t (amt & -> & -> & _). reflexivity.
  - intros amt. split.
    + destruct amt; simpl; split; congruence.
    + intros Hn. destruct amt; try reflexivity. now elim Hn.
  - intros df out t [Hout|Hout] Hin.
    + destruct (parse_alipay_row _ _ _ Hout Hin) as (r & amt & _ & -> & _).
      apply abs_not_negative.
    + destruct (parse_wechat_row _ _ _ Hout Hin) as (r & amt & _ & -> & _).
      apply abs_not_negative.
  - intros U R A files rule_file ledger row Hmain Hin.
    apply main_written in Hmain. subst ledger.
    apply in_map_iff in Hin. destruct Hin as (t & <- & Hin).
    cbn [labelled txn]. rewrite merge_validated in Hin.
    apply in_take in Hin. unfold validated in Hin.
    apply in_to_datetime64 in Hin. destruct Hin as (t0 & Hin & Ht & Hnan).
    apply in_parsed_files in Hin. destruct Hin as (df & out & Hout & Hin).
    destruct (adapt_amount _ _ _ Hout Hin) as [E0|Hpos].
    + rewrite Ht, E0 in Hnan. contradiction.
    + now rewrite Ht.
  - intros Hfloat date payee.
    change (py_float (u "-1234.50")
            = Ok (S754_finite true 5429388417957888 (-42))) in Hfloat.
    vm_compute u in Hfloat.
    unfold parse_alipay, alipay_file. cbn [df_columns].
    repeat match goal with
           | |- context [pick ?c ?a] =>
               let x := eval vm_compute in (pick c a) in
               change (pick c a) with x
           end.
    unfold iterrows. cbn [df_columns df_rows map collect].
    unfold alipay_row.
    match goal with
    | |- context [_clean_amount ?x] =>
        let x' := eval vm_compute in x in change x with x'
    end.
    unfold _clean_amount. cbn [isna py_str].
    match goal with
    | |- context [py_float ?s] =>
        let s' := eval vm_compute in s in change s with s'
    end.
    rewrite Hfloat. eexists. split; reflexivity.
Qed.

(** An Alipay export with the amount of scenario 4: the row is stored
    with the amount 1234.5. *)
Lemma adapter_amounts_witness :
  exists t,
    parse_alipay (alipay_file "2024-01-05" "(¥1,234.50)" "甲") = Some [t] /\
    Txn.amount t = S754_finite false 5429388417957888 (-42) /\
    non_negative (Txn.amount t).
Proof.
  destruct (proj2 (proj2 (proj2 (proj2 (proj2
              (adapter_amounts_not_negative decimal_float digit_dates)))))
              eq_refl "2024-01-05"%string "甲"%string) as (t & Ht & Ha).
  exists t. split; [exact Ht|]. split; [exact Ha|].
  rewrite Ha. reflexivity.
Defined.

(** C6 as stated fails: in the amount (nan) the parenthesis becomes a
    minus sign, [float] reads -nan as NaN, and the adapter stores it; NaN
    is not at least zero. *)
Lemma adapter_stores_nan :
  exists t,
    parse_alipay (alipay_file "2024-01-05" "(nan)" "甲") = Some [t] /\
    Txn.amount t = S754_nan /\
    SFleb (S754_zero false) (Txn.amount t) = false.
Proof. eexists. repeat split. Qed.

Lemma wechat_type_cases (io typ : str) :
  (io = Expense -> wechat_type io typ = Expense) /\
  (io = Income -> wechat_type io typ = Income) /\
  (io <> Expense -> io <> Income ->
   (wechat_type io typ = Income <->
    exists k, In k inflow_keywords /\ contains k typ = true)) /\
  (wechat_type io typ = Expense \/ wechat_type io typ = Income).
Proof.
  unfold wechat_type. fold Expense Income inflow_keywords.
  destruct (str_eqb io Expense) eqn:E1; [|destruct (str_eqb io Income) eqn:E2].
  - apply str_eqb_eq in E1. subst io.
    repeat split; auto; try discriminate; try congruence.
  - apply str_eqb_eq in E2. subst io.
    repeat split; auto; try discriminate; try congruence.
  - assert (N1 : io <> Expense) by (intros ->; now rewrite (proj2 (str_eqb_eq _ _)) in E1).
    assert (N2 : io <> Income) by (intros ->; now rewrite (proj2 (str_eqb_eq _ _)) in E2).
    split; [intros; contradiction|]. split; [intros; contradiction|].
    match goal with
    | |- context [existsb ?f ?l] => destruct (existsb f l) eqn:Ex
    end.
    + split; [|now right]. intros _ _. split; [|reflexivity].
      intros _. apply existsb_exists in Ex. exact Ex.
    + split; [|now left]. intros _ _. split; [discriminate|].
      intros (k & Hk). exfalso.
      rewrite (proj2 (existsb_exists _ _)) in Ex; [discriminate|].
      exists k. exact Hk.
Qed.

Lemma alipay_type_cases (io : str) :
  (io = u "支出" \/ io = u "转出" -> alipay_type io = Expense) /\
  (io = u "收入" \/ io = u "转入" -> alipay_type io = Income) /\
  (io <> u "支出" -> io <> u "转出" -> io <> u "收入" -> io <> u "转入" ->
   alipay_type io = Expense) /\
  (alipay_type io = Expense \/ alipay_type io = Income).
Proof.
  unfold alipay_type, str_in. cbn [existsb].
  repeat split.
  - intros [->| ->]; reflexivity.
  - intros [->| ->]; reflexivity.
  - intros H1 H2 H3 H4.
    repeat match goal with
           | |- context [str_eqb io ?s] =>
               let E := fresh in
               destruct (str_eqb io s) eqn:E;
               [apply str_eqb_eq in E; contradiction|]
           end.
    reflexivity.
  - repeat match goal with
           | |- context [if ?b then _ else _] => destruct b
           end; auto.
Qed.

(** C9, as amended: each row an adapter emits has the type its own row of
    the table decides.  In the WeChat adapter the indicator texts 支出 and
    收入 of the row decide the type; any other indicator leaves it to the
    type text of the row as it is read (stripped, not normalized), which
    gives Income exactly when it contains 退款, 转入 or 收入.  In the Alipay
    adapter the indicator texts 支出 and 转出 of the row give Expense,
    收入 and 转入 give Income, anything else Expense; no other text is
    read.  The type is always one of the two values. *)
Theorem adapter_direction (F : FloatText) (D : DateText) (df : DataFrame)
  (out : list Txn.t) :
  (parse_wechat df = Some out ->
   Forall2 (fun r t =>
      let io := wechat_io df r in
      let typ := wechat_typ df r in
      (io = Expense -> Txn.type t = Expense) /\
      (io = Income -> Txn.type t = Income) /\
      (io <> Expense -> io <> Income ->
       (Txn.type t = Income <->
        exists k, In k inflow_keywords /\ contains k typ = true)))
     (priced_rows (wechat_amount df) (iterrows df)) out) /\
  (parse_alipay df = Some out ->
   Forall2 (fun r t =>
      let io := alipay_io df r in
      (io = u "支出" \/ io = u "转出" -> Txn.type t = Expense) /\
      (io = u "收入" \/ io = u "转入" -> Txn.type t = Income) /\
      (io <> u "支出" -> io <> u "转出" -> io <> u "收入" ->
       io <> u "转入" -> Txn.type t = Expense))
     (priced_rows (alipay_amount df) (iterrows df)) out) /\
  (parse_alipay df = Some out \/ parse_wechat df = Some out ->
   forall t, In t out -> Txn.type t = Expense \/ Txn.type t = Income).
Proof.
  split; [|split].
  - intros Hout.
    eapply Forall2_impl; [|exact (parse_wechat_rows df out Hout)].
    intros r t (amt & _ & _ & ->). cbv zeta.
    destruct (wechat_type_cases (wechat_io df r) (wechat_typ df r))
      as (H1 & H2 & H3 & _).
    auto.
  - intros Hout.
    eapply Forall2_impl; [|exact (parse_alipay_rows df out Hout)].
    intros r t (amt & _ & _ & ->). cbv zeta.
    destruct (alipay_type_cases (alipay_io df r)) as (H1 & H2 & H3 & _).
    auto.
  - intros [Hout|Hout] t Hin.
    + destruct (parse_alipay_row _ _ _ Hout Hin) as (r & amt & _ & _ & ->).
      apply alipay_type_cases.
    + destruct (parse_wechat_row _ _ _ Hout Hin) as (r & amt & _ & _ & ->).
      apply wechat_type_cases.
Qed.

(** A WeChat export of three rows and an Alipay export of two: each row
    comes out with the type of its own indicator, and the third WeChat
    row, which has none, with the type its own type text gives. *)
Lemma adapter_direction_witness :
  option_map (map Txn.type) (parse_wechat wechat_three_directions)
  = Some [Income; Expense; Income] /\
  option_map (map Txn.type) (parse_alipay alipay_two_directions)
  = Some [Income; Expense].
Proof.
  split.
  - destruct (parse_wechat wechat_three_directions) as [out|] eqn:E;
      [|vm_compute in E; discriminate E].
    pose proof (proj1 (adapter_direction decimal_float digit_dates _ _) E)
      as H.
    assert (Hp : priced_rows (wechat_amount wechat_three_directions)
                             (iterrows wechat_three_directions)
                 = iterrows wechat_three_directions)
      by (vm_compute; reflexivity).
    rewrite Hp in H. unfold iterrows in H.
    cbn [wechat_three_directions df_rows map] in H.
    inversion H as [|r1 t1 l1 out1 (_ & H1 & _) Hb]; subst.
    inversion Hb as [|r2 t2 l2 out2 (H2 & _ & _) Hc]; subst.
    inversion Hc as [|r3 t3 l3 out3 (_ & _ & H3) Hd]; subst.
    inversion Hd; subst.
    cbn [option_map map]. f_equal. f_equal; [|f_equal; [|f_equal]].
    + apply H1. vm_compute. reflexivity.
    + apply H2. vm_compute. reflexivity.
    + apply H3; [vm_compute; discriminate | vm_compute; discriminate |].
      exists (u "退款"). split; [now left | vm_compute; reflexivity].
  - destruct (parse_alipay alipay_two_directions) as [out|] eqn:E;
      [|vm_compute in E; discriminate E].
    pose proof (proj1 (proj2 (adapter_direction decimal_float digit_dates
                                _ _)) E) as H.
    assert (Hp : priced_rows (alipay_amount alipay_two_directions)
                             (iterrows alipay_two_directions)
                 = iterrows alipay_two_directions)
      by (vm_compute; reflexivity).
    rewrite Hp in H. unfold iterrows in H.
    cbn [alipay_two_directions df_rows map] in H.
    inversion H as [|r1 t1 l1 out1 (_ & H1 & _) Hb]; subst.
    inversion Hb as [|r2 t2 l2 out2 (H2 & _ & _) Hc]; subst.
    inversion Hc; subst.
    cbn [option_map map]. f_equal. f_equal; [|f_equal].
    + apply H1. right. vm_compute. reflexivity.
    + apply H2. left. vm_compute. reflexivity.
Defined.

(** C9 as stated fails: the WeChat adapter reads the type text without
    normalizing it.  With a zero-width space inside 退款 the text as read
    holds no keyword and the row is an Expense; its normal form holds the
    keyword, which under section 4.2 makes it an Income. *)
Lemma wechat_type_text_not_normalized :
  let typ := [0x9000; ZWSP; 0x6B3E] in
  parse_alipay (wechat_file typ) = None /\
  (exists t, parse_wechat (wechat_file typ) = Some [t] /\
             Txn.type t = Expense) /\
  _normalize_text (Some typ) = u "退款" /\
  spec_direction [] typ = Income /\
  Expense <> Income.
Proof.
  intros typ. split; [reflexivity|].
  split; [eexists; split; reflexivity|].
  repeat split. discriminate.
Qed.

Lemma same_rows (rows : list Txn.t) : Forall2 same_row rows rows.
Proof.
  induction rows as [|t rows IH]; constructor; [|exact IH].
  unfold same_row, retyped. tauto.
Qed.

(** C7, as amended: the ledger [main] writes has one row for each
    validated row, with the date, the type, the amount and the platform of
    that row and its other cells as pandas may have re-typed them, in
    ascending order of date: for every pair of rows the earlier date comes
    first.  [main] does write one as soon as an adapter
    emitted a row, the labels of the rule table being distinct.  The order
    of rows with equal dates is the sort's own: [sort_values] is called
    with its default [kind], which promises no stability. *)
Theorem ledger_sorted_by_date (U : Unicode) (R : Regex) (F : FloatText)
  (D : DateText) (A : ArgSort) (L : ArgSortLaws A)
  (files : list (option DataFrame)) (rule_file : option DataFrame) :
  (forall ledger,
      main files rule_file = Ok (Some ledger) ->
      ascending (map txn ledger) /\
      exists rows, Permutation rows (validated files) /\
                   Forall2 same_row rows (map txn ledger)) /\
  (distinct_labels rule_file ->
   concat (parsed_files files) <> [] ->
   exists ledger, main files rule_file = Ok (Some ledger)).
Proof.
  split.
  - intros ledger Hl. apply main_written in Hl. subst ledger.
    rewrite txn_labelled, merge_validated.
    split; [apply sort_values_ascending|].
    exists (sort_values (validated files)).
    split; [apply sort_values_perm | apply same_rows].
  - intros _ Hrows. eexists. now apply main_writes.
Qed.

(** Two Alipay exports, the later one first, merged under the stable
    sort: the row of January comes out before the row of March. *)
Lemma ledger_sorted_by_date_witness :
  exists ledger,
    main [Some (alipay_file "2024-03-01" "20" "乙");
          Some (alipay_file "2024-01-05" "12.50" "甲")] None
    = Ok (Some ledger) /\
    map (fun row => Txn.merchant (txn row)) ledger
    = [PStr (u "甲"); PStr (u "乙")] /\
    ascending (map txn ledger).
Proof.
  destruct (ledger_sorted_by_date table_unicode literal_regex decimal_float
              digit_dates stable_argsort stable_argsort_laws
              [Some (alipay_file "2024-03-01" "20" "乙");
               Some (alipay_file "2024-01-05" "12.50" "甲")] None)
    as (Hledger & Hwrites).
  destruct Hwrites as (ledger & Hmain);
    [exact I | vm_compute; discriminate|].
  exists ledger. split; [exact Hmain|].
  split; [|exact (proj1 (Hledger ledger Hmain))].
  vm_compute in Hmain. now injection Hmain as <-.
Defined.

(** C7 as stated fails in its second half: [main] sorts with numpy's
    quicksort, which is an insertion sort up to 17 rows and a quicksort
    beyond.  Of eighteen rows of one time, payees A to R, the ledger has
    the second to the sixteenth in the opposite order. *)
Lemma ledger_ties_reordered :
  exists ledger : list LedgerRow,
    @main table_unicode literal_regex decimal_float digit_dates
          quicksort_argsort [Some alipay_same_time] None
    = Ok (Some ledger) /\
    map (fun row => Txn.merchant (txn row)) ledger
    = map (fun i => PStr [0x41 + N.of_nat i])
          [0; 15; 14; 13; 12; 11; 10; 9; 8; 7; 6; 5; 4; 3; 2; 1; 16; 17]%nat
    /\
    map Txn.merchant (validated [Some alipay_same_time])
    = map (fun i => PStr [0x41 + N.of_nat i]) (seq 0 18) /\
    map (fun row => date_key (txn row)) ledger
    = repeat 1704456000000000000%Z 18 /\
    ~ same_date_in_order (validated [Some alipay_same_time])
                         (map txn ledger).
Proof.
  eexists.
  split; [vm_compute; reflexivity|].
  split; [vm_compute; reflexivity|].
  split; [vm_compute; reflexivity|].
  split; [vm_compute; reflexivity|].
  intros H. specialize (H 1704456000000000000%Z).
  vm_compute in H. discriminate H.
Qed.

(** The permutation numpy's quicksort answers for eighteen equal keys. *)
Example numpy_quicksort_reorders_ties :
  numpy_argsort (repeat 1704456000000000000%Z 18)
  = Some [0; 15; 14; 13; 12; 11; 10; 9; 8; 7; 6; 5; 4; 3; 2; 1; 16; 17]%nat.
Proof. vm_compute. reflexivity. Qed.

Section MergeOrder.
Context {U : Unicode} {R : Regex} {F : FloatText} {D : DateText}.
Context {A : ArgSort} {L : ArgSortLaws A}.

Lemma merge_perm (files files' : list (option DataFrame)) :
  Permutation files files' -> Permutation (merge files) (merge files').
Proof.
  intros Hp. rewrite !merge_validated, !sort_values_perm.
  now apply validated_perm.
Qed.

Lemma merge_unique (files files' : list (option DataFrame)) :
  Permutation files files' ->
  NoDup (map date_key (validated files)) ->
  merge files = merge files'.
Proof.
  intros Hp Hnd.
  apply (sorted_perm_unique date_key).
  - rewrite merge_validated. apply sort_values_ascending.
  - rewrite merge_validated. apply sort_values_ascending.
  - now apply merge_perm.
  - rewrite merge_validated.
    eapply Permutation_NoDup; [|exact Hnd].
    apply Permutation_map. symmetry. apply sort_values_perm.
Qed.

End MergeOrder.

(** C8, as amended: merging the same files in another order writes a
    ledger with the same rows, sorted by date like the first; the two
    ledgers are identical, row for row, when no two validated rows have
    the same date. *)
Theorem merge_file_order (U : Unicode) (R : Regex) (F : FloatText)
  (D : DateText) (A : ArgSort) (L : ArgSortLaws A)
  (files files' : list (option DataFrame)) (rule_file : option DataFrame) :
  Permutation files files' ->
  (forall ledger,
      main files rule_file = Ok (Some ledger) ->
      exists ledger',
        main files' rule_file = Ok (Some ledger') /\
        Permutation ledger ledger' /\
        ascending (map txn ledger) /\ ascending (map txn ledger')) /\
  (NoDup (map date_key (validated files)) ->
   main files rule_file = main files' rule_file).
Proof.
  intros Hp.
  assert (Hnil : files = [] <-> files' = []).
  { split; intros ->; [|symmetry in Hp]; now apply Permutation_nil in Hp. }
  assert (Hpnil : parsed_files files = [] <-> parsed_files files' = []).
  { split; apply parsed_files_nil; [|symmetry]; exact Hp. }
  assert (Hcp : Permutation (concat (parsed_files files))
                            (concat (parsed_files files')))
    by (unfold parsed_files; now apply concat_perm, collect_perm).
  assert (Hcnil : concat (parsed_files files) = [] <->
                  concat (parsed_files files') = []).
  { split; intros E; rewrite E in Hcp; [|symmetry in Hcp];
      now apply Permutation_nil in Hcp. }
  split.
  - intros ledger Hl.
    assert (Hrows : concat (parsed_files files') <> []).
    { intros E. apply Hcnil in E. rewrite main_runs, E in Hl.
      destruct files as [|f files]; [discriminate|].
      destruct (parsed_files (f :: files)); discriminate. }
    apply main_written in Hl. subst ledger.
    eexists. split; [now apply main_writes|].
    rewrite !txn_labelled, !merge_validated.
    split; [|split; apply sort_values_ascending].
    apply Permutation_map. rewrite <- !merge_validated.
    now apply merge_perm.
  - intros Hnd. rewrite !main_runs.
    rewrite (merge_unique files files' Hp Hnd).
    destruct files as [|f files]; destruct files' as [|f' files'];
      try reflexivity; try (now destruct Hnil as [H1 H2];
                            first [discriminate H1 | discriminate H2]).
    destruct (parsed_files (f :: files)) as [|df dfs] eqn:E;
      destruct (parsed_files (f' :: files')) as [|df' dfs'] eqn:E';
      try reflexivity; try (now destruct Hpnil as [H1 H2];
                            first [discriminate H1 | discriminate H2]).
    destruct (concat (df :: dfs)) eqn:Ec;
      destruct (concat (df' :: dfs')) eqn:Ec';
      try reflexivity; now destruct Hcnil as [H1 H2];
                       first [discriminate H1 | discriminate H2].
Qed.

(** Two exports with different dates, in both orders. *)
Lemma merge_file_order_witness :
  let a := Some (alipay_file "2024-03-01" "20" "乙") in
  let b := Some (alipay_file "2024-01-05" "12.50" "甲") in
  main [a; b] None = main [b; a] None.
Proof.
  intros a b.
  apply (proj2 (merge_file_order table_unicode literal_regex decimal_float
                  digit_dates stable_argsort stable_argsort_laws
                  [a; b] [b; a] None (perm_swap b a []))).
  vm_compute. repeat constructor; simpl; intuition discriminate.
Defined.

(** C8 as stated fails: two exports of one row each, for the same time
    and different payees.  Whatever the sort does with two equal dates, it
    does it in both runs, so the row of the first file of one run stands
    where the row of the second file stands in the other; under the stable
    sort each run keeps the order of its files. *)
Lemma merge_not_commutative :
  exists a b : DataFrame,
    (forall A : ArgSort, ArgSortLaws A ->
       main [Some a; Some b] None <> main [Some b; Some a] None) /\
    map Txn.merchant (merge [Some a; Some b])
    = [PStr (u "甲"); PStr (u "乙")] /\
    map Txn.merchant (merge [Some b; Some a])
    = [PStr (u "乙"); PStr (u "甲")].
Proof.
  exists (alipay_file "2024-01-05" "12.50" "甲"),
         (alipay_file "2024-01-05" "8" "乙").
  split; [|split; vm_compute; reflexivity].
  intros A L. rewrite !main_runs.
  match goal with
  | |- context [parsed_files ?fs] =>
      let x := eval vm_compute in (parsed_files fs) in
      change (parsed_files fs) with x
  end.
  match goal with
  | |- context [parsed_files ?fs] =>
      let x := eval vm_compute in (parsed_files fs) in
      change (parsed_files fs) with x
  end.
  intros [= E]. revert E.
  rewrite !merge_validated. unfold sort_values.
  do 2 match goal with
  | |- context [argsort (map date_key (validated ?fs))] =>
      let ks := eval vm_compute in (map date_key (validated fs)) in
      change (map date_key (validated fs)) with ks
  end.
  match goal with
  | |- context [argsort ?ks] =>
      pose proof (argsort_perm ks) as Hp; simpl in Hp
  end.
  symmetry in Hp. apply Permutation_length_2_inv in Hp.
  destruct Hp as [-> | ->]; vm_compute; discriminate.
Qed.

(* ================================================================== *)
(** * Part V: further properties of the code *)
(* ================================================================== *)

(** ** Rules: loading and classifying together *)

Lemma sorted_after {A : Type} (R : A -> A -> Prop) (pre post : list A)
  (x y : A) :
  StronglySorted R (pre ++ x :: post) -> In y post -> R x y.
Proof.
  induction pre as [|a pre IH]; simpl; intros Hs Hin.
  - inversion_clear Hs as [|? ? _ Hall].
    rewrite Forall_forall in Hall. now apply Hall.
  - inversion_clear Hs as [|? ? Hs' _]. now apply IH.
Qed.

(** X1: of the loaded rules that match a transaction, one of the highest
    priority decides: [_classify] answers the categories of a matching
    rule whose priority no matching rule exceeds. *)
Theorem loaded_rules_highest_priority_wins (U : Unicode) (R : Regex)
  (F : FloatText) (rule_file : option DataFrame)
  (note merchant item : pyobj) (r : Rule.t) :
  let rules := _load_category_rules rule_file in
  let t := texts_of note merchant item in
  In r rules -> rule_matches t r = true ->
  exists best,
    In best rules /\ rule_matches t best = true /\
    _classify note merchant item rules
    = Ok (Rule.category best, Rule.subcategory best) /\
    forall r', In r' rules -> rule_matches t r' = true ->
               (Rule.priority r' <= Rule.priority best)%Z.
Proof.
  intros rules t Hr Hm.
  assert (Hsorted : by_priority rules).
  { unfold rules, _load_category_rules. destruct rule_file.
    - apply sort_rules_sorted.
    - constructor. }
  unfold _classify. fold t. rewrite classify_loop_first_match.
  unfold first_match.
  destruct (find (rule_matches t) rules) as [best|] eqn:E.
  - destruct (find_first _ _ _ E) as (pre & post & Hl & Hbest & Hpre).
    exists best. split; [rewrite Hl; apply in_elt|].
    split; [exact Hbest|]. split; [reflexivity|].
    intros r' Hr' Hm'. rewrite Hl in Hr', Hsorted.
    apply in_app_or in Hr'. destruct Hr' as [Hin|[<-|Hin]].
    + rewrite Forall_forall in Hpre. rewrite (Hpre _ Hin) in Hm'.
      discriminate.
    + lia.
    + apply (sorted_after _ _ _ _ _ Hsorted Hin).
  - apply find_none_iff in E. rewrite Forall_forall in E.
    rewrite (E _ Hr) in Hm. discriminate.
Qed.

(** Of two KFC rules, the one of priority 10 decides. *)
Lemma loaded_rules_highest_priority_witness :
  let table := {| df_columns := [u "priority"; u "merchant"; u "category"];
                  df_rows := [[PInt 5; PStr (u "kfc"); PStr (u "快餐")];
                              [PInt 10; PStr (u "kfc|肯德基");
                               PStr (u "餐饮")]] |} in
  exists best,
    _classify PNone (PStr (u "KFC 朝阳门店")) PNone
      (_load_category_rules (Some table))
    = Ok (Rule.category best, Rule.subcategory best) /\
    (5 <= Rule.priority best)%Z.
Proof.
  intros table.
  destruct (loaded_rules_highest_priority_wins table_unicode literal_regex
              decimal_float (Some table) PNone (PStr (u "KFC 朝阳门店"))
              PNone
              {| Rule.priority := 5; Rule.merchant := u "kfc";
                 Rule.keyword := []; Rule.category := u "快餐";
                 Rule.subcategory := []; Rule.regex := false |})
    as (best & Hin & _ & Hclass & Hmax).
  - vm_compute. right. left. reflexivity.
  - vm_compute. reflexivity.
  - exists best. split; [exact Hclass|].
    apply (Hmax {| Rule.priority := 5; Rule.merchant := u "kfc";
                   Rule.keyword := []; Rule.category := u "快餐";
                   Rule.subcategory := []; Rule.regex := false |}).
    + vm_compute. right. left. reflexivity.
    + vm_compute. reflexivity.
Defined.

(** X2: a rule that declares neither pattern matches every transaction;
    the rules behind it are never reached. *)
Theorem catch_all_rule_hides_later_rules (U : Unicode) (R : Regex)
  (F : FloatText) (note merchant item : pyobj) (r : Rule.t)
  (pre post : list Rule.t) :
  Rule.merchant r = [] -> Rule.keyword r = [] ->
  _classify note merchant item (r :: post)
  = Ok (Rule.category r, Rule.subcategory r) /\
  _classify note merchant item (pre ++ r :: post)
  = _classify note merchant item (pre ++ [r]).
Proof.
  intros Hm Hk.
  assert (Hall : rule_matches (texts_of note merchant item) r = true).
  { unfold rule_matches. now rewrite Hm, Hk. }
  split.
  - rewrite classify_cons. now rewrite Hall.
  - unfold _classify. rewrite !classify_loop_first_match.
    unfold first_match. f_equal.
    induction pre as [|a pre IH]; simpl.
    + now rewrite Hall.
    + destruct (rule_matches (texts_of note merchant item) a);
        [reflexivity | exact IH].
Qed.

Lemma catch_all_rule_witness :
  let other := {| Rule.priority := 0; Rule.merchant := [];
                  Rule.keyword := []; Rule.category := u "其他";
                  Rule.subcategory := []; Rule.regex := false |} in
  let kfc := {| Rule.priority := 0; Rule.merchant := u "kfc";
                Rule.keyword := []; Rule.category := u "餐饮";
                Rule.subcategory := []; Rule.regex := false |} in
  _classify PNone (PStr (u "KFC")) PNone [other; kfc] = Ok (u "其他", []).
Proof.
  intros other kfc.
  apply (proj1 (catch_all_rule_hides_later_rules table_unicode literal_regex
                  decimal_float PNone (PStr (u "KFC")) PNone other []
                  [kfc] eq_refl eq_refl)).
Defined.

Lemma filter_own_priority (x : Rule.t) (l : list Rule.t) :
  filter (has_priority (Rule.priority x)) (x :: l)
  = x :: filter (has_priority (Rule.priority x)) l.
Proof. simpl. unfold has_priority at 1. now rewrite Z.eqb_refl. Qed.

(** Two lists in non-increasing order of priority that hold, for every
    priority, the same rules in the same order are one list: the stable
    sort of a list is unique. *)
Lemma stable_sort_unique (l l' : list Rule.t) :
  by_priority l -> by_priority l' ->
  (forall p, filter (has_priority p) l = filter (has_priority p) l') ->
  l = l'.
Proof.
  unfold by_priority. intros Hl. revert l'.
  induction Hl as [|a l Hl IH Ha]; intros l' Hl' Hf.
  - destruct l' as [|b l']; [reflexivity|].
    specialize (Hf (Rule.priority b)).
    rewrite filter_own_priority in Hf. discriminate.
  - destruct l' as [|b l'].
    + specialize (Hf (Rule.priority a)).
      rewrite filter_own_priority in Hf. discriminate.
    + inversion_clear Hl' as [|? ? Hl'' Hb].
      assert (Hina : In a (b :: l')).
      { pose proof (Hf (Rule.priority a)) as H.
        rewrite filter_own_priority in H.
        eapply (proj1 (filter_In _ _ _)). rewrite <- H. now left. }
      assert (Hinb : In b (a :: l)).
      { pose proof (Hf (Rule.priority b)) as H.
        rewrite (filter_own_priority b) in H.
        eapply (proj1 (filter_In _ _ _)). rewrite H. now left. }
      assert (Hab : Rule.priority a = Rule.priority b).
      { rewrite Forall_forall in Ha, Hb.
        destruct Hina as [->|Hina]; [reflexivity|].
        destruct Hinb as [->|Hinb]; [reflexivity|].
        specialize (Ha _ Hinb). specialize (Hb _ Hina). lia. }
      assert (a = b) as <-.
      { pose proof (Hf (Rule.priority a)) as H.
        rewrite filter_own_priority, Hab, filter_own_priority in H.
        congruence. }
      f_equal. apply IH; [assumption|].
      intros p. specialize (Hf p). simpl in Hf.
      destruct (has_priority p a); congruence.
Qed.

(** A label the relabelled table lacks is read as the empty string in
    every row. *)
Lemma rule_rows_missing_column `{Unicode} (df : DataFrame) (c : str)
  (row : series) (default : pyobj) :
  In c rule_columns -> ~ In c (map norm_column (df_columns df)) ->
  In row (rule_rows df) ->
  series_get row (Some c) default = PStr [].
Proof.
  intros Hc Hmiss Hrow. unfold rule_rows in Hrow.
  apply in_map_iff in Hrow. destruct Hrow as (cells & <- & _).
  unfold series_get.
  set (cols := map norm_column (df_columns df)) in *.
  set (missing := filter (fun c0 => negb (existsb (str_eqb c0) cols))
                         rule_columns).
  assert (Hfind : forall l, (forall kv, In kv l -> In (fst kv) cols) ->
            find (fun kv : str * pyobj => str_eqb (fst kv) c)
                 (l ++ map (fun c0 => (c0, PStr [])) missing)
            = Some (c, PStr [])).
  { intros l Hl. induction l as [|kv l IH]; simpl.
    - assert (Hin : In c missing).
      { apply filter_In. split; [exact Hc|].
        apply negb_true_iff. apply not_true_is_false. intros E.
        apply existsb_exists in E. destruct E as (x & Hx & E).
        apply str_eqb_eq in E. subst x. contradiction. }
      induction missing as [|m ms IHm]; [destruct Hin|].
      simpl. destruct (str_eqb m c) eqn:E.
      + apply str_eqb_eq in E. now subst m.
      + destruct Hin as [->|Hin].
        * rewrite (proj2 (str_eqb_eq c c) eq_refl) in E. discriminate.
        * now apply IHm.
    - destruct (str_eqb (fst kv) c) eqn:E.
      + apply str_eqb_eq in E. exfalso. apply Hmiss. rewrite <- E.
        apply Hl. now left.
      + apply IH. intros kv' Hkv'. apply Hl. now right. }
  rewrite Hfind; [reflexivity|].
  intros kv Hkv. destruct kv as [k v]. now apply in_combine_l in Hkv.
Qed.

Lemma rules_of_rows_none `{FloatText} (rows : list series) :
  (forall row, In row rows -> rule_of_row row = None) ->
  rules_of_rows rows = [].
Proof.
  induction rows as [|row rows IH]; intros Hnone; [reflexivity|].
  simpl. rewrite (Hnone row) by now left.
  apply IH. intros row' Hrow'. apply Hnone. now right.
Qed.

(** X3: a rule table whose rows already stand in non-increasing order of
    priority is loaded in the order of its rows; so is a table without a
    priority column, whatever [float] makes of the empty text. *)
Theorem load_rules_keeps_sorted_file (U : Unicode) (F : FloatText)
  (df : DataFrame) :
  (by_priority (rules_of_rows (rule_rows df)) ->
   _load_category_rules (Some df) = rules_of_rows (rule_rows df)) /\
  (~ In (u "priority") (map norm_column (df_columns df)) ->
   _load_category_rules (Some df) = rules_of_rows (rule_rows df)).
Proof.
  assert (Hkeep : by_priority (rules_of_rows (rule_rows df)) ->
                  _load_category_rules (Some df)
                  = rules_of_rows (rule_rows df)).
  { intros Hsorted. unfold _load_category_rules. symmetry.
    apply stable_sort_unique.
    - exact Hsorted.
    - apply sort_rules_sorted.
    - intros p. symmetry. apply sort_rules_stable. }
  split; [exact Hkeep|].
  intros Hmiss. apply Hkeep.
  assert (Hall : forall r, In r (rules_of_rows (rule_rows df)) ->
                           Rule.priority r = to_int (PStr [])).
  { intros r Hr. apply in_rules_of_rows in Hr.
    destruct Hr as (row & Hrow & Hr).
    destruct (proj2 (rule_of_row_category row) r Hr) as (_ & _ & ->).
    rewrite (rule_rows_missing_column df (u "priority") row);
      [reflexivity | now left | exact Hmiss | exact Hrow]. }
  unfold by_priority. revert Hall.
  generalize (rules_of_rows (rule_rows df)). intros l.
  induction l as [|r l IH]; intros Hall; constructor.
  - apply IH. intros r' Hr'. apply Hall. now right.
  - rewrite Forall_forall. intros r' Hr'.
    rewrite (Hall r) by now left. rewrite (Hall r') by now right. lia.
Qed.

Lemma load_rules_keeps_sorted_witness :
  let table := {| df_columns := [u "merchant"; u "category"];
                  df_rows := [[PStr (u "kfc"); PStr (u "餐饮")];
                              [PStr (u "滴滴"); PStr (u "交通")]] |} in
  map Rule.category (_load_category_rules (Some table))
  = [u "餐饮"; u "交通"].
Proof.
  intros table.
  rewrite (proj2 (load_rules_keeps_sorted_file table_unicode decimal_float
                    table)).
  - vm_compute. reflexivity.
  - vm_compute. intuition discriminate.
Defined.

(** X4: a rule table without a category column gives no rule at all: the
    column is filled with empty texts, and a row without category is
    dropped. *)
Theorem load_rules_without_category_column (U : Unicode) (F : FloatText)
  (df : DataFrame) :
  ~ In (u "category") (map norm_column (df_columns df)) ->
  _load_category_rules (Some df) = [].
Proof.
  intros Hmiss. unfold _load_category_rules.
  rewrite rules_of_rows_none; [reflexivity|].
  intros row Hrow. apply rule_of_row_category.
  rewrite (rule_rows_missing_column df (u "category") row);
    [reflexivity | | exact Hmiss | exact Hrow].
  right. right. right. now left.
Qed.

Lemma load_rules_without_category_witness :
  _load_category_rules
    (Some {| df_columns := [u "priority"; u "merchant"; u "分类"];
             df_rows := [[PInt 5; PStr (u "kfc"); PStr (u "餐饮")]] |})
  = [].
Proof.
  apply (load_rules_without_category_column table_unicode decimal_float).
  vm_compute. intuition discriminate.
Defined.

(** ** Adapters: which tables they take *)

Lemma cols_get_some (columns : list str) (k c : str) :
  cols_get columns k = Some c -> In c columns /\ strip c = k.
Proof.
  unfold cols_get. intros H. apply find_some in H. destruct H as [Hin E].
  apply in_rev in Hin. apply str_eqb_eq in E. now split.
Qed.

Lemma cols_get_none (columns : list str) (k : str) :
  cols_get columns k = None -> forall c, In c columns -> strip c <> k.
Proof.
  unfold cols_get. intros H c Hin E.
  apply in_rev in Hin. pose proof (find_none _ _ H c Hin) as Hf.
  cbv beta in Hf. rewrite (proj2 (str_eqb_eq _ _) E) in Hf. discriminate.
Qed.

Lemma pick_some (columns aliases : list str) (c : str) :
  pick columns aliases = Some c -> In c columns /\ In (strip c) aliases.
Proof.
  induction aliases as [|k aliases IH]; simpl; [discriminate|].
  destruct (cols_get columns k) as [c'|] eqn:E.
  - intros [= <-]. apply cols_get_some in E. destruct E as [Hin <-].
    split; [exact Hin | now left].
  - intros H. destruct (IH H). split; [assumption | now right].
Qed.

Lemma pick_none (columns aliases : list str) :
  pick columns aliases = None <-> ~ has_alias columns aliases.
Proof.
  induction aliases as [|k aliases IH]; simpl.
  - split; [intros _ (c & _ & []) | reflexivity].
  - destruct (cols_get columns k) as [c'|] eqn:E; split.
    + discriminate.
    + intros H. exfalso. apply H. apply cols_get_some in E.
      destruct E as [Hin <-]. exists c'. split; [exact Hin | now left].
    + intros H (c & Hin & [Hk|Hk]).
      * now apply (cols_get_none _ _ E c Hin).
      * apply IH in H. apply H. now exists c.
    + intros H. apply IH. intros (c & Hin & Hk). apply H.
      exists c. split; [exact Hin | now right].
Qed.

Lemma pick_has_alias (columns aliases : list str) :
  has_alias columns aliases <-> pick columns aliases <> None.
Proof.
  split.
  - intros H E. now apply pick_none in E.
  - intros H. destruct (pick columns aliases) as [c|] eqn:E; [|congruence].
    apply pick_some in E. now exists c.
Qed.

Section Schemas.
Context {F : FloatText} {D : DateText}.

Lemma parse_alipay_recognises (df : DataFrame) :
  parse_alipay df <> None <->
  has_alias (df_columns df) alipay_time_aliases /\
  has_alias (df_columns df) alipay_amount_aliases.
Proof.
  rewrite !pick_has_alias. unfold parse_alipay.
  fold alipay_time_aliases alipay_amount_aliases.
  destruct (pick (df_columns df) alipay_time_aliases);
    destruct (pick (df_columns df) alipay_amount_aliases);
    split; try (intros [H1 H2]); try intros H; repeat split; congruence.
Qed.

Lemma parse_wechat_recognises (df : DataFrame) :
  parse_wechat df <> None <->
  has_alias (df_columns df) wechat_time_aliases /\
  has_alias (df_columns df) wechat_amount_aliases.
Proof.
  rewrite !pick_has_alias. unfold parse_wechat.
  fold wechat_time_aliases wechat_amount_aliases.
  destruct (pick (df_columns df) wechat_time_aliases);
    destruct (pick (df_columns df) wechat_amount_aliases);
    split; try (intros [H1 H2]); try intros H; repeat split; congruence.
Qed.

Lemma parse_alipay_platform (df : DataFrame) (out : list Txn.t)
  (t : Txn.t) :
  parse_alipay df = Some out -> In t out -> Txn.platform t = u "Alipay".
Proof.
  unfold parse_alipay.
  destruct (pick (df_columns df) _) as [c_time|]; [|discriminate].
  match goal with
  | |- context [match ?c with Some _ => _ | None => None end] =>
      destruct c as [c_amount|]; [|discriminate]
  end.
  intros [= <-] Hin. apply in_collect in Hin.
  destruct Hin as (r & _ & Ht). unfold alipay_row in Ht.
  destruct (_clean_amount _); [|discriminate]. now injection Ht as <-.
Qed.

Lemma parse_wechat_platform (df : DataFrame) (out : list Txn.t)
  (t : Txn.t) :
  parse_wechat df = Some out -> In t out -> Txn.platform t = u "WeChat".
Proof.
  unfold parse_wechat.
  destruct (pick (df_columns df) _) as [c_time|]; [|discriminate].
  match goal with
  | |- context [match ?c with Some _ => _ | None => None end] =>
      destruct c as [c_amount|]; [|discriminate]
  end.
  intros [= <-] Hin. apply in_collect in Hin.
  destruct Hin as (r & _ & Ht). unfold wechat_row in Ht.
  destruct (_clean_amount _); [|discriminate]. now injection Ht as <-.
Qed.

End Schemas.

(** X5: an adapter takes a table exactly when the table has, white space
    around the labels apart, one of its time labels and one of its amount
    labels; no other column is needed. *)
Theorem adapters_recognise_by_time_and_amount (F : FloatText) (D : DateText)
  (df : DataFrame) :
  (parse_alipay df <> None <->
   has_alias (df_columns df)
     [u "交易时间"; u "时间"; u "创建时间"; u "支付时间"] /\
   has_alias (df_columns df)
     [u "金额（元）"; u "金额(元)"; u "金额"; u "交易金额"]) /\
  (parse_wechat df <> None <->
   has_alias (df_columns df) [u "交易时间"; u "时间"; u "支付时间"] /\
   has_alias (df_columns df)
     [u "金额(元)"; u "金额（元）"; u "金额"; u "交易金额(元)"]).
Proof.
  split; [apply parse_alipay_recognises | apply parse_wechat_recognises].
Qed.

Lemma adapters_recognise_witness :
  parse_alipay {| df_columns := [u " 时间 "; u "金额(元)"]; df_rows := [] |}
  <> None /\
  parse_wechat {| df_columns := [u "时间"]; df_rows := [] |} = None.
Proof.
  split.
  - apply (proj1 (adapters_recognise_by_time_and_amount decimal_float
                    digit_dates _)).
    split; [exists (u " 时间 ") | exists (u "金额(元)")];
      (split; [vm_compute; intuition | vm_compute; intuition]).
  - destruct (parse_wechat {| df_columns := [u "时间"]; df_rows := [] |})
      eqn:E; [|reflexivity].
    assert (H : parse_wechat {| df_columns := [u "时间"]; df_rows := [] |}
                <> None) by congruence.
    apply (proj2 (adapters_recognise_by_time_and_amount decimal_float
                    digit_dates _)) in H.
    destruct H as (_ & c & [<-|[]] & Hc).
    vm_compute in Hc. intuition discriminate.
Defined.

(** X6: the Alipay adapter comes first and takes every table that shows
    one of its amount labels, so a row is tagged WeChat only when the
    table's amount column is 交易金额(元) and no column bears an Alipay
    amount label. *)
Theorem wechat_rows_need_wechat_amount_label (F : FloatText) (D : DateText)
  (df : DataFrame) (out : list Txn.t) (t : Txn.t) :
  adapt df = Some out -> In t out ->
  (Txn.platform t = u "Alipay" /\ parse_alipay df = Some out) \/
  (Txn.platform t = u "WeChat" /\ parse_alipay df = None /\
   has_alias (df_columns df) [u "交易金额(元)"] /\
   ~ has_alias (df_columns df)
       [u "金额（元）"; u "金额(元)"; u "金额"; u "交易金额"]).
Proof.
  unfold adapt. intros Hout Hin.
  destruct (parse_alipay df) as [out'|] eqn:Ea.
  - left. injection Hout as ->. split; [|reflexivity].
    eapply parse_alipay_platform; eassumption.
  - right. split; [eapply parse_wechat_platform; eassumption|].
    split; [reflexivity|].
    assert (Hw : parse_wechat df <> None) by congruence.
    apply parse_wechat_recognises in Hw. destruct Hw as [Hwt Hwa].
    assert (Hna : ~ has_alias (df_columns df) alipay_amount_aliases).
    { intros Ha. assert (Hr : parse_alipay df <> None); [|congruence].
      apply parse_alipay_recognises. split; [|exact Ha].
      destruct Hwt as (c & Hc & Hk). exists c. split; [exact Hc|].
      simpl in Hk. simpl. intuition. }
    split; [|exact Hna].
    destruct Hwa as (c & Hc & Hk). exists c. split; [exact Hc|].
    simpl in Hk. destruct Hk as [Hk|[Hk|[Hk|[Hk|[]]]]].
    + exfalso. apply Hna. exists c. split; [exact Hc|].
      rewrite <- Hk. right. now left.
    + exfalso. apply Hna. exists c. split; [exact Hc|].
      rewrite <- Hk. now left.
    + exfalso. apply Hna. exists c. split; [exact Hc|].
      rewrite <- Hk. right. right. now left.
    + now left.
Qed.

(** A table with the header of a WeChat export goes to the Alipay
    adapter. *)
Lemma wechat_rows_witness :
  let export := {| df_columns := [u "交易时间"; u "交易类型"; u "收/支";
                                  u "金额(元)"];
                   df_rows := [[PStr (u "2024-01-05 12:00:00");
                                PStr (u "商户消费"); PStr (u "支出");
                                PStr (u "¥12.50")]] |} in
  option_map (map Txn.platform) (adapt export) = Some [u "Alipay"].
Proof.
  intros export.
  destruct (adapt export) as [out|] eqn:E;
    [|vm_compute in E; discriminate E].
  destruct out as [|t [|]]; try (vm_compute in E; discriminate E).
  destruct (wechat_rows_need_wechat_amount_label decimal_float digit_dates
              export [t] t E (or_introl eq_refl))
    as [[Hp _]|(_ & Hnone & _)].
  - cbn [option_map map]. now rewrite Hp.
  - vm_compute in Hnone. discriminate Hnone.
Defined.

(** ** The merger: what reaches the ledger *)

Lemma collect_map_filter {A B C : Type} (g : B -> option C) (h : A -> B)
  (p : A -> bool) (l : list A) :
  (forall x, p x = false -> g (h x) = None) ->
  collect g (map h (filter p l)) = collect g (map h l).
Proof.
  intros Hp. induction l as [|x l IH]; [reflexivity|].
  simpl. destruct (p x) eqn:E; simpl; rewrite IH; [reflexivity|].
  now rewrite (Hp x E).
Qed.

Lemma collect_app {A B : Type} (f : A -> option B) (l l' : list A) :
  collect f (l ++ l') = collect f l ++ collect f l'.
Proof.
  induction l as [|a l IH]; [reflexivity|].
  simpl. destruct (f a); simpl; now rewrite IH.
Qed.

(** A cell read in a row of missing values is missing. *)
Lemma series_get_blank (columns : list str) (cells : list pyobj)
  (key : option str) :
  forallb isna cells = true ->
  isna (series_get (combine columns cells) key PNone) = true.
Proof.
  intros Hblank. unfold series_get. destruct key as [k|]; [|reflexivity].
  destruct (find _ _) as [[k' v]|] eqn:E; [|reflexivity].
  apply find_some in E. destruct E as [Hin _].
  apply in_combine_r in Hin. rewrite forallb_forall in Hblank.
  now apply Hblank.
Qed.

Section Validation.
Context {F : FloatText} {D : DateText}.

Lemma clean_amount_missing (x : pyobj) :
  isna x = true -> _clean_amount x = None.
Proof. intros H. unfold _clean_amount. now rewrite H. Qed.

Lemma parse_alipay_dropna_all (df : DataFrame) :
  parse_alipay (dropna_all df) = parse_alipay df.
Proof.
  unfold parse_alipay. cbn [dropna_all df_columns].
  destruct (pick (df_columns df) _); [|reflexivity].
  match goal with
  | |- context [match ?c with Some _ => _ | None => None end] =>
      destruct c; [|reflexivity]
  end.
  f_equal. unfold iterrows. cbn [dropna_all df_columns df_rows].
  apply collect_map_filter. intros cells Hblank.
  apply negb_false_iff in Hblank. unfold alipay_row.
  now rewrite (clean_amount_missing _ (series_get_blank _ _ _ Hblank)).
Qed.

Lemma parse_wechat_dropna_all (df : DataFrame) :
  parse_wechat (dropna_all df) = parse_wechat df.
Proof.
  unfold parse_wechat. cbn [dropna_all df_columns].
  destruct (pick (df_columns df) _); [|reflexivity].
  match goal with
  | |- context [match ?c with Some _ => _ | None => None end] =>
      destruct c; [|reflexivity]
  end.
  f_equal. unfold iterrows. cbn [dropna_all df_columns df_rows].
  apply collect_map_filter. intros cells Hblank.
  apply negb_false_iff in Hblank. unfold wechat_row.
  now rewrite (clean_amount_missing _ (series_get_blank _ _ _ Hblank)).
Qed.

(** A row [main] keeps is the adapter's row as it was: its date is within
    the range of [datetime64[ns]], so the conversion changes nothing. *)
Lemma validated_row (rows : list Txn.t) (t : Txn.t) :
  In t (dropna (map to_datetime64 rows)) ->
  In t rows /\
  (exists d, Txn.date t = Some d /\ (- 2 ^ 63 < d < 2 ^ 63)%Z) /\
  Txn.amount t <> S754_nan.
Proof.
  unfold dropna. rewrite filter_In, in_map_iff.
  intros [(t0 & <- & Hin) Hkeep].
  destruct t0 as [date type amount merchant item method status platform
                    note].
  unfold to_datetime64 in *. cbn [Txn.date Txn.amount Txn.type Txn.merchant
    Txn.item Txn.method Txn.status Txn.platform Txn.note] in *.
  destruct date as [d|]; [|discriminate].
  destruct ((- 2 ^ 63 <? d) && (d <? 2 ^ 63))%Z eqn:Er; [|discriminate].
  apply andb_true_iff in Er. destruct Er as [E1 E2].
  apply Z.ltb_lt in E1. apply Z.ltb_lt in E2.
  split; [exact Hin|]. split; [exists d; split; [reflexivity | lia]|].
  intros E. rewrite E in Hkeep. discriminate.
Qed.

Lemma adapt_dropna_all (df : DataFrame) :
  adapt (dropna_all df) = adapt df.
Proof.
  unfold adapt. now rewrite parse_alipay_dropna_all, parse_wechat_dropna_all.
Qed.

End Validation.

(** X7: [dropna(how="all")] before the adapters changes nothing they
    emit: a row of missing values has no amount, and the adapters drop
    it themselves. *)
Theorem blank_rows_are_dropped_by_the_adapters (F : FloatText)
  (D : DateText) (df : DataFrame) :
  adapt (dropna_all df) = adapt df.
Proof. apply adapt_dropna_all. Qed.

(** X8: every row of the ledger is a row an adapter emitted, with its
    date, type, amount and platform, and its other cells as pandas may
    have re-typed them; its date is present and its amount is a number.  Rows without a date, which the adapters do emit,
    and rows with a NaN amount never reach the ledger. *)
Theorem ledger_rows_are_valid_adapter_rows (U : Unicode) (R : Regex)
  (F : FloatText) (D : DateText) (A : ArgSort)
  (files : list (option DataFrame)) (rule_file : option DataFrame)
  (ledger : list LedgerRow) (row : LedgerRow) :
  main files rule_file = Ok (Some ledger) -> In row ledger ->
  (exists t, In t (concat (parsed_files files)) /\
             same_row t (txn row)) /\
  Txn.date (txn row) <> None /\
  Txn.amount (txn row) <> S754_nan.
Proof.
  intros Hmain Hin. apply main_written in Hmain. subst ledger.
  apply in_map_iff in Hin. destruct Hin as (t & <- & Hin).
  cbn [labelled txn]. rewrite merge_validated in Hin.
  apply in_take in Hin. apply validated_row in Hin.
  destruct Hin as (Hin & (d & Hd & _) & Hnan).
  split; [exists t; split; [exact Hin|]|].
  - unfold same_row, retyped. tauto.
  - split; [congruence | exact Hnan].
Qed.

(** A row whose date does not parse is emitted by the adapter and
    dropped by [main]. *)
Lemma ledger_rows_witness :
  let good := alipay_file "2024-01-05" "12.50" "甲" in
  let undated := alipay_file "yesterday" "8" "乙" in
  exists ledger,
    main [Some undated; Some good] None = Ok (Some ledger) /\
    length (concat (parsed_files [Some undated; Some good])) = 2%nat /\
    map (fun row => Txn.merchant (txn row)) ledger = [PStr (u "甲")] /\
    Forall (fun row => Txn.date (txn row) <> None) ledger.
Proof.
  intros good undated.
  destruct (main [Some undated; Some good] None) as [[ledger|]|] eqn:E;
    try (vm_compute in E; discriminate E).
  exists ledger. split; [reflexivity|].
  split; [vm_compute; reflexivity|].
  split; [vm_compute in E; now injection E as <-|].
  rewrite Forall_forall. intros row Hrow.
  exact (proj1 (proj2 (ledger_rows_are_valid_adapter_rows table_unicode
                         literal_regex decimal_float digit_dates
                         stable_argsort _ _ _ row E Hrow))).
Defined.

Section Skipping.
Context {U : Unicode} {R : Regex} {F : FloatText} {D : DateText}.
Context {A : ArgSort}.

(** [main] reads its files through [parsed_files] only. *)
Lemma main_by_parsed_files (files files' : list (option DataFrame))
  (rule_file : option DataFrame) :
  parsed_files files = parsed_files files' ->
  main files rule_file = main files' rule_file.
Proof.
  intros E. rewrite !main_runs. unfold merge. rewrite <- E.
  destruct (parsed_files files) as [|df dfs] eqn:P.
  - destruct files, files'; rewrite <- ?E, ?P; reflexivity.
  - destruct files as [|f files]; [discriminate P|].
    destruct files' as [|f' files']; [discriminate E|].
    rewrite <- ?E, ?P. reflexivity.
Qed.

End Skipping.

(** X9: a file that cannot be read, or that no adapter recognises,
    changes nothing: the run with it gives what the run without it
    gives. *)
Theorem skipped_file_changes_nothing (U : Unicode) (R : Regex)
  (F : FloatText) (D : DateText) (A : ArgSort)
  (pre post : list (option DataFrame)) (file : option DataFrame)
  (rule_file : option DataFrame) :
  file = None \/
  (exists df0, file = Some df0 /\ parse_alipay df0 = None /\
               parse_wechat df0 = None) ->
  main (pre ++ file :: post) rule_file = main (pre ++ post) rule_file.
Proof.
  intros Hskip. apply main_by_parsed_files.
  unfold parsed_files. rewrite !collect_app. f_equal. simpl.
  destruct Hskip as [->|(df0 & -> & Ha & Hw)]; [reflexivity|].
  rewrite (adapt_dropna_all df0). unfold adapt. now rewrite Ha, Hw.
Qed.

(** A file no encoding reads and a table of another kind are both passed
    over. *)
Lemma skipped_file_witness :
  let good := alipay_file "2024-01-05" "12.50" "甲" in
  let other := {| df_columns := [u "姓名"; u "电话"];
                  df_rows := [[PStr (u "乙"); PInt 10086]] |} in
  main [Some other; Some good; None] None = main [Some good; None] None /\
  main [Some good; None] None = main [Some good] None.
Proof.
  intros good other. split.
  - apply (skipped_file_changes_nothing table_unicode literal_regex
             decimal_float digit_dates stable_argsort
             [] [Some good; None] (Some other) None).
    right. exists other. repeat split; reflexivity.
  - apply (skipped_file_changes_nothing table_unicode literal_regex
             decimal_float digit_dates stable_argsort
             [Some good] [] None None).
    now left.
Defined.

Section Labels.
Context {U : Unicode} {R : Regex} {F : FloatText}.

(** Every rule of the list has a category: the loader passes over the
    rows without one. *)
Lemma loaded_rule_category (rule_file : option DataFrame) (r : Rule.t) :
  In r (_load_category_rules rule_file) -> Rule.category r <> [].
Proof.
  destruct rule_file as [df|]; simpl; [|tauto].
  intros Hin. apply (Permutation_in _ (sort_rules_perm _)) in Hin.
  apply in_rules_of_rows in Hin. destruct Hin as (row & _ & Hrow).
  destruct (rule_of_row_category row) as [_ Hcat].
  destruct (Hcat r Hrow) as (-> & Hne & _). exact Hne.
Qed.

Lemma labelled_category (rules : list Rule.t) (t : Txn.t) :
  (forall r, In r rules -> Rule.category r <> []) ->
  category (labelled rules t) = [] <->
  forall r, In r rules ->
            rule_matches (texts_of (Txn.note t) (Txn.merchant t)
                                   (Txn.item t)) r = false.
Proof.
  intros Hcat. unfold labelled.
  destruct rules as [|r0 rules]; [simpl; tauto|].
  unfold first_match. cbn [category].
  destruct (find _ (r0 :: rules)) as [r|] eqn:E; cbn [fst].
  - apply find_some in E. destruct E as [Hin Hm]. split.
    + intros Hnil. now elim (Hcat r Hin).
    + intros Hnone. rewrite (Hnone r Hin) in Hm. discriminate.
  - split; [|reflexivity]. intros _ r Hin.
    exact (find_none _ _ E r Hin).
Qed.

End Labels.

(** X10: a row of the ledger has an empty category exactly when no rule
    of the rule file matches it; a rule that matches always leaves a
    category, since the loader keeps no rule without one. *)
Theorem unclassified_rows_match_no_rule (U : Unicode) (R : Regex)
  (F : FloatText) (D : DateText) (A : ArgSort)
  (files : list (option DataFrame)) (rule_file : option DataFrame)
  (ledger : list LedgerRow) (row : LedgerRow) :
  main files rule_file = Ok (Some ledger) -> In row ledger ->
  category row = [] <->
  forall r, In r (_load_category_rules rule_file) ->
            rule_matches (texts_of (Txn.note (txn row))
                                   (Txn.merchant (txn row))
                                   (Txn.item (txn row))) r = false.
Proof.
  intros Hmain Hin. apply main_written in Hmain. subst ledger.
  apply in_map_iff in Hin. destruct Hin as (t & <- & _).
  apply labelled_category. apply loaded_rule_category.
Qed.

(** The payee 甲 answers to no rule of [rule_table]; its row stays
    without a category; the rule of 星巴克 labels the other. *)
Lemma unclassified_rows_witness :
  let files := [Some (alipay_file "2024-01-05" "12.50" "甲");
                Some (alipay_file "2024-01-06" "30" "星巴克")] in
  exists ledger,
    main files (Some rule_table) = Ok (Some ledger) /\
    map category ledger = [[]; u "咖啡"] /\
    forall row, In row ledger -> category row = [] ->
      forall r, In r (_load_category_rules (Some rule_table)) ->
        rule_matches (texts_of (Txn.note (txn row)) (Txn.merchant (txn row))
                               (Txn.item (txn row))) r = false.
Proof.
  intros files.
  destruct (main files (Some rule_table)) as [[ledger|]|] eqn:E;
    try (vm_compute in E; discriminate E).
  exists ledger. split; [reflexivity|].
  split; [vm_compute in E; now injection E as <-|].
  intros row Hrow.
  apply (unclassified_rows_match_no_rule table_unicode literal_regex
           decimal_float digit_dates stable_argsort files
           (Some rule_table) ledger row E Hrow).
Defined.

(** ** Helpers: the text they hand on *)

Lemma spaced_in (b : bool) (s : str) (c : char) :
  spaced b s -> In c s -> isspace c = true -> c = 0x20.
Proof.
  induction 1 as [b|b a s Ha Hs IH|s Hs IH]; simpl.
  - tauto.
  - intros [<-|Hin] Hc; [congruence | now apply IH].
  - intros [<-|Hin] Hc; [reflexivity | now apply IH].
Qed.

Lemma spaced_no_run (b : bool) (s : str) (pre post : str) (c d : char) :
  spaced b s -> s = pre ++ c :: d :: post ->
  isspace c = true -> isspace d = true -> False.
Proof.
  intros Hs. revert pre.
  induction Hs as [b|b a s Ha Hs IH|s Hs IH]; intros pre E Hc Hd.
  - now destruct pre.
  - destruct pre as [|p pre]; injection E as -> E; [congruence|].
    now apply (IH pre).
  - destruct pre as [|p pre]; injection E as E1 E.
    + subst s. inversion Hs; congruence.
    + now apply (IH pre).
Qed.

(** X11: the text the normalizer returns has plain white space only:
    every white-space character in it is U+0020, no two of them are
    adjacent, none starts or ends it, and no U+200B is left.  The
    lower-casing of the library is taken to leave white space alone. *)
Theorem normalized_text_has_plain_spacing (U : Unicode)
  (L : UnicodeLaws U) (s : option str) :
  let out := _normalize_text s in
  (forall c, In c out -> isspace c = true -> c = 0x20) /\
  (forall pre post c d, out = pre ++ c :: d :: post ->
                        isspace c = true -> isspace d = true -> False) /\
  strip out = out /\
  ~ In ZWSP out.
Proof.
  intros out.
  assert (Ht : tidy out = out).
  { subst out. destruct s as [x|]; [|reflexivity].
    rewrite normalize_unfold. apply lower_tidy. apply tidy_tidy. }
  pose proof (tidy_spaced out) as Hs. rewrite Ht in Hs.
  repeat split.
  - intros c. now apply (spaced_in false).
  - intros pre post c d. now apply (spaced_no_run false).
  - rewrite <- Ht at 1. unfold tidy. rewrite strip_strip. exact Ht.
  - rewrite <- Ht. apply tidy_no_zwsp.
Qed.

Lemma normalized_text_spacing_witness :
  let out := _normalize_text
               (Some (u "  ＫＦＣ　 朝阳门店	Ｃｏｆｆｅｅ ")) in
  out = u "kfc 朝阳门店 coffee" /\ strip out = out /\ ~ In ZWSP out.
Proof.
  intros out. split; [vm_compute; reflexivity|].
  destruct (normalized_text_has_plain_spacing table_unicode
              table_unicode_laws
              (Some (u "  ＫＦＣ　 朝阳门店	Ｃｏｆｆｅｅ ")))
    as (_ & _ & Hstrip & Hz).
  split; assumption.
Defined.

Lemma replace_app (old : char) (new a b : str) :
  replace old new (a ++ b) = replace old new a ++ replace old new b.
Proof. unfold replace. apply flat_map_app. Qed.

Lemma cleaned_app (a b : str) : cleaned (a ++ b) = cleaned a ++ cleaned b.
Proof.
  unfold cleaned, drop_yen.
  now rewrite replace_app, filter_app, !replace_app.
Qed.

Lemma clean_amount_text `{FloatText} (s : str) :
  _clean_amount (PStr s)
  = match py_float (cleaned (strip s)) with
    | Ok f => Some f
    | Raise _ => None
    end.
Proof. reflexivity. Qed.

(** X12: an amount written in accounting parentheses is read as the
    amount with a minus sign: [(12.50)] as [-12.50]. *)
Theorem clean_amount_reads_parentheses_as_minus (F : FloatText) (s : str) :
  rstrip s = s ->
  _clean_amount (PStr (0x28 :: s ++ [0x29])) = _clean_amount (PStr (0x2D :: s)).
Proof.
  intros Hs. rewrite !clean_amount_text. 
  assert (E1 : strip (0x28 :: s ++ [0x29]) = 0x28 :: s ++ [0x29]).
  { unfold strip. cbn [lstrip]. change (isspace 0x28) with false. cbv iota.
    unfold rstrip. cbn [rev]. rewrite rev_app_distr. cbn [rev app lstrip].
    change (isspace 0x29) with false. cbv iota.
    cbn [rev]. rewrite rev_app_distr, rev_involutive. reflexivity. }
  assert (E2 : strip (0x2D :: s) = 0x2D :: s).
  { unfold strip. cbn [lstrip]. change (isspace 0x2D) with false. cbv iota.
    rewrite rstrip_cons. cbn [forallb]. change (isspace 0x2D) with false.
    cbn [andb]. now rewrite Hs. }
  rewrite E1, E2.
  change (0x28 :: s ++ [0x29]) with ([0x28] ++ s ++ [0x29]).
  change (0x2D :: s) with ([0x2D] ++ s).
  rewrite !cleaned_app.
  change (cleaned [0x28]) with [0x2D]. change (cleaned [0x29]) with (@nil N).
  change (cleaned [0x2D]) with [0x2D]. now rewrite app_nil_r.
Qed.

Lemma clean_amount_parentheses_witness :
  _clean_amount (PStr (u "(1,234.50)")) = _clean_amount (PStr (u "-1,234.50")).
Proof.
  apply (clean_amount_reads_parentheses_as_minus decimal_float
           (u "1,234.50")).
  reflexivity.
Defined.

(** X13: the text [_clean_amount] hands to [float] holds no comma, no yen
    sign, no equals sign and no parenthesis. *)
Theorem clean_amount_strips_decoration (F : FloatText) (x : pyobj)
  (f : float) :
  _clean_amount x = Some f ->
  exists s, py_float s = Ok f /\
            forall c, In c s ->
                      ~ In c [0x2C; 0xFFE5; 0xA5; 0x3D; 0x28; 0x29].
Proof.
  unfold _clean_amount. destruct (isna x); [discriminate|].
  cbv zeta. fold (cleaned (strip (py_str x))).
  destruct (py_float (cleaned (strip (py_str x)))) as [f'|] eqn:E;
    [|discriminate].
  intros [= <-]. exists (cleaned (strip (py_str x))).
  split; [exact E|]. intros c Hin Hc. unfold cleaned, drop_yen in Hin.
  apply in_replace in Hin. destruct Hin as [[]|[Hin N29]].
  apply in_replace in Hin.
  destruct Hin as [[<-|[]]|[Hin N28]].
  { simpl in Hc. repeat destruct Hc as [Hc|Hc]; try discriminate Hc.
    exact Hc. }
  apply in_replace in Hin. destruct Hin as [[]|[Hin N3D]].
  apply filter_In in Hin. destruct Hin as [Hin Hyen].
  apply in_replace in Hin. destruct Hin as [[]|[Hin N2C]].
  apply negb_true_iff, orb_false_iff in Hyen. destruct Hyen as [Y1 Y2].
  apply N.eqb_neq in Y1. apply N.eqb_neq in Y2.
  simpl in Hc. intuition congruence.
Qed.

Lemma clean_amount_decoration_witness :
  exists f s,
    _clean_amount (PStr (u " ¥1,234.50 ")) = Some f /\
    py_float s = Ok f /\ ~ In 0x2C s /\ ~ In 0xA5 s.
Proof.
  destruct (_clean_amount (PStr (u " ¥1,234.50 "))) as [f|] eqn:E;
    [|vm_compute in E; discriminate E].
  destruct (clean_amount_strips_decoration decimal_float _ f E)
    as (s & Hs & Hc).
  exists f, s. split; [reflexivity|]. split; [exact Hs|].
  split; intros Hin; apply (Hc _ Hin); simpl; tauto.
Defined.

(** ** The report reads the ledger *)

(** X14: the report counts every row of the ledger once: its type is
    支出 or 收入, so that exactly one of the two masks of the report,
    [contains("支出")] and [contains("收入")], takes it. *)
Theorem ledger_rows_are_expense_or_income (U : Unicode) (R : Regex)
  (F : FloatText) (D : DateText) (A : ArgSort)
  (files : list (option DataFrame)) (rule_file : option DataFrame)
  (ledger : list LedgerRow) (row : LedgerRow) :
  main files rule_file = Ok (Some ledger) -> In row ledger ->
  let type := Txn.type (txn row) in
  (type = u "支出" /\ is_expense type = true /\ is_income type = false) \/
  (type = u "收入" /\ is_expense type = false /\ is_income type = true).
Proof.
  intros Hmain Hin. apply main_written in Hmain. subst ledger.
  apply in_map_iff in Hin. destruct Hin as (t & <- & Hin).
  cbn [labelled txn]. rewrite merge_validated in Hin.
  apply in_take in Hin. apply validated_row in Hin.
  destruct Hin as (Hin & _). apply in_parsed_files in Hin.
  destruct Hin as (df & out & Hout & Hin).
  assert (Ht : Txn.type t = Expense \/ Txn.type t = Income).
  { unfold adapt in Hout. destruct (parse_alipay df) as [out'|] eqn:Ea.
    - injection Hout as ->.
      destruct (parse_alipay_row _ _ _ Ea Hin) as (r & amt & _ & _ & ->).
      apply alipay_type_cases.
    - destruct (parse_wechat_row _ _ _ Hout Hin) as (r & amt & _ & _ & ->).
      apply wechat_type_cases. }
  cbv zeta. destruct Ht as [-> | ->]; [left | right];
    repeat split; vm_compute; reflexivity.
Qed.

Lemma ledger_types_witness :
  let files := [Some alipay_directions; Some (wechat_file (u "商户消费"))] in
  exists ledger,
    main files None = Ok (Some ledger) /\
    map (fun row => Txn.type (txn row)) ledger = [u "收入"; u "支出"] /\
    Forall (fun row => is_expense (Txn.type (txn row))
                       = negb (is_income (Txn.type (txn row)))) ledger.
Proof.
  intros files.
  destruct (main files None) as [[ledger|]|] eqn:E;
    try (vm_compute in E; discriminate E).
  exists ledger. split; [reflexivity|].
  split; [vm_compute in E; now injection E as <-|].
  rewrite Forall_forall. intros row Hrow.
  destruct (ledger_rows_are_expense_or_income table_unicode literal_regex
              decimal_float digit_dates stable_argsort files None ledger
              row E Hrow) as [(_ & -> & ->)|(_ & -> & ->)]; reflexivity.
Defined.

(** X15: a body cell of a report table never holds more characters than
    [max_chars = max(1, int(w / 3.0))]: a text of at most [max_chars]
    characters is written as it is; a longer one is cut to its first
    [max_chars - 1] characters and an ellipsis, [max_chars] characters in
    all.  The cell is written whenever [int] accepts [w / 3.0], and the
    error of [int] is raised otherwise. *)
Theorem table_cell_text_fits (w : float) (text : str) :
  (forall n,
      int_of_float (SFdiv 53 1024 w three) = Ok n ->
      let max_chars := Z.max 1 n in
      exists out,
        table_cell_text w text = Ok out /\
        (Z.of_nat (length out) <= max_chars)%Z /\
        ((Z.of_nat (length text) <= max_chars)%Z -> out = text) /\
        ((max_chars < Z.of_nat (length text))%Z ->
         out = firstn (Z.to_nat (max_chars - 1)) text ++ [0x2026] /\
         Z.of_nat (length out) = max_chars)) /\
  (forall e,
      int_of_float (SFdiv 53 1024 w three) = Raise e ->
      table_cell_text w text = Raise e).
Proof.
  unfold table_cell_text. split.
  - intros n ->. cbn [bind]. set (max_chars := Z.max 1 n).
    eexists. split; [reflexivity|].
    destruct (max_chars <? Z.of_nat (length text))%Z eqn:E.
    + apply Z.ltb_lt in E.
      assert (Hlen : Z.of_nat (length (firstn (Z.to_nat (max_chars - 1)) text
                                       ++ [0x2026])) = max_chars).
      { rewrite length_app, length_firstn. simpl. subst max_chars. lia. }
      split; [lia|]. split; [lia|]. intros _. split; [reflexivity|exact Hlen].
    + apply Z.ltb_ge in E. split; [exact E|].
      split; [reflexivity | lia].
  - intros e ->. reflexivity.
Qed.

(** A column 30 mm wide holds ten characters: an address of sixteen is cut
    to its first nine and an ellipsis, a name of three is written as it
    is. *)
Lemma table_cell_text_witness :
  let w := S754_finite false 8444249301319680 (-48) in
  table_cell_text w (u "北京市朝阳区朝阳门外大街甲6号")
  = Ok (u "北京市朝阳区朝阳门…") /\
  table_cell_text w (u "肯德基") = Ok (u "肯德基").
Proof.
  intros w.
  assert (Hn : int_of_float (SFdiv 53 1024 w three) = Ok 10%Z)
    by (vm_compute; reflexivity).
  split.
  - destruct (proj1 (table_cell_text_fits w
                       (u "北京市朝阳区朝阳门外大街甲6号")) 10%Z Hn)
      as (out & -> & _ & _ & Hlong).
    f_equal. apply Hlong. vm_compute. reflexivity.
  - destruct (proj1 (table_cell_text_fits w (u "肯德基")) 10%Z Hn)
      as (out & -> & _ & Hshort & _).
    f_equal. apply Hshort. vm_compute. discriminate.
Defined.

(** ** Reading a file *)

Lemma startswith_app (k a b : str) :
  startswith k a = true -> startswith k (a ++ b) = true.
Proof.
  revert a. induction k as [|c k IH]; intros a; [reflexivity|].
  destruct a as [|d a]; simpl; [discriminate|].
  rewrite !andb_true_iff. intros [E H]. split; [exact E | now apply IH].
Qed.

Lemma contains_app_r (k a b : str) :
  contains k a = true -> contains k (a ++ b) = true.
Proof.
  induction a as [|c a IH]; simpl.
  - rewrite orb_false_r. destruct k; [|discriminate].
    intros _. destruct b; reflexivity.
  - rewrite !orb_true_iff. intros [H|H].
    + left. now apply (startswith_app k (c :: a) b).
    + right. now apply IH.
Qed.

Lemma contains_lstrip (k s : str) :
  contains k (lstrip s) = true -> contains k s = true.
Proof.
  induction s as [|c s IH]; [trivial|].
  cbn [lstrip]. destruct (isspace c); [|trivial].
  intros H. cbn [contains]. rewrite (IH H). apply orb_true_r.
Qed.

Lemma rstrip_prefix (s : str) : exists t, s = rstrip s ++ t.
Proof.
  induction s as [|c s [t IH]]; [now exists []|].
  rewrite rstrip_cons. destruct (forallb isspace (c :: s)).
  - now exists (c :: s).
  - exists t. simpl. now rewrite <- IH.
Qed.

Lemma contains_strip (k s : str) :
  contains k (strip s) = true -> contains k s = true.
Proof.
  unfold strip. intros H. apply contains_lstrip.
  destruct (rstrip_prefix (lstrip s)) as [t E].
  rewrite E. now apply contains_app_r.
Qed.

Section Reading.
Context {U : Unicode} {Rd : Reader}.

Lemma first_with_header_some (read : nat -> result DataFrame)
  (ks : list nat) (df : DataFrame) :
  first_with_header read ks = Some df ->
  exists k, In k ks /\ read k = Ok df /\
            existsb headerish (df_columns df) = true.
Proof.
  induction ks as [|k ks IH]; simpl; [discriminate|].
  destruct (read k) as [df2|e] eqn:E.
  - destruct (has_columns df2 && existsb headerish (df_columns df2))
      eqn:Eh.
    + intros [= <-]. apply andb_true_iff in Eh. exists k. tauto.
    + intros H. destruct (IH H) as (k' & ? & ? & ?). exists k'. tauto.
  - intros H. destruct (IH H) as (k' & ? & ? & ?). exists k'. tauto.
Qed.

Lemma read_csv_any_skip (path : str) (pre encs : list str) :
  (forall e, In e pre -> exists x, read_csv path (Some e) 0 = Raise x) ->
  read_csv_any path (pre ++ encs) = read_csv_any path encs.
Proof.
  induction pre as [|e pre IH]; intros H; [reflexivity|].
  cbn [app read_csv_any]. destruct (H e (or_introl eq_refl)) as [x ->].
  apply IH. intros e' He'. apply H. now right.
Qed.

Lemma read_csv_any_inl (path : str) (encs : list str) (df : DataFrame) :
  read_csv_any path encs = inl df ->
  (exists enc, read_csv path enc 0 = Ok df) \/
  (existsb headerish (df_columns df) = true /\
   exists k enc, In k skiprows /\ In enc encs /\
                 read_csv path (Some enc) k = Ok df).
Proof.
  induction encs as [|enc encs IH]; cbn [read_csv_any In].
  - destruct (read_csv path None 0) as [df'|] eqn:E; [|discriminate].
    intros [= <-]. left. now exists None.
  - destruct (read_csv path (Some enc) 0) as [df'|] eqn:E.
    + destruct (has_columns df' && negb (existsb headerish (df_columns df')));
        [|intros [= <-]; left; now exists (Some enc)].
      destruct (first_with_header _ skiprows) as [df2|] eqn:E2.
      * intros [= <-]. apply first_with_header_some in E2.
        destruct E2 as (k & Hk & Hr & Hh). right. split; [exact Hh|].
        exists k, enc. auto.
      * intros [= <-]. left. now exists (Some enc).
    + intros H. destruct (IH H) as [Hl|(Hh & k & enc' & ? & ? & ?)];
        [now left|]. right. split; [exact Hh|]. exists k, enc'. auto.
Qed.

Lemma read_csv_any_inr (path : str) (encs : list str) (err : read_error) :
  read_csv_any path encs = inr err <->
  (forall enc, In enc encs ->
               exists e, read_csv path (Some enc) 0 = Raise e) /\
  exists e, read_csv path None 0 = Raise e /\ err = Uncaught e.
Proof.
  induction encs as [|enc encs IH]; cbn [read_csv_any In].
  - destruct (read_csv path None 0) as [df|e]; split.
    + discriminate.
    + intros (_ & e & He & _). discriminate.
    + intros [= <-]. split; [tauto | now exists e].
    + intros (_ & e' & [= <-] & ->). reflexivity.
  - destruct (read_csv path (Some enc) 0) as [df|e] eqn:E.
    + split.
      * destruct (has_columns df && _); [destruct (first_with_header _ _)|];
          discriminate.
      * intros (Hall & _). destruct (Hall enc (or_introl eq_refl)) as [x Hx].
        congruence.
    + rewrite IH. split; intros (Hall & He); (split; [|exact He]).
      * intros enc' [<-|Hin]; [now exists e | now apply Hall].
      * intros enc' Hin. apply Hall. now right.
Qed.

End Reading.

(** X16: [_try_read] raises in two cases only.  On an Excel path, when
    the first [read_excel] raises: a RuntimeError, whatever a read with
    rows skipped would give.  On any other path, when [read_csv] raises
    under each of the six encodings and once more without one: the error
    of that last read.  A read with rows skipped that raises never makes
    [_try_read] raise. *)
Theorem try_read_raises_when_no_read_succeeds (U : Unicode) (Rd : Reader)
  (path : str) (err : read_error) :
  _try_read path = inr err <->
  if endswith (u ".xls") (lower path) || endswith (u ".xlsx") (lower path)
  then exists e, read_excel path 0 = Raise e /\ err = RuntimeError e
  else (forall enc, In enc encodings ->
                    exists e, read_csv path (Some enc) 0 = Raise e) /\
       exists e, read_csv path None 0 = Raise e /\ err = Uncaught e.
Proof.
  unfold _try_read. cbv zeta.
  destruct (endswith (u ".xls") (lower path)
            || endswith (u ".xlsx") (lower path)).
  - destruct (read_excel path 0) as [df|e]; split.
    + destruct (has_columns df && _); [destruct (first_with_header _ _)|];
        discriminate.
    + intros (e & He & _). discriminate.
    + intros [= <-]. now exists e.
    + intros (e' & [= <-] & ->). reflexivity.
  - apply read_csv_any_inr.
Qed.

Lemma try_read_raises_witness :
  (exists err, @_try_read table_unicode export_reader (u "input/微信.XLSX")
               = inr err /\ err = RuntimeError ValueError) /\
  (exists err, @_try_read table_unicode export_reader (u "input/other.csv")
               = inr err /\ err = Uncaught ValueError) /\
  forall err, @_try_read table_unicode export_reader (u "input/alipay.csv")
              = inr err -> False.
Proof.
  split; [|split].
  - exists (RuntimeError ValueError). split; [|reflexivity].
    apply (proj2 (try_read_raises_when_no_read_succeeds table_unicode
                    export_reader (u "input/微信.XLSX") _)).
    vm_compute. now exists ValueError.
  - exists (Uncaught ValueError). split; [|reflexivity].
    apply (proj2 (try_read_raises_when_no_read_succeeds table_unicode
                    export_reader (u "input/other.csv") _)).
    match goal with
    | |- if ?b then _ else _ =>
        replace b with false by (vm_compute; reflexivity)
    end.
    split; [|now exists ValueError].
    intros enc Hin. unfold encodings in Hin. simpl in Hin.
    repeat (destruct Hin as [<-|Hin];
            [exists ValueError; vm_compute; reflexivity|]).
    destruct Hin.
  - intros err H.
    apply (proj1 (try_read_raises_when_no_read_succeeds table_unicode
                    export_reader (u "input/alipay.csv") err)) in H.
    vm_compute in H. destruct H as [H _].
    destruct (H (u "gbk")) as [e He].
    + vm_compute. tauto.
    + vm_compute in He. discriminate He.
Defined.

(** X17: the table [_try_read] returns is one a reader returned for this
    path: either the table of a read with no row skipped, or the table of
    a read that skips 1, 2, 3, 4, 5 or 10 rows, and then one of its labels
    contains 交易 or 时间. *)
Theorem try_read_returns_a_read_table (U : Unicode) (Rd : Reader)
  (path : str) (df : DataFrame) :
  _try_read path = inl df ->
  (read_excel path 0 = Ok df \/ exists enc, read_csv path enc 0 = Ok df) \/
  (existsb headerish (df_columns df) = true /\
   exists k, In k [1; 2; 3; 4; 5; 10]%nat /\
             (read_excel path k = Ok df \/
              exists enc, read_csv path (Some enc) k = Ok df)).
Proof.
  unfold _try_read. cbv zeta.
  destruct (endswith (u ".xls") (lower path)
            || endswith (u ".xlsx") (lower path)).
  - destruct (read_excel path 0) as [df0|e] eqn:E; [|discriminate].
    destruct (has_columns df0 && _);
      [|intros [= <-]; left; now left].
    destruct (first_with_header _ skiprows) as [df2|] eqn:E2.
    + intros [= <-]. apply first_with_header_some in E2.
      destruct E2 as (k & Hk & Hr & Hh). right. split; [exact Hh|].
      exists k. split; [exact Hk | now left].
    + intros [= <-]. left. now left.
  - intros H. apply read_csv_any_inl in H.
    destruct H as [H|(Hh & k & enc & Hk & _ & Hr)].
    + left. now right.
    + right. split; [exact Hh|]. exists k. split; [exact Hk|].
      right. now exists enc.
Qed.

(** The export whose header is on the fifth line is returned from the
    read that skips four rows. *)
Lemma try_read_returns_witness :
  exists df,
    @_try_read table_unicode export_reader (u "input/alipay.csv") = inl df /\
    existsb headerish (df_columns df) = true /\
    @parse_alipay decimal_float digit_dates df <> None.
Proof.
  destruct (@_try_read table_unicode export_reader (u "input/alipay.csv"))
    as [df|] eqn:E; [|vm_compute in E; discriminate E].
  exists df. split; [reflexivity|].
  destruct (try_read_returns_a_read_table table_unicode export_reader
              _ df E) as [[H|[enc H]]|(Hh & _)].
  - vm_compute in H. discriminate H.
  - exfalso. vm_compute in E. injection E as <-.
    unfold read_csv, export_reader in H.
    destruct enc as [e|]; [|discriminate H].
    destruct (str_eqb e (u "gbk")); [|discriminate H].
    vm_compute in H. discriminate H.
  - split; [exact Hh|]. vm_compute in E. injection E as <-.
    vm_compute. discriminate.
Defined.

Section Headers.
Context {F : FloatText} {D : DateText}.

Lemma time_alias_headerish (c : str) :
  In (strip c) alipay_time_aliases \/ In (strip c) wechat_time_aliases ->
  headerish c = true.
Proof.
  intros H. unfold headerish. apply orb_true_iff. right.
  apply contains_strip.
  destruct H as [H|H]; simpl in H;
    repeat (destruct H as [<-|H]; [vm_compute; reflexivity|]);
    destruct H.
Qed.

(** A table an adapter takes has a label that [_try_read] takes for a
    header. *)
Lemma adapt_headerish (df : DataFrame) :
  adapt df <> None -> existsb headerish (df_columns df) = true.
Proof.
  intros H.
  assert (Ht : has_alias (df_columns df) alipay_time_aliases \/
               has_alias (df_columns df) wechat_time_aliases).
  { unfold adapt in H. destruct (parse_alipay df) eqn:Ea.
    - left. apply parse_alipay_recognises. congruence.
    - right. now apply parse_wechat_recognises. }
  apply existsb_exists.
  destruct Ht as [(c & Hin & Hc)|(c & Hin & Hc)]; exists c;
    (split; [exact Hin | apply time_alias_headerish; tauto]).
Qed.

End Headers.

(** X18: the header test of [_try_read] agrees with the adapters on a CSV
    file: a table an adapter takes has a label with 时间 in it, so when
    the first encoding that reads the file gives such a table, it is
    returned as read, with no row skipped. *)
Theorem recognised_csv_is_returned_as_read (U : Unicode) (Rd : Reader)
  (F : FloatText) (D : DateText) (path : str) (pre post : list str)
  (enc : str) (df : DataFrame) :
  endswith (u ".xls") (lower path) || endswith (u ".xlsx") (lower path)
  = false ->
  [u "utf-8-sig"; u "utf-8"; u "gbk"; u "gb18030"; u "cp936"; u "latin1"]
  = pre ++ enc :: post ->
  (forall e, In e pre -> exists x, read_csv path (Some e) 0 = Raise x) ->
  read_csv path (Some enc) 0 = Ok df ->
  adapt df <> None ->
  existsb headerish (df_columns df) = true /\ _try_read path = inl df.
Proof.
  intros Hcsv Hencs Hpre Hread Hadapt.
  pose proof (adapt_headerish df Hadapt) as Hh. split; [exact Hh|].
  unfold _try_read. cbv zeta. rewrite Hcsv.
  unfold encodings. rewrite Hencs, (read_csv_any_skip _ _ _ Hpre).
  cbn [read_csv_any]. rewrite Hread, Hh. cbn [negb].
  now rewrite andb_false_r.
Qed.

(** The WeChat export, a GBK text, is returned from the first read that
    succeeds. *)
Lemma recognised_csv_witness :
  @_try_read table_unicode export_reader (u "input/wechat.csv")
  = inl (wechat_file (u "商户消费")).
Proof.
  apply (recognised_csv_is_returned_as_read table_unicode export_reader
           decimal_float digit_dates (u "input/wechat.csv")
           [u "utf-8-sig"; u "utf-8"] [u "gb18030"; u "cp936"; u "latin1"]
           (u "gbk") (wechat_file (u "商户消费"))).
  - vm_compute. reflexivity.
  - reflexivity.
  - intros e [<-|[<-|[]]]; exists ValueError; vm_compute; reflexivity.
  - vm_compute. reflexivity.
  - vm_compute. discriminate.
Defined.

(** ** The regex flag of a rule *)

Lemma in_lstrip_keep (c : char) (s : str) :
  isspace c = false -> In c s -> In c (lstrip s).
Proof.
  intros Hc. induction s as [|a s IH]; simpl; [tauto|].
  destruct (isspace a) eqn:Ea; [|trivial].
  intros [<-|Hin]; [congruence | now apply IH].
Qed.

Lemma in_strip_keep (c : char) (s : str) :
  isspace c = false -> In c s -> In c (strip s).
Proof.
  intros Hc Hin. unfold strip, rstrip. apply (proj1 (in_rev _ _)).
  apply in_lstrip_keep; [exact Hc|]. apply (proj1 (in_rev _ _)).
  now apply in_lstrip_keep.
Qed.

(** The text of a float has a point in it, or spells NaN or an
    infinity. *)
Lemma print_float_shape (f : float) :
  In 0x2E (print_float f) \/
  In (print_float f) [u "nan"; u "inf"; u "-inf"].
Proof.
  destruct f as [s|s| |s m e]; simpl print_float.
  - left. destruct s; vm_compute; tauto.
  - right. destruct s; simpl; tauto.
  - right. simpl. tauto.
  - left. apply in_or_app. right. destruct e as [|p|p].
    + apply in_or_app. right. vm_compute. tauto.
    + apply in_or_app. right. vm_compute. tauto.
    + unfold decimal_expansion. cbv zeta. apply in_or_app. right.
      now left.
Qed.

Lemma digit_repr_char (c : char) :
  (0x30 <=? c) && (c <=? 0x39) = true -> repr_char c = true.
Proof. intros H. unfold repr_char. now rewrite H. Qed.

Lemma uint_digits_digit (d : Decimal.uint) (c : char) :
  In c (uint_digits d) -> (0x30 <=? c) && (c <=? 0x39) = true.
Proof.
  induction d; simpl; try tauto;
    (intros [<-|H]; [reflexivity | now apply IHd]).
Qed.

Lemma in_firstn {A : Type} (n : nat) (l : list A) (x : A) :
  In x (firstn n l) -> In x l.
Proof.
  intros H. rewrite <- (firstn_skipn n l). apply in_or_app. now left.
Qed.

Lemma in_skipn {A : Type} (n : nat) (l : list A) (x : A) :
  In x (skipn n l) -> In x l.
Proof.
  intros H. rewrite <- (firstn_skipn n l). apply in_or_app. now right.
Qed.

Lemma in_lstrip_zeros (c : char) (s : str) :
  In c (lstrip_zeros s) -> In c s.
Proof.
  induction s as [|a s IH]; simpl; [tauto|].
  destruct (a =? 0x30); simpl; tauto.
Qed.

Lemma decimal_expansion_chars (m : positive) (k : nat) (c : char) :
  In c (decimal_expansion m k) -> repr_char c = true.
Proof.
  unfold decimal_expansion. cbv zeta.
  set (digits := uint_digits _). set (pad := repeat 0x30 _ ++ digits).
  assert (Hpad : forall x, In x pad -> repr_char x = true).
  { intros x Hx. apply in_app_or in Hx. destruct Hx as [Hx|Hx].
    - apply repeat_spec in Hx. now subst x.
    - apply digit_repr_char. now apply (uint_digits_digit _ _ Hx). }
  intros H. apply in_app_or in H. destruct H as [H|H].
  - apply Hpad. now apply in_firstn in H.
  - apply in_app_or in H. destruct H as [[<-|[]]|H]; [reflexivity|].
    destruct (rev (lstrip_zeros (rev (skipn _ pad)))) as [|a fp] eqn:E.
    + destruct H as [<-|[]]. reflexivity.
    + rewrite <- E in H. apply in_rev, in_lstrip_zeros in H.
      apply in_rev in H. apply Hpad. now apply in_skipn in H.
Qed.

(** [print_float] writes what [repr] may write. *)
Lemma decimal_float_laws : FloatTextLaws decimal_float.
Proof.
  split; cbn [float_repr decimal_float].
  - intros f c. destruct f as [s|s| |s m e]; simpl print_float.
    + destruct s; simpl; intuition (subst; reflexivity).
    + destruct s; simpl; intuition (subst; reflexivity).
    + simpl. intuition (subst; reflexivity).
    + intros H. apply in_app_or in H. destruct H as [H|H].
      * destruct s; simpl in H; [|tauto]. destruct H as [<-|[]]. reflexivity.
      * destruct e as [|p|p].
        -- apply in_app_or in H. destruct H as [H|H].
           ++ apply digit_repr_char. now apply (uint_digits_digit _ _ H).
           ++ simpl in H. intuition (subst; reflexivity).
        -- apply in_app_or in H. destruct H as [H|H].
           ++ apply digit_repr_char. now apply (uint_digits_digit _ _ H).
           ++ simpl in H. intuition (subst; reflexivity).
        -- now apply decimal_expansion_chars in H.
  - intros f. destruct (print_float_shape f) as [H|H]; [now left|].
    right. right. simpl in H.
    destruct H as [<-|[<-|[<-|[]]]]; vm_compute; tauto.
Qed.

Lemma rule_of_row_regex `{FloatText} (row : series) (r : Rule.t) :
  rule_of_row row = Some r ->
  Rule.regex r
  = existsb (str_eqb (strip (py_str (series_get row (Some (u "regex"))
                                                (PStr (u "0"))))))
            [u "1"; u "true"; u "True"].
Proof.
  unfold rule_of_row. cbv zeta.
  destruct (negb (truthy _)); [discriminate|].
  now intros [= <-].
Qed.

(** X19: a rule whose regex cell is a float, as pandas reads a column of
    0 and 1 with a blank in it, is a literal rule, also when the cell is
    1.0: the text [str] gives for a float is made of digits, a point,
    signs, the exponent mark and the letters of inf and nan, and has a
    point, an exponent mark or the letter n in it, so that it is none of
    1, true and True. *)
Theorem float_regex_cell_gives_literal_rule (F : FloatText)
  (L : FloatTextLaws F) (row : series) (f : float) (r : Rule.t) :
  series_get row (Some (u "regex")) (PStr (u "0")) = PFloat f ->
  rule_of_row row = Some r ->
  Rule.regex r = false.
Proof.
  intros Hcell Hrule. rewrite (rule_of_row_regex row r Hrule), Hcell.
  cbn [py_str existsb]. rewrite orb_false_r.
  assert (Hchars : forall c, In c (strip (float_repr f)) ->
                             repr_char c = true).
  { intros c Hc. apply (repr_chars f). now apply in_strip. }
  assert (Hmark : In 0x2E (strip (float_repr f)) \/
                  In 0x65 (strip (float_repr f)) \/
                  In 0x6E (strip (float_repr f))).
  { destruct (repr_marked f) as [H|[H|H]]; [left | right; left | right; right];
      (apply in_strip_keep; [reflexivity | exact H]). }
  repeat (apply orb_false_iff; split);
    (destruct (str_eqb _ _) eqn:E; [|reflexivity];
     apply str_eqb_eq in E; rewrite E in Hchars, Hmark; exfalso).
  - vm_compute in Hmark. intuition discriminate.
  - specialize (Hchars 0x72). vm_compute in Hchars.
    assert (false = true) by (apply Hchars; tauto). discriminate.
  - specialize (Hchars 0x72). vm_compute in Hchars.
    assert (false = true) by (apply Hchars; tauto). discriminate.
Qed.

(** Two rules read from a table whose regex column holds 1.0 and a
    blank. *)
Lemma float_regex_cell_witness :
  let table := {| df_columns := [u "merchant"; u "category"; u "regex"];
                  df_rows := [[PStr (u "^kfc"); PStr (u "餐饮");
                               PFloat (S754_finite false 4503599627370496
                                         (-52))];
                              [PStr (u "滴滴"); PStr (u "交通");
                               PFloat S754_nan]] |} in
  map (fun r => (Rule.merchant r, Rule.regex r))
      (@rules_of_rows decimal_float (@rule_rows table_unicode table))
  = [(u "^kfc", false); (u "滴滴", false)] /\
  Forall (fun r => Rule.regex r = false)
         (@rules_of_rows decimal_float (@rule_rows table_unicode table)).
Proof.
  intros table. split; [vm_compute; reflexivity|].
  rewrite Forall_forall. intros r Hr.
  apply in_rules_of_rows in Hr. destruct Hr as (row & Hrow & Hr).
  vm_compute in Hrow. destruct Hrow as [<-|[<-|[]]].
  - eapply (float_regex_cell_gives_literal_rule decimal_float
              decimal_float_laws); [|exact Hr].
    vm_compute. reflexivity.
  - eapply (float_regex_cell_gives_literal_rule decimal_float
              decimal_float_laws); [|exact Hr].
    vm_compute. reflexivity.
Defined.
